(** * GenAI Math Routing Agent: retrieval, routing, guard and fallback

    A shallow embedding of the TypeScript services of the repository

      - [server/services/vectorDB.ts]   (class [MockVectorDB]),
      - [server/services/webSearch.ts]  (class [MCPWebSearch]),
      - [server/services/guardrails.ts] (class [AIGuardRails]),
      - [server/services/mathAgent.ts]  (class [MathRoutingAgent]),
      - [server/storage.ts]             (class [MemStorage]),

    together with the properties the specification states about them.

    Conventions.
      - A JavaScript string is the list of its UTF-16 code units.
      - A JavaScript [number] is an element of a [Number] structure; two
        instances are given, IEEE binary64 (primitive floats) and the
        real numbers (exact arithmetic).
      - The mutable singletons [vectorDB] and [storage] are fields of an
        explicit [World]; [async] methods are computations in a state
        and exception monad. *)

From Stdlib Require Import String Ascii.
From Stdlib Require Import ZArith List Bool Lia.
From Stdlib Require Import Floats Uint63.
From Stdlib Require Import Reals Lra Psatz.
From Stdlib Require Import Permutation Sorted.
From Stdlib Require Import DecimalString.
Import ListNotations.

Local Open Scope Z_scope.

(* ================================================================= *)
(** ** JavaScript strings *)

Module JSString.

(** A string value: the sequence of its UTF-16 code units. *)
Definition jsstring := list Z.

(** String literals of the source are written as UTF-8 text; [utf16]
    decodes the bytes to code points and re-encodes them in UTF-16. *)
Definition surrogates (cp : Z) : list Z :=
  if cp <? 65536 then [cp]
  else [55296 + Z.shiftr (cp - 65536) 10; 56320 + Z.land (cp - 65536) 1023].

Definition cont (b : Z) : Z := Z.land b 63.

Fixpoint utf16 (bs : list Z) : jsstring :=
  match bs with
  | [] => []
  | b1 :: t1 =>
    if b1 <? 128 then b1 :: utf16 t1
    else match t1 with
    | [] => [65533]
    | b2 :: t2 =>
      if b1 <? 224 then
        (Z.shiftl (Z.land b1 31) 6 + cont b2) :: utf16 t2
      else match t2 with
      | [] => [65533]
      | b3 :: t3 =>
        if b1 <? 240 then
          (Z.shiftl (Z.land b1 15) 12 + Z.shiftl (cont b2) 6 + cont b3)
            :: utf16 t3
        else match t3 with
        | [] => [65533]
        | b4 :: t4 =>
          surrogates (Z.shiftl (Z.land b1 7) 18 + Z.shiftl (cont b2) 12
                      + Z.shiftl (cont b3) 6 + cont b4) ++ utf16 t4
        end
      end
    end
  end.

Definition js (s : string) : jsstring :=
  utf16 (map (fun b => Z.of_N (Byte.to_N b)) (list_byte_of_string s)).

(** [String.prototype.toLowerCase].  The Unicode case tables belong to
    the host; the model carries the Basic Latin rows (A-Z to a-z), one
    code unit at a time, and maps every other code unit to itself. *)
Definition lowerUnit (c : Z) : Z :=
  if (65 <=? c) && (c <=? 90) then c + 32 else c.

Definition toLowerCase (s : jsstring) : jsstring := map lowerUnit s.

(** [s.startsWith(p)] and [s.includes(sub)]. *)
Fixpoint startsWith (p s : jsstring) : bool :=
  match p, s with
  | [], _ => true
  | _ :: _, [] => false
  | a :: p', b :: s' => (a =? b) && startsWith p' s'
  end.

Fixpoint includes (s sub : jsstring) : bool :=
  startsWith sub s
  || match s with
     | [] => false
     | _ :: s' => includes s' sub
     end.

(** [s.split(sep)] for a separator of one code unit: the pieces between
    the occurrences of [sep]; there is always at least one piece. *)
Fixpoint split (sep : Z) (s : jsstring) : list jsstring :=
  match s with
  | [] => [[]]
  | c :: rest =>
    if c =? sep then [] :: split sep rest
    else match split sep rest with
         | [] => [[c]]
         | w :: ws => (c :: w) :: ws
         end
  end.

(** [s.substring(0, n)] for [n >= 0]. *)
Definition substring0 (n : nat) (s : jsstring) : jsstring := firstn n s.

(** Decimal rendering of a length ([`${xs.length}`]). *)
Definition ofNat (n : nat) : jsstring :=
  js (NilZero.string_of_uint (Nat.to_uint n)).

End JSString.
Export JSString.

(* ================================================================= *)
(** ** JavaScript numbers *)

(** The operations on [number] the services use.  [ofZ] injects the
    integers (exactly, below 2^53); [nan] is the value of arithmetic on
    [undefined]; [gtb x y] is [x > y]. *)
Class Number : Type := {
  num : Type;
  ofZ : Z -> num;
  nan : num;
  add : num -> num -> num;
  sub : num -> num -> num;
  mul : num -> num -> num;
  div : num -> num -> num;
  sqrt : num -> num;
  gtb : num -> num -> bool
}.

(** The literals [0.1] and [0.7]: the numbers nearest to 1/10 and 7/10
    (division is correctly rounded, so the quotient is the literal). *)
Definition lit_0_1 `{Number} : num := div (ofZ 1) (ofZ 10).
Definition lit_0_7 `{Number} : num := div (ofZ 7) (ofZ 10).

(** [Math.sin] and [Number.prototype.toFixed], provided by the host. *)
Class MathLib (N : Number) : Type := {
  sin : num -> num;
  toFixed : num -> nat -> jsstring
}.

(** *** IEEE binary64 *)
Module Binary64.

Definition fromZ (z : Z) : float :=
  if z <? 0 then PrimFloat.opp (PrimFloat.of_uint63 (Uint63.of_Z (- z)))
  else PrimFloat.of_uint63 (Uint63.of_Z z).

#[export] Instance number : Number := {|
  num := float;
  ofZ := fromZ;
  nan := PrimFloat.nan;
  add := PrimFloat.add;
  sub := PrimFloat.sub;
  mul := PrimFloat.mul;
  div := PrimFloat.div;
  sqrt := PrimFloat.sqrt;
  gtb := fun x y => PrimFloat.ltb y x
|}.

End Binary64.

(** *** Real numbers (exact arithmetic)

    The reals have no rounding, no NaN and no infinities: [nan] and a
    quotient by 0 take the Standard Library's totalised value.  The
    instance serves for what the specification states over the reals
    and for running the theorems that hold in every number structure
    on an example; what is said of the implementation is proved for
    every number structure or for binary64. *)
Module Exact.

Definition Rgtb (x y : R) : bool := if Rgt_dec x y then true else false.

#[export] Instance number : Number := {|
  num := R;
  ofZ := IZR;
  nan := Rdiv 0 0;
  add := Rplus;
  sub := Rminus;
  mul := Rmult;
  div := Rdiv;
  sqrt := R_sqrt.sqrt;
  gtb := Rgtb
|}.

(** [x.toFixed(f)] for [|x| < 10^21]: the integer [n] nearest to
    [|x| * 10^f] (the larger one on a tie), written with at least [f+1]
    digits and a point before the last [f]. *)
Definition digits (n : Z) : jsstring := ofNat (Z.to_nat n).

Definition padLeft (w : nat) (s : jsstring) : jsstring :=
  repeat 48 (w - length s) ++ s.

Definition fixedAbs (x : R) (f : nat) : jsstring :=
  let n := Zfloor (x * IZR (10 ^ Z.of_nat f) + / 2)%R in
  let m := padLeft (S f) (digits n) in
  let k := (length m - f)%nat in
  if Nat.eqb f 0 then m else firstn k m ++ [46] ++ skipn k m.

Definition RtoFixed (x : R) (f : nat) : jsstring :=
  if Rlt_dec x 0 then 45 :: fixedAbs (- x) f else fixedAbs x f.

#[export] Instance mathLib : MathLib number := {|
  sin := Rtrigo_def.sin;
  toFixed := RtoFixed
|}.

End Exact.

(* ================================================================= *)
(** ** Solution documents *)

(** A solution document ([solution: any] in the source): numbered steps,
    a final answer and, for web answers, the list of sources. *)
Record Step := {
  step : Z;
  title : jsstring;
  content : jsstring;
  explanation : jsstring
}.

Record SourceRef := {
  src_title : jsstring;
  src_url : jsstring
}.

Record Solution := {
  steps : list Step;
  finalAnswer : jsstring;
  sources : option (list SourceRef)
}.

Section Services.

Context {N : Number} {L : MathLib N}.

(* ================================================================= *)
(** ** vectorDB.ts: embeddings and similarity *)

(** An element of [MockVectorDB.problems]. *)
Record KBEntry := {
  kb_problem : jsstring;
  kb_solution : Solution;
  kb_category : jsstring;
  kb_embedding : list num
}.

Record VectorSearchResult := {
  problem : jsstring;
  solution : Solution;
  similarity : num;
  category : jsstring;
  source : jsstring
}.

(** [ToInt32]: reduction to a signed 32-bit integer. *)
Definition toInt32 (z : Z) : Z := (z + 2 ^ 31) mod 2 ^ 32 - 2 ^ 31.

(** [simpleHash]: per code unit [hash = ((hash << 5) - hash) + char],
    then [hash & hash]; finally [Math.abs]. *)
Definition hashStep (hash char : Z) : Z :=
  let h := toInt32 (Z.shiftl hash 5) - hash + char in
  toInt32 (Z.land h h).

Definition simpleHash (str : jsstring) : Z :=
  Z.abs (fold_left hashStep str 0).

(** The inner loop of [generateMockEmbedding]:
    [embedding[i] += Math.sin(hash + i + index) * 0.1] for every [i].
    The argument of [sin] is an integer below 2^53. *)
Fixpoint accumulate (hash index i : Z) (embedding : list num) : list num :=
  match embedding with
  | [] => []
  | e :: rest =>
    add e (mul (sin (ofZ (hash + i + index))) lit_0_1)
      :: accumulate hash index (i + 1) rest
  end.

(** [words.forEach((word, index) => ...)]. *)
Fixpoint forEachWord (words : list jsstring) (index : Z)
    (embedding : list num) : list num :=
  match words with
  | [] => embedding
  | word :: ws =>
    forEachWord ws (index + 1) (accumulate (simpleHash word) index 0 embedding)
  end.

Definition generateMockEmbedding (text : jsstring) : list num :=
  let words := split 32 (toLowerCase text) in
  let embedding := repeat (ofZ 0) 384 in
  forEachWord words 0 embedding.

(** [calculateSimilarity]: one pass over the indices of [embedding1];
    [embedding2[i]] is [undefined] past the end of [embedding2], and
    arithmetic on it gives NaN. *)
Definition at_ (e : list num) (i : nat) : num :=
  match nth_error e i with
  | Some x => x
  | None => nan
  end.

Fixpoint similarityLoop (e1 e2 : list num) (i : nat)
    (acc : num * num * num) : num * num * num :=
  match e1 with
  | [] => acc
  | x :: rest =>
    let '(dotProduct, norm1, norm2) := acc in
    similarityLoop rest e2 (S i)
      (add dotProduct (mul x (at_ e2 i)),
       add norm1 (mul x x),
       add norm2 (mul (at_ e2 i) (at_ e2 i)))
  end.

Definition calculateSimilarity (embedding1 embedding2 : list num) : num :=
  let '(dotProduct, norm1, norm2) :=
    similarityLoop embedding1 embedding2 0%nat (ofZ 0, ofZ 0, ofZ 0) in
  div dotProduct (mul (sqrt norm1) (sqrt norm2)).


(* ================================================================= *)
(** ** Arrays *)

(** [Array.prototype.sort(comparefn)]: a stable sort (ECMAScript 2019).
    Only the sign of [comparefn] is used; [comparefn x y > 0] asks for
    [x] after [y], and a NaN result counts as 0.  For a consistent
    comparator every stable sort returns this list. *)
Section ArraySort.

Context {A : Type} (comparefn : A -> A -> num).

Definition after (x y : A) : bool := gtb (comparefn x y) (ofZ 0).

Fixpoint insert (x : A) (sorted : list A) : list A :=
  match sorted with
  | [] => [x]
  | y :: l => if after x y then y :: insert x l else x :: y :: l
  end.

Fixpoint sort (l : list A) : list A :=
  match l with
  | [] => []
  | x :: l' => insert x (sort l')
  end.

End ArraySort.

(** [Array.prototype.slice(0, end)] for an integer [end]: a negative
    [end] counts from the end of the array. *)
Definition slice0 {A : Type} (end_ : Z) (l : list A) : list A :=
  let len := Z.of_nat (length l) in
  let final := if end_ <? 0 then Z.max (len + end_) 0 else Z.min end_ len in
  firstn (Z.to_nat final) l.

(* ================================================================= *)
(** ** storage.ts: records of [MemStorage] *)

Record InsertMathProblem := {
  imp_problem : jsstring;
  imp_solution : Solution;
  imp_category : jsstring;
  imp_difficulty : jsstring;
  imp_source : jsstring
}.

Record MathProblem := {
  mp_id : jsstring;
  mp_problem : jsstring;
  mp_solution : Solution;
  mp_category : jsstring;
  mp_difficulty : jsstring;
  mp_source : jsstring;
  mp_createdAt : Z
}.

Record InsertActivity := {
  ia_action : jsstring;
  ia_source : jsstring;
  ia_details : option jsstring
}.

Record SystemActivity := {
  act_id : jsstring;
  act_action : jsstring;
  act_source : jsstring;
  act_details : option jsstring;
  act_createdAt : Z
}.

(** A [Map<string, V>]: the entries in insertion order; [set] replaces
    the value of a key already present and appends a new key. *)
Definition Map (V : Type) : Type := list (jsstring * V).

Fixpoint jsstring_eqb (a b : jsstring) : bool :=
  match a, b with
  | [], [] => true
  | x :: a', y :: b' => (x =? y) && jsstring_eqb a' b'
  | _, _ => false
  end.

Fixpoint Map_set {V : Type} (key : jsstring) (value : V) (m : Map V) : Map V :=
  match m with
  | [] => [(key, value)]
  | (k, v) :: rest =>
    if jsstring_eqb k key then (k, value) :: rest
    else (k, v) :: Map_set key value rest
  end.

Record User := {
  user_id : jsstring;
  username : jsstring;
  password : jsstring
}.

Record FeedbackEntry := {
  fb_id : jsstring;
  fb_problemId : option jsstring;
  fb_accuracyRating : Z;
  fb_clarityRating : jsstring;
  fb_comments : option jsstring;
  fb_isHelpful : bool;
  fb_createdAt : Z
}.

Record MemStorage := {
  users : Map User;
  mathProblems : Map MathProblem;
  feedbackEntries : Map FeedbackEntry;
  systemActivities : Map SystemActivity
}.

(* ================================================================= *)
(** ** The world: module singletons and the host *)

(** [randomUUID()] and [Date.now()] read the host: the [n]-th call
    returns the [n]-th value of a sequence fixed by the environment. *)
Record Host := {
  uuids : nat -> jsstring;
  uuidCalls : nat;
  clock : nat -> Z;
  clockCalls : nat
}.

Record World := {
  problems : list KBEntry;      (* vectorDB.problems *)
  storage : MemStorage;         (* storage *)
  host : Host
}.

(** A computation either completes normally or throws [new Error(message)];
    the effects made before a throw persist. *)
Inductive completion (A : Type) : Type :=
| Normal (a : A)
| Throw (message : jsstring).
Arguments Normal {A} a.
Arguments Throw {A} message.

Definition M (A : Type) : Type := World -> completion A * World.

Definition ret {A : Type} (a : A) : M A := fun w => (Normal a, w).

Definition bind {A B : Type} (m : M A) (k : A -> M B) : M B :=
  fun w =>
    match m w with
    | (Normal a, w') => k a w'
    | (Throw e, w') => (Throw e, w')
    end.

Definition throw {A : Type} (message : jsstring) : M A :=
  fun w => (Throw message, w).

Definition tryCatch {A : Type} (body : M A) (handler : jsstring -> M A) : M A :=
  fun w =>
    match body w with
    | (Normal a, w') => (Normal a, w')
    | (Throw e, w') => handler e w'
    end.

Definition get : M World := fun w => (Normal w, w).
Definition put (w : World) : M unit := fun _ => (Normal tt, w).

Notation "x <- m ;; k" := (bind m (fun x => k))
  (at level 61, m at next level, right associativity).
Notation "m ;; k" := (bind m (fun _ => k))
  (at level 61, right associativity).

Definition randomUUID : M jsstring :=
  w <- get ;;
  let h := host w in
  put {| problems := problems w; storage := storage w;
         host := {| uuids := uuids h; uuidCalls := S (uuidCalls h);
                    clock := clock h; clockCalls := clockCalls h |} |} ;;
  ret (uuids h (uuidCalls h)).

Definition Date_now : M Z :=
  w <- get ;;
  let h := host w in
  put {| problems := problems w; storage := storage w;
         host := {| uuids := uuids h; uuidCalls := uuidCalls h;
                    clock := clock h; clockCalls := S (clockCalls h) |} |} ;;
  ret (clock h (clockCalls h)).

(** [x || d] on an optional string: [undefined] and [""] are falsy. *)
Definition orElse {A : Type} (x : option jsstring) (d : A) (f : jsstring -> A) : A :=
  match x with
  | Some (c :: s) => f (c :: s)
  | _ => d
  end.

(** [MemStorage.createMathProblem]. *)
Definition createMathProblem (insertProblem : InsertMathProblem) : M MathProblem :=
  id <- randomUUID ;;
  createdAt <- Date_now ;;
  let problem := {|
    mp_id := id;
    mp_problem := imp_problem insertProblem;
    mp_solution := imp_solution insertProblem;
    mp_category := imp_category insertProblem;
    mp_difficulty := imp_difficulty insertProblem;
    mp_source := imp_source insertProblem;
    mp_createdAt := createdAt |} in
  w <- get ;;
  put {| problems := problems w;
         storage := {| users := users (storage w);
                       mathProblems := Map_set id problem (mathProblems (storage w));
                       feedbackEntries := feedbackEntries (storage w);
                       systemActivities := systemActivities (storage w) |};
         host := host w |} ;;
  ret problem.

(** [MemStorage.createActivity]. *)
Definition createActivity (insertActivity : InsertActivity) : M SystemActivity :=
  id <- randomUUID ;;
  createdAt <- Date_now ;;
  let activity := {|
    act_id := id;
    act_action := ia_action insertActivity;
    act_source := ia_source insertActivity;
    act_details := orElse (ia_details insertActivity) None Some;
    act_createdAt := createdAt |} in
  w <- get ;;
  put {| problems := problems w;
         storage := {| users := users (storage w);
                       mathProblems := mathProblems (storage w);
                       feedbackEntries := feedbackEntries (storage w);
                       systemActivities :=
                         Map_set id activity (systemActivities (storage w)) |};
         host := host w |} ;;
  ret activity.

(* ================================================================= *)
(** ** vectorDB.ts: the store *)

Definition mkStep (n : Z) (t c e : jsstring) : Step :=
  {| step := n; title := t; content := c; explanation := e |}.

Definition quadraticSolution : Solution := {|
  steps := [
    mkStep 1 (js "Factor the quadratic expression")
      (js "x² + 5x + 6 = (x + 2)(x + 3)")
      (js "Find two numbers that multiply to 6 and add to 5: 2 and 3");
    mkStep 2 (js "Set each factor equal to zero")
      (js "x + 2 = 0  or  x + 3 = 0")
      (js "Use the zero product property");
    mkStep 3 (js "Solve for x")
      (js "x = -2  or  x = -3")
      (js "These are the roots of the quadratic equation") ];
  finalAnswer := js "x = -2 or x = -3";
  sources := None |}.

Definition derivativeSolution : Solution := {|
  steps := [
    mkStep 1 (js "Identify the function and apply the power rule")
      (js "f(x) = 3x³ + 2x² - 5x + 1")
      (js "We'll differentiate each term separately using the power rule: d/dx[xⁿ] = n·xⁿ⁻¹");
    mkStep 2 (js "Differentiate each term")
      (js "d/dx[3x³] = 9x²" ++ [10] ++ js "d/dx[2x²] = 4x" ++ [10]
       ++ js "d/dx[-5x] = -5" ++ [10] ++ js "d/dx[1] = 0")
      (js "Apply the power rule to each term");
    mkStep 3 (js "Combine the results")
      (js "f'(x) = 9x² + 4x - 5")
      (js "Sum all the derivatives") ];
  finalAnswer := js "f'(x) = 9x² + 4x - 5";
  sources := None |}.

Definition triangleSolution : Solution := {|
  steps := [
    mkStep 1 (js "Identify triangle type")
      (js "3² + 4² = 9 + 16 = 25 = 5²")
      (js "This is a right triangle (Pythagorean theorem satisfied)");
    mkStep 2 (js "Apply area formula")
      (js "Area = ½ × base × height = ½ × 3 × 4 = 6")
      (js "For a right triangle, use the two perpendicular sides as base and height") ];
  finalAnswer := js "Area = 6 square units";
  sources := None |}.

Definition sampleData : list KBEntry := [
  {| kb_problem := js "solve quadratic equation x² + 5x + 6 = 0";
     kb_solution := quadraticSolution;
     kb_category := js "algebra";
     kb_embedding := generateMockEmbedding (js "quadratic equation solve") |};
  {| kb_problem := js "find derivative of f(x) = 3x³ + 2x² - 5x + 1";
     kb_solution := derivativeSolution;
     kb_category := js "calculus";
     kb_embedding := generateMockEmbedding (js "derivative calculus power rule") |};
  {| kb_problem := js "calculate area of triangle with sides 3, 4, 5";
     kb_solution := triangleSolution;
     kb_category := js "geometry";
     kb_embedding := generateMockEmbedding (js "triangle area geometry") |} ].

(** [initializeSampleData]: [sampleData.forEach(data => this.problems.push(data))]. *)
Definition initializeSampleData (this_problems : list KBEntry) : list KBEntry :=
  fold_left (fun ps data => ps ++ [data]) sampleData this_problems.

(** [new MockVectorDB()]. *)
Definition MockVectorDB_new : list KBEntry := initializeSampleData [].

Definition scoreAgainst (queryEmbedding : list num) (p : KBEntry)
    : VectorSearchResult := {|
  problem := kb_problem p;
  solution := kb_solution p;
  similarity := calculateSimilarity queryEmbedding (kb_embedding p);
  category := kb_category p;
  source := js "knowledge_base" |}.

(** The comparator [(a, b) => b.similarity - a.similarity]. *)
Definition bySimilarity (a b : VectorSearchResult) : num :=
  sub (similarity b) (similarity a).

(** [searchSimilarProblems(query, limit = 5)]. *)
Definition searchSimilarProblems (query : jsstring) (limit : option Z)
    : M (list VectorSearchResult) :=
  let limit := match limit with Some l => l | None => 5 end in
  w <- get ;;
  let queryEmbedding := generateMockEmbedding query in
  let results := map (scoreAgainst queryEmbedding) (problems w) in
  ret (slice0 limit (sort bySimilarity results)).

(** [addProblem(problem, solution, category)]. *)
Definition addProblem (problem : jsstring) (solution : Solution)
    (category : jsstring) : M unit :=
  w <- get ;;
  put {| problems := problems w ++ [
           {| kb_problem := toLowerCase problem;
              kb_solution := solution;
              kb_category := category;
              kb_embedding := generateMockEmbedding problem |} ];
         storage := storage w;
         host := host w |}.

(* ================================================================= *)
(** ** storage.ts: [new MemStorage()] *)

(** [initializeSampleProblems]: three records, each with a fresh
    identifier and the time of creation, set into [mathProblems]. *)
Definition sampleProblem (problem : jsstring) (solution : Solution)
    (category difficulty : jsstring) : M MathProblem :=
  id <- randomUUID ;;
  createdAt <- Date_now ;;
  ret {| mp_id := id;
         mp_problem := problem;
         mp_solution := solution;
         mp_category := category;
         mp_difficulty := difficulty;
         mp_source := js "knowledge_base";
         mp_createdAt := createdAt |}.

Definition setMathProblem (p : MathProblem) : M unit :=
  w <- get ;;
  put {| problems := problems w;
         storage := {| users := users (storage w);
                       mathProblems := Map_set (mp_id p) p (mathProblems (storage w));
                       feedbackEntries := feedbackEntries (storage w);
                       systemActivities := systemActivities (storage w) |};
         host := host w |}.

Definition initializeSampleProblems : M unit :=
  p1 <- sampleProblem (js "Solve the quadratic equation x² + 5x + 6 = 0")
          quadraticSolution (js "algebra") (js "intermediate") ;;
  p2 <- sampleProblem (js "Find the derivative of f(x) = 3x³ + 2x² - 5x + 1")
          derivativeSolution (js "calculus") (js "intermediate") ;;
  p3 <- sampleProblem (js "Calculate the area of a triangle with sides 3, 4, and 5")
          triangleSolution (js "geometry") (js "basic") ;;
  setMathProblem p1 ;; setMathProblem p2 ;; setMathProblem p3.

(* ================================================================= *)
(** ** webSearch.ts *)

Record WebSearchResult := {
  ws_title : jsstring;
  ws_content : jsstring;
  ws_url : jsstring;
  ws_relevance : num
}.

Definition mockResults : list WebSearchResult := [
  {| ws_title := js "Advanced Topology Optimization Techniques";
     ws_content := js "Topology optimization is a mathematical method that optimizes material layout within a given design space...";
     ws_url := js "https://example.com/topology-optimization";
     ws_relevance := div (ofZ 95) (ofZ 100) |};
  {| ws_title := js "Quantum Mathematics in Cryptography Applications";
     ws_content := js "Quantum mathematics provides the foundation for quantum cryptography through principles of quantum mechanics...";
     ws_url := js "https://example.com/quantum-crypto";
     ws_relevance := div (ofZ 88) (ofZ 100) |} ].

(** [searchMathematicalContent]: the mock results; the [catch] branch
    would return the empty list. *)
Definition searchMathematicalContent (query : jsstring)
    : M (list WebSearchResult) :=
  tryCatch (ret mockResults) (fun _ => ret []).

(** [generateSolutionFromSearch(query, searchResults)]. *)
Definition generateSolutionFromSearch (query : jsstring)
    (searchResults : list WebSearchResult) : M Solution :=
  match searchResults with
  | [] =>
    ret {| steps := [
             mkStep 1 (js "Search completed")
               (js "No specific mathematical problem solution found")
               (js "This appears to be an advanced topic that requires specialized knowledge") ];
           finalAnswer := js "Please provide more specific mathematical details for a step-by-step solution";
           sources := Some [] |}
  | first :: _ =>
    ret {| steps := [
             mkStep 1 (js "Research Summary")
               (substring0 200 (ws_content first) ++ js "...")
               (js "Based on current research and mathematical literature");
             mkStep 2 (js "Key Concepts")
               (js "This topic involves advanced mathematical concepts that are actively researched")
               (js "The solution requires understanding of specialized mathematical frameworks") ];
           finalAnswer := js "This is an advanced mathematical topic. For detailed solutions, please consult specialized mathematical literature.";
           sources := Some (map (fun result =>
                        {| src_title := ws_title result; src_url := ws_url result |})
                        searchResults) |}
  end.

(* ================================================================= *)
(** ** guardrails.ts *)

Definition mathKeywords : list jsstring := map js [
  "equation"; "derivative"; "integral"; "function"; "solve"; "calculate"; "find";
  "algebra"; "calculus"; "geometry"; "trigonometry"; "statistics"; "probability";
  "matrix"; "vector"; "polynomial"; "logarithm"; "exponential"; "limit";
  "theorem"; "proof"; "formula"; "graph"; "plot"; "coordinate"; "angle";
  "triangle"; "circle"; "square"; "rectangle"; "area"; "volume"; "perimeter"
]%string.

Definition nonMathKeywords : list jsstring := map js [
  "politics"; "religion"; "personal"; "medical"; "legal"; "financial advice";
  "inappropriate"; "offensive"; "violent"; "sexual"; "drugs"; "weapons"
]%string.

(** The members of the class [[+\-*/=<>∫∑∏√∞π∂∇±×÷≤≥≠≈∈∅∪∩]]; each is
    one code unit. *)
Definition mathSymbols : list Z := js "+-*/=<>∫∑∏√∞π∂∇±×÷≤≥≠≈∈∅∪∩".

(** [/[...]/.test(input)]: some code unit of [input] is in the class. *)
Definition testClass (class : Z -> bool) (input : jsstring) : bool :=
  existsb class input.

Definition inClass (cls : list Z) (c : Z) : bool := existsb (Z.eqb c) cls.

(** [\d], [[a-z]] under the [i] flag, and the word characters of [\b]. *)
Definition isDigit (c : Z) : bool := (48 <=? c) && (c <=? 57).
Definition isLetter (c : Z) : bool :=
  ((97 <=? c) && (c <=? 122)) || ((65 <=? c) && (c <=? 90)).
Definition isWordChar (c : Z) : bool := isLetter c || isDigit c || (c =? 95).

(** [/\b[a-z]\b/i.test(input)]: some letter stands between two word
    boundaries; [prevWord] tells whether the code unit before the
    current position is a word character. *)
Fixpoint testSingleLetter (prevWord : bool) (input : jsstring) : bool :=
  match input with
  | [] => false
  | c :: rest =>
    (negb prevWord && isLetter c
     && match rest with
        | [] => true
        | d :: _ => negb (isWordChar d)
        end)
    || testSingleLetter (isWordChar c) rest
  end.

Record Validation := {
  isValid : bool;
  reason : option jsstring
}.

Definition reasonInappropriate : jsstring :=
  js "Content appears to be non-educational or inappropriate. Please enter a mathematical problem.".

Definition reasonNotMath : jsstring :=
  js "This doesn't appear to be a mathematical problem. Please enter a question related to mathematics, such as equations, calculus, geometry, or algebra.".

(** [validateMathematicalContent(input)]. *)
Definition validateMathematicalContent (input : jsstring) : M Validation :=
  let lowercaseInput := toLowerCase input in
  let hasNonMathContent :=
    existsb (fun keyword => includes lowercaseInput keyword) nonMathKeywords in
  if hasNonMathContent then
    ret {| isValid := false; reason := Some reasonInappropriate |}
  else
    let hasMathContent :=
      existsb (fun keyword => includes lowercaseInput keyword) mathKeywords in
    let hasSymbols := testClass (inClass mathSymbols) input in
    let hasNumbers := testClass isDigit input in
    let hasVariables := testSingleLetter false input in
    if hasMathContent || hasSymbols || (hasNumbers && hasVariables) then
      ret {| isValid := true; reason := None |}
    else
      ret {| isValid := false; reason := Some reasonNotMath |}.

(* ================================================================= *)
(** ** mathAgent.ts: [MathRoutingAgent] *)

Record MathSolutionRequest := {
  req_problem : jsstring;
  req_showSteps : bool;
  req_includeExplanations : bool
}.

(** The type ['knowledge_base' | 'web_search'] of [source]. *)
Inductive SourceTag : Type := knowledge_base | web_search.

Record MathSolutionResponse := {
  res_problem : jsstring;
  res_solution : Solution;
  res_source : SourceTag;
  res_responseTime : Z;
  res_category : option jsstring;
  res_problemId : jsstring
}.

Definition similarityThreshold : num := lit_0_7.

Definition failureMessage : jsstring :=
  js "Failed to solve the mathematical problem. Please try again or rephrase your question.".

(** The branch taken when the best match exceeds the threshold. *)
Definition answerFromKnowledgeBase (request : MathSolutionRequest)
    (startTime : Z) (bestMatch : VectorSearchResult) : M MathSolutionResponse :=
  problemRecord <- createMathProblem {|
    imp_problem := req_problem request;
    imp_solution := solution bestMatch;
    imp_category := category bestMatch;
    imp_difficulty := js "intermediate";
    imp_source := js "knowledge_base" |} ;;
  createActivity {|
    ia_action := js "Solution found";
    ia_source := js "knowledge_base";
    ia_details := Some (js "Similarity: " ++ toFixed (similarity bestMatch) 2) |} ;;
  now <- Date_now ;;
  ret {| res_problem := req_problem request;
         res_solution := solution bestMatch;
         res_source := knowledge_base;
         res_responseTime := now - startTime;
         res_category := Some (category bestMatch);
         res_problemId := mp_id problemRecord |}.

(** The fallback to web search. *)
Definition answerFromWebSearch (request : MathSolutionRequest)
    (startTime : Z) : M MathSolutionResponse :=
  searchResults <- searchMathematicalContent (req_problem request) ;;
  webSolution <- generateSolutionFromSearch (req_problem request) searchResults ;;
  problemRecord <- createMathProblem {|
    imp_problem := req_problem request;
    imp_solution := webSolution;
    imp_category := js "advanced";
    imp_difficulty := js "advanced";
    imp_source := js "web_search" |} ;;
  createActivity {|
    ia_action := js "Solution found";
    ia_source := js "web_search";
    ia_details := Some (js "Sources: " ++ ofNat (length searchResults) ++ js " found") |} ;;
  now <- Date_now ;;
  ret {| res_problem := req_problem request;
         res_solution := webSolution;
         res_source := web_search;
         res_responseTime := now - startTime;
         res_category := Some (js "advanced");
         res_problemId := mp_id problemRecord |}.

(** The test [similarProblems.length > 0 &&
    similarProblems[0].similarity > this.similarityThreshold]. *)
Definition aboveThreshold (similarProblems : list VectorSearchResult) : bool :=
  match similarProblems with
  | [] => false
  | bestMatch :: _ => gtb (similarity bestMatch) similarityThreshold
  end.

(** The body of the [try] block: search, then one of the two branches. *)
Definition route (request : MathSolutionRequest) (startTime : Z)
    : M MathSolutionResponse :=
  similarProblems <- searchSimilarProblems (req_problem request) (Some 3) ;;
  match similarProblems with
  | bestMatch :: _ =>
    if aboveThreshold similarProblems
    then answerFromKnowledgeBase request startTime bestMatch
    else answerFromWebSearch request startTime
  | [] => answerFromWebSearch request startTime
  end.

(** [solveProblem(request)]. *)
Definition solveProblem (request : MathSolutionRequest) : M MathSolutionResponse :=
  startTime <- Date_now ;;
  validation <- validateMathematicalContent (req_problem request) ;;
  if negb (isValid validation) then
    throw (orElse (reason validation) (js "Invalid mathematical content") (fun r => r))
  else
    createActivity {|
      ia_action := js "Problem submitted";
      ia_source := js "user_input";
      ia_details := Some (substring0 100 (req_problem request)) |} ;;
    tryCatch (route request startTime)
      (fun error =>
         createActivity {|
           ia_action := js "Solution failed";
           ia_source := js "error";
           ia_details := Some error |} ;;
         throw failureMessage).

End Services.

Arguments Normal {A} a.
Arguments Throw {A} message.

Notation "x <- m ;; k" := (bind m (fun x => k))
  (at level 61, m at next level, right associativity).
Notation "m ;; k" := (bind m (fun _ => k))
  (at level 61, right associativity).

(* ================================================================= *)
(** ** mathAgent.ts, the version that calls the Python solver *)

(** The repository holds a second [MathRoutingAgent], which neither
    consults the guard nor the knowledge store: it hands the problem to
    an external Python process.  The outcome of that process,
    [callPythonSolver], is a parameter. *)
Module SolverAgent.

Section Agent.

Context {N : Number}.

Variable callPythonSolver : jsstring -> bool -> bool -> M Solution.

Definition categorizeProblems (problem : jsstring) : jsstring :=
  let problemLower := toLowerCase problem in
  if includes problemLower (js "derivative")
     || includes problemLower (js "differentiate")
     || includes problemLower (js "integrate")
  then js "calculus"
  else if includes problemLower (js "solve")
          || includes problemLower (js "equation")
          || includes problemLower (js "x")
  then js "algebra"
  else if includes problemLower (js "area")
          || includes problemLower (js "volume")
          || includes problemLower (js "triangle")
  then js "geometry"
  else if includes problemLower (js "sin")
          || includes problemLower (js "cos")
          || includes problemLower (js "tan")
  then js "trigonometry"
  else js "general".

Definition solveProblem (request : MathSolutionRequest) : M MathSolutionResponse :=
  startTime <- Date_now ;;
  createActivity {|
    ia_action := js "Problem submitted";
    ia_source := js "user_input";
    ia_details := Some (substring0 100 (req_problem request)) |} ;;
  tryCatch
    (solution <- callPythonSolver (req_problem request)
                   (req_showSteps request) (req_includeExplanations request) ;;
     let category := categorizeProblems (req_problem request) in
     problemRecord <- createMathProblem {|
       imp_problem := req_problem request;
       imp_solution := solution;
       imp_category := category;
       imp_difficulty := js "intermediate";
       imp_source := js "math_solver" |} ;;
     createActivity {|
       ia_action := js "Solution generated";
       ia_source := js "math_solver";
       ia_details := Some (js "Category: " ++ category) |} ;;
     now <- Date_now ;;
     ret {| res_problem := req_problem request;
            res_solution := solution;
            res_source := knowledge_base;
            res_responseTime := now - startTime;
            res_category := Some category;
            res_problemId := mp_id problemRecord |})
    (fun error =>
       createActivity {|
         ia_action := js "Solution failed";
         ia_source := js "error";
         ia_details := Some error |} ;;
       throw failureMessage).

End Agent.

End SolverAgent.

(* ================================================================= *)
(** ** A concrete environment *)

(** The world after module initialisation ([new MockVectorDB()] and
    [new MemStorage()]), over exact arithmetic, with a host whose
    identifiers are [id-0], [id-1], ... and whose clock advances by one
    millisecond per reading. *)
Module Demo.

Definition host0 : Host := {|
  uuids := fun n => js "id-" ++ ofNat n;
  uuidCalls := 0;
  clock := fun n => 1700000000000 + Z.of_nat n;
  clockCalls := 0 |}.

Definition world0 : @World Exact.number :=
  snd (@initializeSampleProblems Exact.number
         {| problems := @MockVectorDB_new Exact.number Exact.mathLib;
            storage := {| users := []; mathProblems := [];
                          feedbackEntries := []; systemActivities := [] |};
            host := host0 |}).

End Demo.

(* ================================================================= *)
(** ** storage.ts: the remaining operations of [MemStorage] *)

(** [Map.prototype.get] and [Array.from(map.values())]. *)
Fixpoint Map_get {V : Type} (key : jsstring) (m : Map V) : option V :=
  match m with
  | [] => None
  | (k, v) :: rest => if jsstring_eqb k key then Some v else Map_get key rest
  end.

Definition Map_values {V : Type} (m : Map V) : list V := map snd m.

(** Decimal rendering of an integer ([`${n}`]). *)
Definition ofInt (z : Z) : jsstring :=
  if z <? 0 then 45 :: ofNat (Z.to_nat (- z)) else ofNat (Z.to_nat z).

(** [a === b] on values that are a string or [null]. *)
Definition optString_eqb (a b : option jsstring) : bool :=
  match a, b with
  | Some x, Some y => jsstring_eqb x y
  | None, None => true
  | _, _ => false
  end.

Record InsertUser := {
  iu_username : jsstring;
  iu_password : jsstring
}.

Record InsertFeedback := {
  if_problemId : option jsstring;
  if_accuracyRating : Z;
  if_clarityRating : jsstring;
  if_comments : option jsstring;
  if_isHelpful : bool
}.

Record KnowledgeBaseStats := {
  total : nat;
  calculus : nat;
  algebra : nat;
  geometry : nat;
  statistics : nat
}.

(** The argument [feedback] of [MathRoutingAgent.submitFeedback]. *)
Record Feedback := {
  accuracyRating : Z;
  clarityRating : jsstring;
  comments : option jsstring;
  isHelpful : bool
}.

Section Storage.

Context {N : Number}.

Definition getUser (id : jsstring) : M (option User) :=
  w <- get ;; ret (Map_get id (users (storage w))).

Definition getUserByUsername (name : jsstring) : M (option User) :=
  w <- get ;;
  ret (find (fun user => jsstring_eqb (username user) name)
            (Map_values (users (storage w)))).

Definition createUser (insertUser : InsertUser) : M User :=
  id <- randomUUID ;;
  let user := {| user_id := id;
                 username := iu_username insertUser;
                 password := iu_password insertUser |} in
  w <- get ;;
  put {| problems := problems w;
         storage := {| users := Map_set id user (users (storage w));
                       mathProblems := mathProblems (storage w);
                       feedbackEntries := feedbackEntries (storage w);
                       systemActivities := systemActivities (storage w) |};
         host := host w |} ;;
  ret user.

Definition getMathProblem (id : jsstring) : M (option MathProblem) :=
  w <- get ;; ret (Map_get id (mathProblems (storage w))).

Definition getMathProblemsByCategory (category : jsstring) : M (list MathProblem) :=
  w <- get ;;
  ret (filter (fun problem => jsstring_eqb (mp_category problem) category)
              (Map_values (mathProblems (storage w)))).


Definition createFeedback (insertFeedback : InsertFeedback) : M FeedbackEntry :=
  id <- randomUUID ;;
  createdAt <- Date_now ;;
  let feedback := {|
    fb_id := id;
    fb_problemId := orElse (if_problemId insertFeedback) None Some;
    fb_accuracyRating := if_accuracyRating insertFeedback;
    fb_clarityRating := if_clarityRating insertFeedback;
    fb_comments := orElse (if_comments insertFeedback) None Some;
    fb_isHelpful := if_isHelpful insertFeedback;
    fb_createdAt := createdAt |} in
  w <- get ;;
  put {| problems := problems w;
         storage := {| users := users (storage w);
                       mathProblems := mathProblems (storage w);
                       feedbackEntries :=
                         Map_set id feedback (feedbackEntries (storage w));
                       systemActivities := systemActivities (storage w) |};
         host := host w |} ;;
  ret feedback.

Definition getFeedbackByProblemId (problemId : jsstring) : M (list FeedbackEntry) :=
  w <- get ;;
  ret (filter (fun feedback =>
                 optString_eqb (fb_problemId feedback) (Some problemId))
              (Map_values (feedbackEntries (storage w)))).

(** The comparator [(a, b) => b.createdAt!.getTime() - a.createdAt!.getTime()];
    the times are integers below 2^53. *)
Definition byCreatedAt (a b : SystemActivity) : num :=
  ofZ (act_createdAt b - act_createdAt a).

(** [getRecentActivity(limit = 10)]. *)
Definition getRecentActivity (limit : option Z) : M (list SystemActivity) :=
  let limit := match limit with Some l => l | None => 10 end in
  w <- get ;;
  let activities := sort byCreatedAt (Map_values (systemActivities (storage w))) in
  ret (slice0 limit activities).

Definition countCategory (problems : list MathProblem) (c : jsstring) : nat :=
  length (filter (fun p => jsstring_eqb (mp_category p) c) problems).

Definition getKnowledgeBaseStats : M KnowledgeBaseStats :=
  w <- get ;;
  let problems := Map_values (mathProblems (storage w)) in
  ret {| total := length problems;
         calculus := countCategory problems (js "calculus");
         algebra := countCategory problems (js "algebra");
         geometry := countCategory problems (js "geometry");
         statistics := countCategory problems (js "statistics") |}.

(* ================================================================= *)
(** ** mathAgent.ts: [submitFeedback] *)

Definition submitFeedback (problemId : jsstring) (feedback : Feedback) : M unit :=
  createFeedback {|
    if_problemId := Some problemId;
    if_accuracyRating := accuracyRating feedback;
    if_clarityRating := clarityRating feedback;
    if_comments := comments feedback;
    if_isHelpful := isHelpful feedback |} ;;
  createActivity {|
    ia_action := js "Feedback received";
    ia_source := js "user_feedback";
    ia_details := Some (js "Rating: " ++ ofInt (accuracyRating feedback)
                        ++ js "/5, Clarity: " ++ clarityRating feedback) |} ;;
  ret tt.

End Storage.

(* ================================================================= *)
(** * Vocabulary of the statements *)

(** Floats that are a zero or NaN. *)
Definition zeroOrNaN (x : float) : Prop :=
  match Prim2SF x with
  | S754_zero _ | S754_nan => True
  | _ => False
  end.

(** A float that is [+0] or [-0]. *)
Definition zeroFloat (x : float) : Prop :=
  x = PrimFloat.zero \/ x = PrimFloat.neg_zero.

(** A float that is a positive finite number: not a zero, an infinity,
    a NaN or a negative number. *)
Definition positiveFinite (x : float) : Prop :=
  match Prim2SF x with
  | S754_finite false _ _ => True
  | _ => False
  end.

(** The sum of the squares of the components as the loop of
    [calculateSimilarity] accumulates it, from the left and starting
    at 0, in the arithmetic of the number structure. *)
Definition squaredNorm {N : Number} (a : list num) : num :=
  fold_left (fun acc x => add acc (mul x x)) a (ofZ 0).


(** *** Real values of binary64 numbers

    The vocabulary of the rounding-error statements: the real value
    [m * 2^e] of a mantissa at an exponent, and where a real lies
    relative to the mantissas at an exponent. *)

Module Binary64Value.

Import SpecFloat.

Local Open Scope R_scope.

(** The real [2^e]. *)
Definition bpow (e : Z) : R := powerRZ 2 e.

(** The real [X] lies at location [l] of the cell [m, m+1) of width
    [bpow e]. *)
Definition inbetween (m e : Z) (l : location) (X : R) : Prop :=
  match l with
  | loc_Exact => X = IZR m * bpow e
  | loc_Inexact Lt => IZR m * bpow e < X < (IZR m + / 2) * bpow e
  | loc_Inexact Eq => X = (IZR m + / 2) * bpow e
  | loc_Inexact Gt => (IZR m + / 2) * bpow e < X < (IZR m + 1) * bpow e
  end.

Definition represents (mrs : shr_record) (e : Z) (X : R) : Prop :=
  inbetween (shr_m mrs) e (loc_of_shr_record mrs) X.

(** The float a mantissa [m1 <= 2^53] at an exponent [e1] stands for,
    after the carry and the overflow test of [binary_round_aux]. *)
Definition rounded (sx : bool) (m1 e1 : Z) : spec_float :=
  if (m1 =? 0)%Z then S754_zero sx
  else if (m1 =? 2 ^ 53)%Z then
    if (e1 + 1 <=? 971)%Z
    then S754_finite sx (Z.to_pos (2 ^ 52)) (e1 + 1)
    else S754_infinity sx
  else
    if (e1 <=? 971)%Z then S754_finite sx (Z.to_pos m1) e1
    else S754_infinity sx.

(** Half a unit in the last place of a number between 1 and 2, the
    relative error bound of one rounding. *)
Definition ulp53 : R := bpow (-53).

(** A float within [2^-50] of one. *)
Definition closeToOne (x : float) : Prop :=
  exists (m : positive) (e : Z),
    Prim2SF x = S754_finite false m e
    /\ Rabs (IZR (Zpos m) * bpow e - 1) <= bpow (-50).

End Binary64Value.

(** *** The content guard, in the words of its rules *)

(** [sub] occurs in [s]. *)
Definition contains (s sub : jsstring) : Prop :=
  exists pre post, s = pre ++ sub ++ post.

(** [term] (given in lower case) occurs in [input], letter case ignored. *)
Definition containsIgnoringCase (input term : jsstring) : Prop :=
  contains (toLowerCase input) term.

Definition hasDenylistTerm (input : jsstring) : Prop :=
  exists term, In term nonMathKeywords /\ containsIgnoringCase input term.

Definition hasAllowlistTerm (input : jsstring) : Prop :=
  exists term, In term mathKeywords /\ containsIgnoringCase input term.

Definition hasMathSymbol (input : jsstring) : Prop :=
  exists c, In c input /\ In c mathSymbols.

Definition hasDigit (input : jsstring) : Prop :=
  exists c, In c input /\ 48 <= c <= 57.

(** A letter that is a token of its own: no word character (letter,
    digit or underscore) touches it on either side. *)
Definition boundaryBefore (pre : jsstring) : Prop :=
  pre = [] \/ exists p c, pre = p ++ [c] /\ isWordChar c = false.

Definition boundaryAfter (post : jsstring) : Prop :=
  post = [] \/ exists c p, post = c :: p /\ isWordChar c = false.

Definition hasSingleLetterToken (input : jsstring) : Prop :=
  exists pre x post,
    input = pre ++ x :: post /\ isLetter x = true
    /\ boundaryBefore pre /\ boundaryAfter post.

Definition looksMathematical (input : jsstring) : Prop :=
  hasAllowlistTerm input \/ hasMathSymbol input
  \/ (hasDigit input /\ hasSingleLetterToken input).

(** Whether the code unit before a position is a word character, given
    the text [pre] walked so far and the state [prevWord] at its start. *)
Definition wordBefore (prevWord : bool) (pre : jsstring) : bool :=
  fold_left (fun _ c => isWordChar c) pre prevWord.

(** *** The fallback document *)

Definition sourcesOf {N : Number} (searchResults : list WebSearchResult)
    : list SourceRef :=
  map (fun r => {| src_title := ws_title r; src_url := ws_url r |}) searchResults.

Definition noSolutionStep (s : Step) : Prop :=
  title s = js "Search completed"
  /\ content s = js "No specific mathematical problem solution found".

(** The document as the specification describes it: the first step
    carries the first result's content cut to 200 code units. *)
Definition fallbackAsStated {N : Number} (searchResults : list WebSearchResult)
    (doc : Solution) : Prop :=
  match searchResults with
  | [] => exists s, steps doc = [s] /\ noSolutionStep s
  | first :: _ =>
    exists s1 s2, steps doc = [s1; s2]
      /\ content s1 = firstn 200 (ws_content first)
      /\ sources doc = Some (sourcesOf searchResults)
  end.

(** The document the code builds: the cut content is followed by an
    ellipsis of three full stops. *)
Definition fallbackAsBuilt {N : Number} (searchResults : list WebSearchResult)
    (doc : Solution) : Prop :=
  match searchResults with
  | [] => exists s, steps doc = [s] /\ noSolutionStep s
  | first :: _ =>
    exists s1 s2, steps doc = [s1; s2]
      /\ content s1 = firstn 200 (ws_content first) ++ js "..."
      /\ sources doc = Some (sourcesOf searchResults)
  end.

(** *** Ranking *)

Section RankingVocabulary.

Context {N : Number} {L : MathLib N}.

(** A comparator is consistent on a set of elements when "goes after"
    is asymmetric and its complement is transitive there (the condition
    under which ECMAScript defines the order [sort] produces). *)
Definition Consistent {A : Type} (goesAfter : A -> A -> bool) (l : list A) : Prop :=
  forall x y z, In x l -> In y l -> In z l ->
    (goesAfter x y = true -> goesAfter y x = false)
    /\ (goesAfter x y = false -> goesAfter y z = false -> goesAfter x z = false).

(** The two laws of [>] a ranking by differences relies on: the sign of
    a difference agrees with the order, and the order is asymmetric.
    Binary64 has both, NaN and the infinities included. *)
Definition OrderedDifferences : Prop :=
  (forall x y : num, gtb (sub y x) (ofZ 0) = gtb y x)
  /\ (forall x y : num, gtb x y = true -> gtb y x = false).

(** "Not greater" is transitive on the numbers [xs] (as it is on any
    numbers without a NaN among them). *)
Definition TransitiveOn (xs : list num) : Prop :=
  forall x y z, In x xs -> In y xs -> In z xs ->
    gtb x y = false -> gtb y z = false -> gtb x z = false.

(** An occurrence of [a] stands before an occurrence of [b] in [l]. *)
Fixpoint precedes {A : Type} (a b : A) (l : list A) : Prop :=
  match l with
  | [] => False
  | x :: rest => (x = a /\ In b rest) \/ precedes a b rest
  end.

(** [a] may stand before [b]: [b]'s score is not greater. *)
Definition descending (a b : VectorSearchResult) : Prop :=
  gtb (similarity b) (similarity a) = false.

(** The results scored for [query], in the order of the store. *)
Definition scored (query : jsstring) (w : World) : list VectorSearchResult :=
  map (scoreAgainst (generateMockEmbedding query)) (problems w).

(** What a search with a limit that is not negative returns: it
    completes normally and leaves the world as it was; the results are
    the first [limit] of a ranking of the scored entries that is a
    rearrangement of them in which no result's score is greater than
    that of the result before it, and in which of two entries the one
    stored first comes first unless the other's score is greater.  Where
    "not greater" is transitive on the scores, no result's score is
    greater than that of any earlier result. *)
Definition RankedByScore (query : jsstring) (limit : Z) (w : World) : Prop :=
  exists out ranked,
    searchSimilarProblems query (Some limit) w = (Normal out, w)
    /\ Z.of_nat (length out) <= limit
    /\ out = firstn (Z.to_nat limit) ranked
    /\ Permutation ranked (scored query w)
    /\ Sorted descending ranked
    /\ Sorted descending out
    /\ (forall a b, precedes a b (scored query w) -> descending a b ->
          precedes a b ranked)
    /\ (TransitiveOn (map similarity (scored query w)) ->
        StronglySorted descending ranked /\ StronglySorted descending out).

(** The entry [addProblem(problem, solution, category)] pushes. *)
Definition pushed (problem : jsstring) (solution : Solution)
    (category : jsstring) : KBEntry := {|
  kb_problem := toLowerCase problem;
  kb_solution := solution;
  kb_category := category;
  kb_embedding := generateMockEmbedding problem |}.

End RankingVocabulary.

(** *** Routing *)

Section RoutingVocabulary.

Context {N : Number} {L : MathLib N}.

(** The three results the agent asks the store for. *)
Definition topThree (request : MathSolutionRequest) (w : World)
    : list VectorSearchResult :=
  slice0 3 (sort bySimilarity (scored (req_problem request) w)).

(** The search returned something and its first score exceeds 0.7. *)
Definition confidentHit (similarProblems : list VectorSearchResult) : Prop :=
  exists bestMatch rest,
    similarProblems = bestMatch :: rest
    /\ gtb (similarity bestMatch) lit_0_7 = true.

(** The search returned nothing, or a first score that does not exceed 0.7. *)
Definition noConfidentHit (similarProblems : list VectorSearchResult) : Prop :=
  similarProblems = []
  \/ exists bestMatch rest,
       similarProblems = bestMatch :: rest
       /\ gtb (similarity bestMatch) lit_0_7 = false.

(** The response carries the solution and category of an entry of the
    store, and the problem record written for it says so. *)
Definition takenFromStore (w w' : World) (response : MathSolutionResponse) : Prop :=
  (exists e, In e (problems w)
     /\ res_solution response = kb_solution e
     /\ res_category response = Some (kb_category e))
  /\ exists record, In record (map snd (mathProblems (storage w')))
       /\ mp_id record = res_problemId response
       /\ mp_solution record = res_solution response
       /\ mp_source record = js "knowledge_base".

(** The response carries the document the fallback responder builds
    from the web results, and the problem record written for it says so. *)
Definition producedByFallback (w' : World) (response : MathSolutionResponse) : Prop :=
  fallbackAsBuilt mockResults (res_solution response)
  /\ res_category response = Some (js "advanced")
  /\ exists record, In record (map snd (mathProblems (storage w')))
       /\ mp_id record = res_problemId response
       /\ mp_solution record = res_solution response
       /\ mp_source record = js "web_search".

End RoutingVocabulary.

(** *** Further vocabulary *)

(** The 31-polynomial of the code units, over the unbounded integers. *)
Definition polynomialHash (str : jsstring) : Z :=
  fold_left (fun h c => 31 * h + c) str 0.

(** The host after [u] more identifiers and [c] more clock readings. *)
Definition advance (u c : nat) (h : Host) : Host := {|
  uuids := uuids h;
  uuidCalls := u + uuidCalls h;
  clock := clock h;
  clockCalls := c + clockCalls h |}.

(** [a] was created no earlier than [b]. *)
Definition newerFirst (a b : SystemActivity) : Prop :=
  act_createdAt b <= act_createdAt a.

Definition sameTime (a b : SystemActivity) : bool :=
  act_createdAt a =? act_createdAt b.

(** The creation time is a time value within 2^62 milliseconds of the
    epoch (those of a [Date] are within 8.64e15). *)
Definition timeValue (a : SystemActivity) : Prop :=
  - 2 ^ 62 <= act_createdAt a < 2 ^ 62.

(** A storage over binary64 in which three activities were logged, the
    first two within the same millisecond. *)
Module DemoLog.

Definition host0 : Host := {|
  uuids := fun n => js "id-" ++ ofNat n;
  uuidCalls := 0;
  clock := fun n => 1700000000000 + Z.of_nat (n / 2);
  clockCalls := 0 |}.

Definition logged (action source : jsstring) : InsertActivity := {|
  ia_action := action; ia_source := source; ia_details := None |}.

Definition world : @World Binary64.number :=
  snd ((createActivity (logged (js "Problem submitted") (js "user_input")) ;;
        createActivity (logged (js "Solution found") (js "web_search")) ;;
        createActivity (logged (js "Feedback received") (js "user_feedback")))
         {| problems := [];
            storage := {| users := []; mathProblems := [];
                          feedbackEntries := []; systemActivities := [] |};
            host := host0 |}).

End DemoLog.

(** The name under which a source tag is written to storage. *)
Definition tagName (tag : SourceTag) : jsstring :=
  match tag with
  | knowledge_base => js "knowledge_base"
  | web_search => js "web_search"
  end.

(** What either branch writes: one problem record, then one activity. *)
Definition BranchWrites {N : Number} (request : MathSolutionRequest) (w w' : World)
    (response : MathSolutionResponse) : Prop :=
  exists p a,
    mathProblems (storage w')
    = Map_set (mp_id p) p (mathProblems (storage w))
    /\ systemActivities (storage w')
       = Map_set (act_id a) a (systemActivities (storage w))
    /\ mp_id p = uuids (host w) (uuidCalls (host w))
    /\ act_id a = uuids (host w) (1 + uuidCalls (host w))
    /\ mp_problem p = req_problem request
    /\ mp_source p = tagName (res_source response)
    /\ act_action a = js "Solution found"
    /\ act_source a = tagName (res_source response).

(** A solver process that prints [solution], whatever it is asked. *)
Definition solverAnswering {N : Number} (solution : Solution)
    : jsstring -> bool -> bool -> M Solution :=
  fun _ _ _ => ret solution.

Definition fortyTwo : Solution := {|
  steps := [];
  finalAnswer := js "42";
  sources := None |}.

(** What the solver version leaves behind, whatever the input: after a
    response, a problem record for it with the source "math_solver" and
    the activity "Solution generated"; after an error, which is always
    the generic failure and only arises when the solver itself fails,
    the activity "Solution failed". *)
Definition SolverVersionOutcome {N : Number}
    (callPythonSolver : jsstring -> bool -> bool -> M Solution)
    (request : MathSolutionRequest) (w' : World)
    (outcome : completion MathSolutionResponse) : Prop :=
  match outcome with
  | Normal response =>
    res_source response = knowledge_base
    /\ (exists w1 w2,
          callPythonSolver (req_problem request) (req_showSteps request)
            (req_includeExplanations request) w1
          = (Normal (res_solution response), w2))
    /\ (exists record,
          In record (Map_values (mathProblems (storage w')))
          /\ mp_id record = res_problemId response
          /\ mp_problem record = req_problem request
          /\ mp_solution record = res_solution response
          /\ mp_source record = js "math_solver")
    /\ (exists a,
          In a (Map_values (systemActivities (storage w')))
          /\ act_action a = js "Solution generated")
  | Throw message =>
    message = failureMessage
    /\ (exists error w1 w2,
          callPythonSolver (req_problem request) (req_showSteps request)
            (req_includeExplanations request) w1
          = (Throw error, w2))
    /\ (exists a,
          In a (Map_values (systemActivities (storage w')))
          /\ act_action a = js "Solution failed")
  end.

(* ================================================================= *)
(** * Properties *)

(** ** Strings *)

Lemma js_empty : js "" = [].
Proof. reflexivity. Qed.

Lemma split_nonempty (sep : Z) (s : jsstring) : split sep s <> [].
Proof.
  destruct s as [|c rest]; simpl; [discriminate|].
  destruct (c =? sep); [discriminate|].
  destruct (split sep rest); discriminate.
Qed.

Lemma lowerUnit_idem (c : Z) : lowerUnit (lowerUnit c) = lowerUnit c.
Proof.
  unfold lowerUnit.
  destruct ((65 <=? c) && (c <=? 90)) eqn:E; [|now rewrite E].
  apply andb_true_iff in E as [H1 H2].
  apply Z.leb_le in H1, H2.
  replace (c + 32 <=? 90) with false by (symmetry; apply Z.leb_gt; lia).
  now rewrite andb_false_r.
Qed.

Lemma toLowerCase_idem (s : jsstring) :
  toLowerCase (toLowerCase s) = toLowerCase s.
Proof.
  unfold toLowerCase. rewrite map_map.
  apply map_ext. intro c. apply lowerUnit_idem.
Qed.

(** ** Embeddings *)

Section EmbeddingFacts.

Context {N : Number} {L : MathLib N}.

Lemma accumulate_length (hash index i : Z) (e : list num) :
  length (accumulate hash index i e) = length e.
Proof.
  revert i. induction e as [|x e IH]; intro i; simpl; [reflexivity|].
  now rewrite IH.
Qed.

Lemma forEachWord_length (words : list jsstring) (index : Z) (e : list num) :
  length (forEachWord words index e) = length e.
Proof.
  revert index e. induction words as [|w ws IH]; intros index e; simpl.
  - reflexivity.
  - rewrite IH. apply accumulate_length.
Qed.

Lemma generateMockEmbedding_length (text : jsstring) :
  length (generateMockEmbedding text) = 384%nat.
Proof.
  unfold generateMockEmbedding. rewrite forEachWord_length.
  apply repeat_length.
Qed.

(** One pass of the inner loop over an array filled with [z]. *)
Lemma accumulate_repeat (hash index : Z) (z : num) (n k : nat) :
  accumulate hash index (Z.of_nat k) (repeat z n)
  = map (fun i => add z (mul (sin (ofZ (hash + Z.of_nat i + index))) lit_0_1))
        (seq k n).
Proof.
  revert k. induction n as [|n IH]; intro k; simpl; [reflexivity|].
  f_equal. rewrite <- IH. f_equal. lia.
Qed.

(** The embedding depends on the text only through its lower-case form. *)
Lemma generateMockEmbedding_toLowerCase (text : jsstring) :
  generateMockEmbedding (toLowerCase text) = generateMockEmbedding text.
Proof.
  unfold generateMockEmbedding. now rewrite toLowerCase_idem.
Qed.

Lemma embedding_of_empty :
  generateMockEmbedding (js "")
  = map (fun i => add (ofZ 0) (mul (sin (ofZ (0 + Z.of_nat i + 0))) lit_0_1))
        (seq 0 384).
Proof.
  unfold generateMockEmbedding. rewrite js_empty.
  change (split 32 (toLowerCase [])) with [@nil Z].
  cbn [forEachWord]. change (simpleHash []) with 0.
  apply (accumulate_repeat 0 0 (ofZ 0) 384 0).
Qed.

(** C8, as amended.  The empty string splits into one token, the empty
    word, whose hash is 0; it is visited at index 0, so component [i] of
    the embedding is [0 + Math.sin(0 + i + 0) * 0.1].  The embedding of
    any text has 384 components, and no text has an empty token list. *)
Theorem generateMockEmbedding_empty :
  split 32 (toLowerCase (js "")) = [[]]
  /\ simpleHash [] = 0
  /\ generateMockEmbedding (js "")
     = map (fun i => add (ofZ 0) (mul (sin (ofZ (0 + Z.of_nat i + 0))) lit_0_1))
           (seq 0 384)
  /\ forall text : jsstring,
       split 32 (toLowerCase text) <> []
       /\ length (generateMockEmbedding text) = 384%nat.
Proof.
  split; [reflexivity|]. split; [reflexivity|]. split.
  - apply embedding_of_empty.
  - intro text. split.
    + apply split_nonempty.
    + apply generateMockEmbedding_length.
Qed.

End EmbeddingFacts.

(** C8, as stated, fails: over exact arithmetic the embedding of the
    empty string is not the zero vector, since its component 1 is
    [sin 1 / 10 > 0]. *)
Lemma generateMockEmbedding_empty_not_zero :
  @generateMockEmbedding Exact.number Exact.mathLib (js "")
  <> repeat (@ofZ Exact.number 0) 384.
Proof.
  intro H.
  rewrite (@embedding_of_empty Exact.number Exact.mathLib) in H.
  apply (f_equal (fun l => nth 1 l 0%R)) in H.
  cbn [seq map nth repeat] in H.
  cbn in H.
  assert (P : (0 < Rtrigo_def.sin 1)%R) by (apply sin_pos_tech; lra).
  unfold lit_0_1 in H; cbn in H. lra.
Qed.

(** ** Cosine similarity over IEEE binary64 *)

Module Binary64Facts.

Import Binary64.

Lemma mul_zero_l (x : float) : zeroOrNaN (PrimFloat.mul 0 x).
Proof.
  unfold zeroOrNaN. rewrite FloatAxioms.mul_spec.
  change (Prim2SF 0) with (S754_zero false).
  destruct (Prim2SF x); exact I.
Qed.

Lemma mul_zero_r (x : float) : zeroOrNaN (PrimFloat.mul x 0).
Proof.
  unfold zeroOrNaN. rewrite FloatAxioms.mul_spec.
  change (Prim2SF 0) with (S754_zero false).
  destruct (Prim2SF x); exact I.
Qed.

Lemma add_zeroOrNaN (x y : float) :
  zeroOrNaN x -> zeroOrNaN y -> zeroOrNaN (PrimFloat.add x y).
Proof.
  unfold zeroOrNaN. rewrite FloatAxioms.add_spec.
  destruct (Prim2SF x) as [sx| | |]; try contradiction;
    destruct (Prim2SF y) as [sy| | |]; try contradiction; intros _ _;
    try exact I.
  destruct sx, sy; exact I.
Qed.

Lemma div_zeroOrNaN (x y : float) :
  zeroOrNaN x -> zeroOrNaN y -> PrimFloat.div x y = PrimFloat.nan.
Proof.
  unfold zeroOrNaN. intros Hx Hy.
  apply FloatAxioms.Prim2SF_inj. rewrite FloatAxioms.div_spec.
  destruct (Prim2SF x) as [sx| | |]; try contradiction;
    destruct (Prim2SF y) as [sy| | |]; try contradiction; reflexivity.
Qed.

(** The loop started on a zero-or-NaN dot product and a zero first norm,
    over a first vector of zeros: the dot product stays a zero or NaN
    and the first norm stays 0. *)
Lemma similarityLoop_zero_l (e1 e2 : list float) (i : nat) (d n2 : float) :
  Forall (fun x => x = 0%float) e1 ->
  zeroOrNaN d ->
  exists d' n2',
    @similarityLoop number e1 e2 i (d, 0%float, n2) = (d', 0%float, n2')
    /\ zeroOrNaN d'.
Proof.
  intro H. revert i d n2.
  induction H as [|x e1 Hx _ IH]; intros i d n2 Hd.
  - exists d, n2. split; [reflexivity | assumption].
  - subst x. cbn [similarityLoop].
    change (@add number 0%float (@mul number 0%float 0%float)) with 0%float.
    apply IH. apply add_zeroOrNaN; [assumption | apply mul_zero_l].
Qed.

Lemma similarityLoop_zero_r (e1 e2 : list float) (i : nat) (d n1 : float) :
  Forall (fun x => x = 0%float) e2 ->
  (i + length e1 <= length e2)%nat ->
  zeroOrNaN d ->
  exists d' n1',
    @similarityLoop number e1 e2 i (d, n1, 0%float) = (d', n1', 0%float)
    /\ zeroOrNaN d'.
Proof.
  intro H. revert i d n1.
  induction e1 as [|x e1 IH]; intros i d n1 Hlen Hd.
  - exists d, n1. split; [reflexivity | assumption].
  - cbn [similarityLoop]. cbn [length] in Hlen.
    assert (E : @at_ number e2 i = 0%float).
    { unfold at_. change (@num number) with float.
      destruct (nth_error e2 i) as [y|] eqn:Ey.
      - rewrite Forall_forall in H. apply H. exact (nth_error_In e2 i Ey).
      - apply nth_error_None in Ey. lia. }
    rewrite E.
    change (@add number 0%float (@mul number 0%float 0%float)) with 0%float.
    apply IH; [lia|]. apply add_zeroOrNaN; [assumption | apply mul_zero_r].
Qed.

(** X4.  Whenever one of two vectors of equal length is all zero, the
    quotient is 0/0 (or has a NaN operand): the result is NaN. *)
Lemma calculateSimilarity_zero_norm (e1 e2 : list float) :
  length e1 = length e2 ->
  Forall (fun x => x = 0%float) e1 \/ Forall (fun x => x = 0%float) e2 ->
  @calculateSimilarity number e1 e2 = PrimFloat.nan.
Proof.
  intros Hlen [H|H]; unfold calculateSimilarity.
  - destruct (similarityLoop_zero_l e1 e2 0 0%float 0%float H I)
      as (d & n2 & E & Hd).
    change (@ofZ number 0) with 0%float.
    change (@num number) with float in *. rewrite E.
    apply div_zeroOrNaN; [assumption|].
    change (@sqrt number 0%float) with 0%float. apply mul_zero_l.
  - destruct (similarityLoop_zero_r e1 e2 0 0%float 0%float H) as (d & n1 & E & Hd);
      [cbn [Nat.add]; rewrite Hlen; apply Nat.le_refl | exact I |].
    change (@ofZ number 0) with 0%float.
    change (@num number) with float in *. rewrite E.
    apply div_zeroOrNaN; [assumption|].
    change (@sqrt number 0%float) with 0%float. apply mul_zero_r.
Qed.

Lemma zeroFloat_cases (x : float) :
  zeroFloat x -> Prim2SF x = S754_zero false \/ Prim2SF x = S754_zero true.
Proof. intros [->| ->]; [left | right]; reflexivity. Qed.

Lemma mul_zeroFloat_l (x y : float) : zeroFloat x -> zeroOrNaN (PrimFloat.mul x y).
Proof.
  intro H. unfold zeroOrNaN. rewrite FloatAxioms.mul_spec.
  destruct (zeroFloat_cases x H) as [-> | ->]; destruct (Prim2SF y); exact I.
Qed.

Lemma mul_zeroFloat_r (x y : float) : zeroFloat y -> zeroOrNaN (PrimFloat.mul x y).
Proof.
  intro H. unfold zeroOrNaN. rewrite FloatAxioms.mul_spec.
  destruct (zeroFloat_cases y H) as [-> | ->]; destruct (Prim2SF x); exact I.
Qed.

Lemma add_square_zeroFloat (x : float) :
  zeroFloat x -> PrimFloat.add 0 (PrimFloat.mul x x) = 0%float.
Proof. intros [->| ->]; reflexivity. Qed.

(** The loop over a first vector of zeros of either sign: the dot
    product stays a zero or NaN and the first squared norm stays [+0]. *)
Lemma similarityLoop_zeros_l (e1 e2 : list float) (i : nat) (d n2 : float) :
  Forall zeroFloat e1 ->
  zeroOrNaN d ->
  exists d' n2',
    @similarityLoop number e1 e2 i (d, 0%float, n2) = (d', 0%float, n2')
    /\ zeroOrNaN d'.
Proof.
  intro H. revert i d n2.
  induction H as [|x e1 Hx _ IH]; intros i d n2 Hd.
  - exists d, n2. split; [reflexivity | assumption].
  - cbn [similarityLoop].
    change (@add number 0%float (@mul number x x))
      with (PrimFloat.add 0 (PrimFloat.mul x x)).
    rewrite (add_square_zeroFloat x Hx).
    apply IH. apply add_zeroOrNaN; [assumption | now apply mul_zeroFloat_l].
Qed.

Lemma similarityLoop_zeros_r (e1 e2 : list float) (i : nat) (d n1 : float) :
  Forall zeroFloat e2 ->
  (i + length e1 <= length e2)%nat ->
  zeroOrNaN d ->
  exists d' n1',
    @similarityLoop number e1 e2 i (d, n1, 0%float) = (d', n1', 0%float)
    /\ zeroOrNaN d'.
Proof.
  intro H. revert i d n1.
  induction e1 as [|x e1 IH]; intros i d n1 Hlen Hd.
  - exists d, n1. split; [reflexivity | assumption].
  - cbn [similarityLoop]. cbn [length] in Hlen.
    assert (E : zeroFloat (@at_ number e2 i)).
    { unfold at_. change (@num number) with float.
      destruct (nth_error e2 i) as [y|] eqn:Ey.
      - rewrite Forall_forall in H. apply H. exact (nth_error_In e2 i Ey).
      - apply nth_error_None in Ey. lia. }
    change (@add number 0%float (@mul number (@at_ number e2 i) (@at_ number e2 i)))
      with (PrimFloat.add 0 (PrimFloat.mul (@at_ number e2 i) (@at_ number e2 i))).
    rewrite (add_square_zeroFloat _ E).
    apply IH; [lia|]. apply add_zeroOrNaN; [assumption | now apply mul_zeroFloat_r].
Qed.

Lemma nan_is_no_score :
  PrimFloat.eqb PrimFloat.nan 0 = false
  /\ @gtb number PrimFloat.nan lit_0_7 = false.
Proof. vm_compute. split; reflexivity. Qed.

(** C4.  The code has no guard for a zero norm.  For every pair of
    embeddings of equal length, one of which consists of zeros ([+0] or
    [-0]) only, [calculateSimilarity] returns NaN, the quotient 0/0: it
    is not the number 0, and it does not exceed the threshold 0.7. *)
Theorem calculateSimilarity_unguarded (e1 e2 : list float) :
  length e1 = length e2 ->
  Forall zeroFloat e1 \/ Forall zeroFloat e2 ->
  @calculateSimilarity number e1 e2 = PrimFloat.nan
  /\ PrimFloat.eqb (@calculateSimilarity number e1 e2) 0 = false
  /\ @gtb number (@calculateSimilarity number e1 e2) lit_0_7 = false.
Proof.
  intros Hlen H.
  assert (E : @calculateSimilarity number e1 e2 = PrimFloat.nan).
  { destruct H as [H|H]; unfold calculateSimilarity.
    - destruct (similarityLoop_zeros_l e1 e2 0 0%float 0%float H I)
        as (d & n2 & E & Hd).
      change (@ofZ number 0) with 0%float.
      change (@num number) with float in *. rewrite E.
      apply div_zeroOrNaN; [assumption|].
      change (@sqrt number 0%float) with 0%float. apply mul_zero_l.
    - destruct (similarityLoop_zeros_r e1 e2 0 0%float 0%float H)
        as (d & n1 & E & Hd);
        [cbn [Nat.add]; rewrite Hlen; apply Nat.le_refl | exact I |].
      change (@ofZ number 0) with 0%float.
      change (@num number) with float in *. rewrite E.
      apply div_zeroOrNaN; [assumption|].
      change (@sqrt number 0%float) with 0%float. apply mul_zero_r. }
  rewrite E. split; [reflexivity | exact nan_is_no_score].
Qed.

Lemma calculateSimilarity_unguarded_witness :
  length (repeat 0%float 384) = length (repeat 1%float 384)
  /\ @calculateSimilarity number (repeat 0%float 384) (repeat 1%float 384)
     = PrimFloat.nan.
Proof.
  assert (Hlen : length (repeat 0%float 384) = length (repeat 1%float 384))
    by (rewrite !repeat_length; reflexivity).
  split; [exact Hlen|].
  apply (calculateSimilarity_unguarded (repeat 0%float 384) (repeat 1%float 384) Hlen).
  left. apply Forall_forall. intros x Hx.
  apply repeat_spec in Hx. left. exact Hx.
Defined.

(** C4 as stated fails: with [embedding1] the 384 zeros and
    [embedding2] the 384 ones (in either order, or both zero) the value
    returned is NaN, not the number 0. *)
Lemma calculateSimilarity_zero_vector_is_NaN :
  let zeros := repeat 0%float 384 in
  let ones := repeat 1%float 384 in
  @calculateSimilarity number zeros ones = PrimFloat.nan
  /\ @calculateSimilarity number ones zeros = PrimFloat.nan
  /\ @calculateSimilarity number zeros zeros = PrimFloat.nan
  /\ PrimFloat.eqb (@calculateSimilarity number zeros ones) 0 = false
  /\ @gtb number (@calculateSimilarity number zeros ones) lit_0_7 = false.
Proof.
  vm_compute. repeat split; reflexivity.
Qed.

End Binary64Facts.

(** ** Order and subtraction in IEEE binary64

    The sign of a difference of two binary64 numbers agrees with their
    order, and the conversion of an integer keeps its sign.  The proofs
    go through the specification of the primitive floats: a positive
    mantissa at an exponent not below the smallest one is never rounded
    to a zero, so the sign of a rounded value is that of the exact one. *)

Module Binary64Order.

Import SpecFloat.

Local Open Scope Z_scope.

(** The sign test [0 < x] on specification floats. *)
Definition positive_sf (x : spec_float) : bool :=
  match x with
  | S754_finite false _ _ | S754_infinity false => true
  | _ => false
  end.

Lemma SFltb_zero (x : spec_float) :
  SFltb (S754_zero false) x = positive_sf x.
Proof. destruct x as [[|]|[|]| |[|] m e]; reflexivity. Qed.

Lemma digits2_pos_bounds (p : positive) :
  2 ^ (Zpos (digits2_pos p) - 1) <= Zpos p < 2 ^ Zpos (digits2_pos p).
Proof.
  induction p as [p IH|p IH|]; cbn [digits2_pos].
  - rewrite Pos2Z.inj_succ.
    replace (Z.succ (Zpos (digits2_pos p)) - 1) with (Z.succ (Zpos (digits2_pos p) - 1)) by lia.
    rewrite !Z.pow_succ_r by lia. lia.
  - rewrite Pos2Z.inj_succ.
    replace (Z.succ (Zpos (digits2_pos p)) - 1) with (Z.succ (Zpos (digits2_pos p) - 1)) by lia.
    rewrite !Z.pow_succ_r by lia. lia.
  - cbn. lia.
Qed.

Lemma iter_xO_value (m d : positive) :
  Zpos (Pos.iter xO m d) = Zpos m * 2 ^ Zpos d.
Proof.
  induction d as [|d IH] using Pos.peano_ind.
  - cbn. lia.
  - rewrite Pos.iter_succ, Pos2Z.inj_succ, Z.pow_succ_r by lia.
    rewrite Pos2Z.inj_xO, IH. lia.
Qed.

Lemma shr_1_mantissa (mrs : shr_record) :
  0 <= shr_m mrs -> shr_m (shr_1 mrs) = shr_m mrs / 2.
Proof.
  destruct mrs as [m r s]. cbn [shr_m shr_1]. intro H.
  destruct m as [|[p|p|]|p]; cbn [shr_m]; try lia; try reflexivity.
  - apply Z.div_unique with (r := 1); lia.
  - apply Z.div_unique with (r := 0); lia.
Qed.

Lemma pow2_xI (p : positive) : 2 ^ Zpos p~1 = 2 * (2 ^ Zpos p * 2 ^ Zpos p).
Proof.
  rewrite (Pos2Z.inj_xI p).
  replace (2 * Zpos p + 1) with (Zpos p + Zpos p + 1) by lia.
  rewrite Z.pow_add_r, Z.pow_add_r by lia. change (2 ^ 1) with 2. lia.
Qed.

Lemma pow2_xO (p : positive) : 2 ^ Zpos p~0 = 2 ^ Zpos p * 2 ^ Zpos p.
Proof.
  rewrite (Pos2Z.inj_xO p).
  replace (2 * Zpos p) with (Zpos p + Zpos p) by lia.
  rewrite Z.pow_add_r by lia. reflexivity.
Qed.

Lemma iter_shr_1_mantissa (p : positive) (mrs : shr_record) :
  0 <= shr_m mrs ->
  shr_m (iter_pos shr_1 p mrs) = shr_m mrs / 2 ^ Zpos p.
Proof.
  revert mrs. induction p as [p IH|p IH|]; intros mrs H; cbn [iter_pos].
  - assert (P : 0 < 2 ^ Zpos p) by (apply Z.pow_pos_nonneg; lia).
    assert (H1 : 0 <= shr_m (shr_1 mrs)).
    { rewrite shr_1_mantissa by assumption. apply Z.div_pos; lia. }
    assert (H2 : 0 <= shr_m (iter_pos shr_1 p (shr_1 mrs))).
    { rewrite IH by assumption. apply Z.div_pos; lia. }
    rewrite IH, IH, shr_1_mantissa by assumption.
    rewrite !Z.div_div by lia. rewrite pow2_xI. f_equal; lia.
  - assert (P : 0 < 2 ^ Zpos p) by (apply Z.pow_pos_nonneg; lia).
    assert (H2 : 0 <= shr_m (iter_pos shr_1 p mrs)).
    { rewrite IH by assumption. apply Z.div_pos; lia. }
    rewrite IH, IH by assumption.
    rewrite !Z.div_div by lia. rewrite pow2_xO. reflexivity.
  - rewrite shr_1_mantissa by assumption. reflexivity.
Qed.

Local Abbreviation fexp64 := (fexp prec emax).
Local Abbreviation valid64 := (SpecFloat.valid_binary prec emax).

Lemma fexp64_eq (e : Z) : fexp64 e = Z.max (e - 53) (-1074).
Proof. reflexivity. Qed.

Lemma shr_record_of_loc_m (m : Z) (l : location) :
  shr_m (shr_record_of_loc m l) = m.
Proof. destruct l as [|[| |]]; reflexivity. Qed.

Lemma Zdigits2_bounds (m : Z) :
  0 < m -> 0 < Zdigits2 m /\ 2 ^ (Zdigits2 m - 1) <= m.
Proof.
  destruct m as [|p|p]; try lia. intros _. cbn [Zdigits2].
  split; [lia | apply digits2_pos_bounds].
Qed.

(** Shifting a positive mantissa to its format exponent keeps it
    positive, provided the exponent is not below the smallest one. *)
Lemma shr_fexp_positive (m e : Z) (l : location) :
  0 < m -> -1074 <= e ->
  0 < shr_m (fst (shr_fexp prec emax m e l))
  /\ -1074 <= snd (shr_fexp prec emax m e l).
Proof.
  intros Hm He. unfold shr_fexp, shr. rewrite fexp64_eq.
  destruct (Zdigits2_bounds m Hm) as [Hd Hlow].
  destruct (Z.max (Zdigits2 m + e - 53) (-1074) - e) as [|p|p] eqn:En;
    cbn [fst snd]; rewrite ?shr_record_of_loc_m; try (split; lia).
  split; [|lia].
  rewrite iter_shr_1_mantissa by (rewrite shr_record_of_loc_m; lia).
  rewrite shr_record_of_loc_m.
  assert (Hp : Zpos p <= Zdigits2 m - 1) by lia.
  assert (P : 0 < 2 ^ Zpos p) by (apply Z.pow_pos_nonneg; lia).
  assert (Q : 2 ^ Zpos p <= 2 ^ (Zdigits2 m - 1))
    by (apply Z.pow_le_mono_r; lia).
  apply Z.div_str_pos. lia.
Qed.

Lemma round_nearest_even_positive (m : Z) (l : location) :
  0 < m -> 0 < round_nearest_even m l.
Proof.
  intro H. destruct l as [|[| |]]; cbn [round_nearest_even]; try lia.
  destruct (Z.even m); lia.
Qed.

(** Rounding a positive mantissa never gives a zero or a NaN: the
    result has the sign asked for. *)
Lemma binary_round_aux_sign (sx : bool) (mx ex : Z) (lx : location) :
  0 < mx -> -1074 <= ex ->
  positive_sf (binary_round_aux prec emax sx mx ex lx) = negb sx.
Proof.
  intros Hm He. unfold binary_round_aux.
  pose proof (shr_fexp_positive mx ex lx Hm He) as [H1 H1'].
  destruct (shr_fexp prec emax mx ex lx) as [mrs' e']. cbn [fst snd] in H1, H1'.
  pose proof (round_nearest_even_positive (shr_m mrs') (loc_of_shr_record mrs') H1)
    as H2.
  pose proof (shr_fexp_positive _ e' loc_Exact H2 H1') as [H3 _].
  destruct (shr_fexp prec emax
              (round_nearest_even (shr_m mrs') (loc_of_shr_record mrs')) e' loc_Exact)
    as [mrs'' e'']. cbn [fst] in H3.
  destruct (shr_m mrs'') as [|m|m]; try lia.
  destruct (e'' <=? emax - prec); destruct sx; reflexivity.
Qed.

Lemma shl_align_exponent (mx : positive) (ex ex' : Z) :
  snd (shl_align mx ex ex') = Z.min ex ex'.
Proof.
  unfold shl_align. destruct (ex' - ex) as [|d|d] eqn:E; cbn [snd]; lia.
Qed.

Lemma shl_align_value (mx : positive) (ex ex' : Z) :
  ex' <= ex ->
  Zpos (fst (shl_align mx ex ex')) = Zpos mx * 2 ^ (ex - ex').
Proof.
  intro H. unfold shl_align. destruct (ex' - ex) as [|d|d] eqn:E; cbn [fst]; try lia.
  - replace (ex - ex') with 0 by lia. cbn. lia.
  - rewrite iter_xO_value. f_equal. f_equal. lia.
Qed.

Lemma binary_round_sign (sx : bool) (mx : positive) (ex : Z) :
  -1074 <= ex ->
  positive_sf (binary_round prec emax sx mx ex) = negb sx.
Proof.
  intro He. unfold binary_round.
  pose proof (shl_align_exponent mx ex (fexp64 (Zpos (digits2_pos mx) + ex))) as E.
  destruct (shl_align mx ex (fexp64 (Zpos (digits2_pos mx) + ex))) as [mz ez].
  cbn [snd] in E. rewrite fexp64_eq in E.
  apply binary_round_aux_sign; lia.
Qed.

(** The sign of a normalised integer is the integer's. *)
Lemma binary_normalize_sign (m e : Z) :
  -1074 <= e ->
  positive_sf (binary_normalize prec emax m e false) = (0 <? m).
Proof.
  intro He. destruct m as [|p|p]; cbn [binary_normalize];
    [reflexivity | |]; rewrite binary_round_sign by assumption; reflexivity.
Qed.

(** What validity says of a finite number: the exponent is at least
    the smallest one, the mantissa has at most 53 bits, and exactly 53
    above the smallest exponent. *)
Lemma valid_finite (s : bool) (m : positive) (e : Z) :
  valid64 (S754_finite s m e) = true ->
  -1074 <= e /\ Zpos m < 2 * 2 ^ 52 /\ (-1074 < e -> 2 ^ 52 <= Zpos m).
Proof.
  cbn [SpecFloat.valid_binary]. unfold bounded, canonical_mantissa.
  intro H. apply andb_true_iff in H as [H _]. apply Z.eqb_eq in H.
  rewrite fexp64_eq in H.
  pose proof (digits2_pos_bounds m) as [Hlow Hhigh].
  assert (Hd : Zpos (digits2_pos m) <= 53) by lia.
  split; [lia|]. split.
  - assert (2 ^ Zpos (digits2_pos m) <= 2 ^ 53) by (apply Z.pow_le_mono_r; lia).
    change (2 ^ 53) with (2 * 2 ^ 52) in *. lia.
  - intro He. assert (Zpos (digits2_pos m) = 53) as E by lia.
    rewrite E in Hlow. exact Hlow.
Qed.

Lemma pow2_ge_2 (n : Z) : 0 < n -> 2 <= 2 ^ n.
Proof.
  intro H. change 2 with (2 ^ 1) at 1. apply Z.pow_le_mono_r; lia.
Qed.

(** On valid finite numbers, [x < y] is the sign of the difference of
    the mantissas aligned to the smaller exponent. *)
Lemma SFltb_aligned (sx : bool) (mx : positive) (ex : Z)
    (sy : bool) (my : positive) (ey : Z) :
  valid64 (S754_finite sx mx ex) = true ->
  valid64 (S754_finite sy my ey) = true ->
  let ez := Z.min ey ex in
  SFltb (S754_finite sx mx ex) (S754_finite sy my ey)
  = (0 <? cond_Zopp sy (Zpos (fst (shl_align my ey ez)))
          - cond_Zopp sx (Zpos (fst (shl_align mx ex ez)))).
Proof.
  intros Vx Vy ez. subst ez.
  apply valid_finite in Vx as (Ex & Hx & Nx).
  apply valid_finite in Vy as (Ey & Hy & Ny).
  rewrite !shl_align_value by lia.
  unfold SFltb, SFcompare.
  assert (P : 0 < 2 ^ 52) by (apply Z.pow_pos_nonneg; lia).
  destruct (Z.compare_spec ex ey) as [E|E|E].
  - subst ey. rewrite Z.min_id, Z.sub_diag, !Z.mul_1_r.
    change (Pos.compare_cont Eq mx my) with (Pos.compare mx my).
    destruct (Pos.compare_spec mx my) as [C|C|C];
      destruct sx, sy; cbn [cond_Zopp CompOpp]; symmetry;
      first [apply Z.ltb_lt | apply Z.ltb_ge]; lia.
  - rewrite Z.min_r by lia. rewrite Z.sub_diag, Z.mul_1_r.
    pose proof (pow2_ge_2 (ey - ex) ltac:(lia)) as K.
    specialize (Ny ltac:(lia)).
    destruct sx, sy; cbn [cond_Zopp]; symmetry;
      first [apply Z.ltb_lt | apply Z.ltb_ge]; nia.
  - rewrite Z.min_l by lia. rewrite Z.sub_diag, Z.mul_1_r.
    pose proof (pow2_ge_2 (ex - ey) ltac:(lia)) as K.
    specialize (Nx ltac:(lia)).
    destruct sx, sy; cbn [cond_Zopp]; symmetry;
      first [apply Z.ltb_lt | apply Z.ltb_ge]; nia.
Qed.

(** The sign of a difference of binary64 numbers agrees with their
    order: [0 < y - x] exactly when [x < y] (both fail on a NaN). *)
Lemma SFsub_sign (x y : spec_float) :
  valid64 x = true -> valid64 y = true ->
  SFltb (S754_zero false) (SF64sub y x) = SFltb x y.
Proof.
  intros Vx Vy. rewrite SFltb_zero.
  destruct x as [sx|sx| |sx mx ex], y as [sy|sy| |sy my ey];
    try reflexivity;
    try (destruct sx; reflexivity);
    try (destruct sy; reflexivity);
    try (destruct sx, sy; reflexivity).
  rewrite (SFltb_aligned _ _ _ _ _ _ Vx Vy).
  unfold SF64sub, SFsub.
  apply valid_finite in Vx as (Ex & _). apply valid_finite in Vy as (Ey & _).
  apply binary_normalize_sign. lia.
Qed.

Lemma SFltb_asym (x y : spec_float) :
  valid64 x = true -> valid64 y = true ->
  SFltb x y = true -> SFltb y x = false.
Proof.
  intros Vx Vy.
  destruct x as [sx|sx| |sx mx ex], y as [sy|sy| |sy my ey];
    try (cbn; congruence);
    try (destruct sx; cbn; congruence);
    try (destruct sy; cbn; congruence);
    try (destruct sx, sy; cbn; congruence).
  rewrite (SFltb_aligned _ _ _ _ _ _ Vx Vy), (SFltb_aligned _ _ _ _ _ _ Vy Vx).
  rewrite (Z.min_comm ex ey).
  intro H. apply Z.ltb_lt in H. apply Z.ltb_ge. lia.
Qed.

Lemma Prim2SF_zero : Prim2SF (Binary64.fromZ 0) = S754_zero false.
Proof. reflexivity. Qed.

(** [0 < y - x] exactly when [x < y]. *)
Lemma ltb_sub_sign (x y : float) :
  PrimFloat.ltb (Binary64.fromZ 0) (PrimFloat.sub y x) = PrimFloat.ltb x y.
Proof.
  rewrite !FloatAxioms.ltb_spec, FloatAxioms.sub_spec, Prim2SF_zero.
  apply SFsub_sign; apply Prim2SF_valid.
Qed.

Lemma ltb_asym (x y : float) :
  PrimFloat.ltb x y = true -> PrimFloat.ltb y x = false.
Proof.
  rewrite !FloatAxioms.ltb_spec. apply SFltb_asym; apply Prim2SF_valid.
Qed.

(** The sign of an integer survives the conversion, below 2^63. *)
Lemma fromZ_sign (z : Z) :
  - 2 ^ 63 < z < 2 ^ 63 ->
  PrimFloat.ltb (Binary64.fromZ 0) (Binary64.fromZ z) = (0 <? z).
Proof.
  intro H. rewrite FloatAxioms.ltb_spec, Prim2SF_zero, SFltb_zero.
  unfold Binary64.fromZ. destruct (z <? 0) eqn:E.
  - apply Z.ltb_lt in E.
    rewrite FloatAxioms.opp_spec, FloatAxioms.of_uint63_spec, Uint63.of_Z_spec.
    rewrite Z.mod_small by (change wB with (2 ^ 63); lia).
    pose proof (binary_normalize_sign (- z) 0 ltac:(lia)) as S.
    replace (0 <? - z) with true in S by (symmetry; apply Z.ltb_lt; lia).
    replace (0 <? z) with false by (symmetry; apply Z.ltb_ge; lia).
    destruct (binary_normalize prec emax (- z) 0 false) as [[|]|[|]| |[|] m e];
      try discriminate; reflexivity.
  - apply Z.ltb_ge in E.
    rewrite FloatAxioms.of_uint63_spec, Uint63.of_Z_spec.
    rewrite Z.mod_small by (change wB with (2 ^ 63); lia).
    apply binary_normalize_sign. lia.
Qed.

End Binary64Order.

(** ** Rounding errors in IEEE binary64

    What [sqrt], [*] and [/] of the primitive floats return, as real
    numbers: each operation is the exact result rounded to nearest, so
    it is within half a unit in the last place of it.  The proofs go
    through the specification of the primitive floats, as the order
    facts above. *)

Module Binary64Rounding.

Import SpecFloat.
Import Binary64Value.
Import Binary64Order.

Local Open Scope R_scope.

Local Abbreviation fexp64 := (fexp prec emax).
Local Abbreviation valid64 := (SpecFloat.valid_binary prec emax).

Lemma bpow_pos (e : Z) : 0 < bpow e.
Proof. apply powerRZ_lt. lra. Qed.

Lemma bpow_add (a b : Z) : bpow (a + b) = bpow a * bpow b.
Proof. apply powerRZ_add. lra. Qed.

Lemma bpow_0 : bpow 0 = 1.
Proof. reflexivity. Qed.

Lemma bpow_1 : bpow 1 = 2.
Proof. unfold bpow, powerRZ. simpl. lra. Qed.

Lemma bpow_succ (e : Z) : bpow (e + 1) = 2 * bpow e.
Proof. rewrite bpow_add, bpow_1. lra. Qed.

Lemma bpow_IZR (k : Z) : (0 <= k)%Z -> bpow k = IZR (2 ^ k).
Proof.
  intro H. unfold bpow. destruct k as [|p|p]; [reflexivity| |lia].
  cbn [powerRZ]. rewrite pow_IZR. f_equal.
  rewrite positive_nat_Z. reflexivity.
Qed.

Lemma bpow_le (a b : Z) : (a <= b)%Z -> bpow a <= bpow b.
Proof.
  intro H. replace b with (a + (b - a))%Z by lia. rewrite bpow_add.
  rewrite (bpow_IZR (b - a)) by lia.
  assert (1 <= IZR (2 ^ (b - a))).
  { apply IZR_le. assert (0 < 2 ^ (b - a))%Z by (apply Z.pow_pos_nonneg; lia). lia. }
  pose proof (bpow_pos a). nra.
Qed.

Lemma bpow_lt (a b : Z) : (a < b)%Z -> bpow a < bpow b.
Proof.
  intro H. replace b with (a + 1 + (b - a - 1))%Z by lia.
  rewrite bpow_add, bpow_succ.
  pose proof (bpow_le 0 (b - a - 1) ltac:(lia)) as L. rewrite bpow_0 in L.
  pose proof (bpow_pos a). nra.
Qed.

Lemma shr_1_represents (mrs : shr_record) (e : Z) (X : R) :
  (0 <= shr_m mrs)%Z ->
  represents mrs e X -> represents (shr_1 mrs) (e + 1) X.
Proof.
  destruct mrs as [m r s]. unfold represents. cbn [shr_m]. intros Hm.
  pose proof (bpow_pos e) as B.
  destruct m as [|[p|p|]|p]; try lia;
    destruct r, s; cbn [shr_1 shr_m loc_of_shr_record orb inbetween];
    rewrite ?bpow_succ, ?(Pos2Z.inj_xI p), ?(Pos2Z.inj_xO p), ?plus_IZR, ?mult_IZR;
    intros H; nra.
Qed.


Lemma iter_pos_invariant {A : Type} (f : A -> A) (I : Z -> A -> Prop) :
  (forall n x, I n x -> I (n + 1)%Z (f x)) ->
  forall p n x, I n x -> I (n + Zpos p)%Z (iter_pos f p x).
Proof.
  intros step. induction p as [p IH|p IH|]; intros n x H; cbn [iter_pos].
  - replace (n + Zpos p~1)%Z with (n + 1 + Zpos p + Zpos p)%Z by lia.
    apply IH, IH, step, H.
  - replace (n + Zpos p~0)%Z with (n + Zpos p + Zpos p)%Z by lia.
    apply IH, IH, H.
  - apply step, H.
Qed.

Lemma shr_represents (mrs : shr_record) (e n : Z) (X : R) :
  (0 <= shr_m mrs)%Z -> represents mrs e X ->
  represents (fst (shr mrs e n)) (snd (shr mrs e n)) X
  /\ snd (shr mrs e n) = (e + Z.max n 0)%Z
  /\ shr_m (fst (shr mrs e n)) = (shr_m mrs / 2 ^ Z.max n 0)%Z.
Proof.
  intros Hm H. unfold shr. destruct n as [|p|p]; cbn [fst snd].
  - rewrite Z.max_id, Z.add_0_r. cbn. rewrite Z.div_1_r. auto.
  - replace (Z.max (Zpos p) 0) with (Zpos p) by lia.
    split; [|split; [reflexivity | now apply iter_shr_1_mantissa]].
    assert (Inv : (0 <= shr_m (iter_pos shr_1 p mrs))%Z
                  /\ represents (iter_pos shr_1 p mrs) (e + (0 + Zpos p)) X).
    { apply (iter_pos_invariant shr_1
               (fun n x => (0 <= shr_m x)%Z /\ represents x (e + n) X)).
      - intros k x [Hx Rx]. split.
        + rewrite shr_1_mantissa by assumption. apply Z.div_pos; lia.
        + replace (e + (k + 1))%Z with (e + k + 1)%Z by lia.
          now apply shr_1_represents.
      - replace (e + 0)%Z with e by lia. now split. }
    destruct Inv as [_ Inv]. rewrite Z.add_0_l in Inv. exact Inv.
  - replace (Z.max (Zneg p) 0) with 0%Z by lia.
    rewrite Z.add_0_r. cbn. rewrite Z.div_1_r. auto.
Qed.

Lemma loc_of_shr_record_of_loc (m : Z) (l : location) :
  loc_of_shr_record (shr_record_of_loc m l) = l.
Proof. destruct l as [|[| |]]; reflexivity. Qed.

Lemma Zdigits2_upper (m : Z) : (0 <= m)%Z -> (m < 2 ^ Zdigits2 m)%Z.
Proof.
  destruct m as [|p|p]; try lia; intros _; cbn [Zdigits2].
  - cbn. lia.
  - apply digits2_pos_bounds.
Qed.

Lemma Zdigits2_le (m k : Z) : (0 < m < 2 ^ k)%Z -> (Zdigits2 m <= k)%Z.
Proof.
  intros [Hm Hk]. destruct (Zdigits2_bounds m Hm) as [Hd Hlow].
  destruct (Z_le_gt_dec (Zdigits2 m) k) as [L|G]; [exact L|exfalso].
  assert (0 <= k)%Z.
  { destruct (Z_lt_le_dec k 0) as [N|N]; [|exact N].
    rewrite Z.pow_neg_r in Hk by exact N. lia. }
  assert (2 ^ k <= 2 ^ (Zdigits2 m - 1))%Z by (apply Z.pow_le_mono_r; lia).
  lia.
Qed.

(** What the first shift of [binary_round_aux] does: the mantissa
    arrives at the exponent [e1] with less than 53 bits, still
    representing [X]. *)
Lemma shr_fexp_spec (m e : Z) (l : location) (X : R) :
  (0 < m)%Z -> inbetween m e l X ->
  let e1 := Z.max e (fexp64 (Zdigits2 m + e)) in
  let m' := (m / 2 ^ (e1 - e))%Z in
  snd (shr_fexp prec emax m e l) = e1
  /\ shr_m (fst (shr_fexp prec emax m e l)) = m'
  /\ represents (fst (shr_fexp prec emax m e l)) e1 X
  /\ (0 <= m' < 2 ^ 53)%Z
  /\ (-1074 <= e1)%Z.
Proof.
  intros Hm HX e1 m'. subst e1 m'. unfold shr_fexp.
  pose proof (shr_represents (shr_record_of_loc m l) e
                (fexp64 (Zdigits2 m + e) - e) X) as S.
  rewrite shr_record_of_loc_m in S. unfold represents in S at 1.
  rewrite shr_record_of_loc_m, loc_of_shr_record_of_loc in S.
  destruct (S ltac:(lia) HX) as (R1 & E1 & M1).
  rewrite fexp64_eq in *.
  assert (Ee : (e + Z.max (Z.max (Zdigits2 m + e - 53) (-1074) - e) 0
                = Z.max e (Z.max (Zdigits2 m + e - 53) (-1074)))%Z) by lia.
  rewrite Ee in E1. rewrite E1 in R1.
  assert (Ek : (Z.max (Z.max (Zdigits2 m + e - 53) (-1074) - e) 0
                = Z.max e (Z.max (Zdigits2 m + e - 53) (-1074)) - e)%Z) by lia.
  rewrite Ek in M1.
  split; [exact E1|]. split; [exact M1|]. split; [exact R1|].
  split; [|lia].
  set (k := (Z.max e (Z.max (Zdigits2 m + e - 53) (-1074)) - e)%Z).
  assert (Hk : (0 <= k)%Z) by (subst k; lia).
  assert (P : (0 < 2 ^ k)%Z) by (apply Z.pow_pos_nonneg; lia).
  split; [apply Z.div_pos; lia|].
  apply Z.div_lt_upper_bound; [exact P|].
  pose proof (Zdigits2_upper m ltac:(lia)) as U.
  destruct (Zdigits2_bounds m Hm) as [Hd _].
  assert (2 ^ Zdigits2 m <= 2 ^ (k + 53))%Z
    by (apply Z.pow_le_mono_r; subst k; lia).
  rewrite Z.pow_add_r in H by lia. lia.
Qed.


Lemma round_nearest_even_spec (m e : Z) (l : location) (X : R) :
  inbetween m e l X ->
  (m <= round_nearest_even m l <= m + 1)%Z
  /\ Rabs (IZR (round_nearest_even m l) * bpow e - X) <= / 2 * bpow e.
Proof.
  intro H. pose proof (bpow_pos e) as B.
  destruct l as [|[| |]]; cbn [round_nearest_even inbetween] in *.
  - split; [lia|]. rewrite H, Rminus_diag, Rabs_R0. lra.
  - destruct (Z.even m); (split; [lia|]);
      rewrite ?plus_IZR; apply Rabs_le; subst X; lra.
  - split; [lia|]. apply Rabs_le. lra.
  - split; [lia|]. rewrite plus_IZR. apply Rabs_le. lra.
Qed.

Lemma shr_same (mrs : shr_record) (e n : Z) :
  (n <= 0)%Z -> shr mrs e n = (mrs, e).
Proof. intro H. unfold shr. destruct n; try reflexivity. lia. Qed.

Lemma binary_round_aux_spec (sx : bool) (m e : Z) (l : location) (X : R) :
  (0 < m)%Z -> inbetween m e l X ->
  let e1 := Z.max e (fexp64 (Zdigits2 m + e)) in
  exists m1 : Z,
    (m / 2 ^ (e1 - e) <= m1 <= m / 2 ^ (e1 - e) + 1)%Z
    /\ (0 <= m1 <= 2 ^ 53)%Z
    /\ Rabs (IZR m1 * bpow e1 - X) <= / 2 * bpow e1
    /\ (-1074 <= e1)%Z
    /\ binary_round_aux prec emax sx m e l = rounded sx m1 e1.
Proof.
  intros Hm HX e1.
  destruct (shr_fexp_spec m e l X Hm HX) as (E1 & M1 & R1 & B1 & L1).
  fold e1 in E1, M1, R1, B1, L1.
  unfold binary_round_aux.
  destruct (shr_fexp prec emax m e l) as [mrs' e'].
  cbn [fst snd] in E1, M1, R1. subst e'.
  unfold represents in R1.
  destruct (round_nearest_even_spec _ _ _ _ R1) as (N1 & N2).
  set (m1 := round_nearest_even (shr_m mrs') (loc_of_shr_record mrs')) in *.
  rewrite M1 in N1.
  exists m1. split; [exact N1|]. split; [lia|]. split; [exact N2|].
  split; [exact L1|].
  unfold rounded, shr_fexp. cbn [shr_record_of_loc]. rewrite fexp64_eq.
  destruct (Z.eqb_spec m1 0) as [Z0|NZ].
  - rewrite Z0. cbn [Zdigits2]. rewrite shr_same by lia. reflexivity.
  - destruct (Z.eqb_spec m1 (2 ^ 53)) as [C|NC].
    + rewrite C. change (Zdigits2 (2 ^ 53)) with 54%Z.
      replace (Z.max (54 + e1 - 53) (-1074) - e1)%Z with 1%Z by lia.
      cbn [shr iter_pos shr_1 shr_m].
      change (2 ^ 53)%Z with (Zpos (2 ^ 53)). cbn [shr_1 shr_m].
      replace (e1 + 1 <=? emax - prec)%Z with (e1 + 1 <=? 971)%Z by reflexivity.
      reflexivity.
    + assert (D : (Zdigits2 m1 <= 53)%Z) by (apply Zdigits2_le; lia).
      rewrite shr_same by lia. cbn [shr_m].
      destruct m1 as [|p|p]; try lia. reflexivity.
Qed.

End Binary64Rounding.

Module Binary64Sqrt.

Import SpecFloat.
Import Binary64Value.
Import Binary64Order.
Import Binary64Rounding.

Local Open Scope R_scope.

Local Abbreviation fexp64 := (fexp prec emax).

Lemma square_lt (a b : R) : 0 <= a -> 0 <= b -> a * a < b * b -> a < b.
Proof. intros. nra. Qed.

Lemma square_le (a b : R) : 0 <= a -> 0 <= b -> a * a <= b * b -> a <= b.
Proof. intros. nra. Qed.

Lemma bpow_double (e : Z) : bpow (2 * e) = bpow e * bpow e.
Proof. replace (2 * e)%Z with (e + e)%Z by lia. apply bpow_add. Qed.

Lemma div2_double (e : Z) : (2 * Z.div2 e <= e <= 2 * Z.div2 e + 1)%Z.
Proof. rewrite Z.div2_div. pose proof (Z.div_mod e 2 ltac:(lia)).
  pose proof (Z.mod_pos_bound e 2 ltac:(lia)). lia. Qed.

(** The square root of the value [m * 2^e] lies where
    [SFsqrt_core_binary] says. *)
Lemma SFsqrt_core_spec (m e : Z) (T : R) :
  (0 < m)%Z -> 0 <= T -> T * T = IZR m * bpow e ->
  let '(q, e', l) := SFsqrt_core_binary prec emax m e in
  inbetween q e' l T
  /\ (2 * e' <= e)%Z
  /\ (q * q <= m * 2 ^ (e - 2 * e') < (q + 1) * (q + 1))%Z
  /\ (0 <= q)%Z
  /\ e' = Z.min (fexp64 (Z.div2 (Zdigits2 m + e + 1))) (Z.div2 e).
Proof.
  intros Hm HT HTT. unfold SFsqrt_core_binary.
  set (e' := Z.min (fexp64 (Z.div2 (Zdigits2 m + e + 1))) (Z.div2 e)).
  assert (He' : (2 * e' <= e)%Z).
  { pose proof (div2_double e). subst e'. lia. }
  set (s := (e - 2 * e')%Z).
  assert (Hs : (0 <= s)%Z) by (subst s; lia).
  set (m' := match s with
             | Zpos _ => Z.shiftl m s
             | Z0 => m
             | Zneg _ => 0%Z
             end).
  assert (Hm' : m' = (m * 2 ^ s)%Z).
  { subst m'. clearbody s. destruct s as [|p|p]; try lia.
    apply Z.shiftl_mul_pow2. lia. }
  assert (Pm' : (0 < m')%Z).
  { rewrite Hm'. assert (0 < 2 ^ s)%Z by (apply Z.pow_pos_nonneg; lia). nia. }
  pose proof (Z.sqrtrem_spec m' ltac:(lia)) as Sq.
  destruct (Z.sqrtrem m') as [q r]. destruct Sq as (Sq & Hr).
  assert (Hq : (0 <= q)%Z) by lia.
  assert (B : 0 < bpow e') by apply bpow_pos.
  assert (TT : T * T = IZR m' * (bpow e' * bpow e')).
  { rewrite HTT, Hm', mult_IZR, <- bpow_double, <- (bpow_IZR s) by lia.
    rewrite Rmult_assoc, <- bpow_add. f_equal. f_equal. subst s. lia. }
  assert (Em' : IZR m' = IZR q * IZR q + IZR r).
  { rewrite Sq, plus_IZR, mult_IZR. reflexivity. }
  assert (Rr : 0 <= IZR r <= 2 * IZR q).
  { split; [apply IZR_le; lia|].
    replace 2 with (IZR 2) by reflexivity. rewrite <- mult_IZR. apply IZR_le. lia. }
  assert (Rq : 0 <= IZR q) by (apply IZR_le; lia).
  split; [|split; [exact He'|split; [|split; [exact Hq | reflexivity]]]].
  - destruct (Z.eqb_spec r 0) as [R0|R0].
    + (* exact *)
      cbn [inbetween]. subst r. rewrite Rplus_0_r in Em'.
      apply Rle_antisym; apply square_le; try nra.
    + assert (R1 : 1 <= IZR r) by (apply IZR_le; lia).
      destruct (Z.leb_spec r q) as [L|G]; cbn [inbetween].
      * assert (IZR r <= IZR q) by (apply IZR_le; exact L).
        split; apply square_lt; nra.
      * assert (IZR q + 1 <= IZR r).
        { rewrite <- plus_IZR. apply IZR_le. lia. }
        split; apply square_lt; nra.
  - fold s. rewrite <- Hm'. lia.
Qed.

End Binary64Sqrt.

Module Binary64Div.

Import SpecFloat.
Import Binary64Value.
Import Binary64Order.
Import Binary64Rounding.

Local Open Scope R_scope.

Local Abbreviation fexp64 := (fexp prec emax).

Lemma new_location_spec (m2 r q e' : Z) (X : R) :
  (0 <= r < m2)%Z ->
  X = (IZR q + IZR r / IZR m2) * bpow e' ->
  inbetween q e' (new_location m2 r) X.
Proof.
  intros Hr HX. pose proof (bpow_pos e') as B.
  assert (M : 0 < IZR m2) by (apply IZR_lt; lia).
  set (rho := IZR r / IZR m2) in *.
  assert (Erho : rho * IZR m2 = IZR r) by (subst rho; field; lra).
  assert (R0 : 0 <= IZR r) by (apply IZR_le; lia).
  unfold new_location, new_location_even, new_location_odd.
  destruct (Z.even m2) eqn:Ev; cbv beta;
    (destruct (Z.eqb_spec r 0) as [Z0|NZ];
     [ assert (rho = 0) by (rewrite Z0 in Erho; nra);
       cbn [inbetween]; subst X; nra | ]).
  - assert (R1 : 1 <= IZR r) by (apply IZR_le; lia).
    + destruct (Z.compare_spec (2 * r) m2) as [C|C|C]; cbn [inbetween].
      * assert (2 * IZR r = IZR m2)
          by (replace 2 with (IZR 2) by reflexivity; rewrite <- mult_IZR; now f_equal).
        subst X. assert (rho = / 2) by nra. nra.
      * assert (2 * IZR r < IZR m2)
          by (replace 2 with (IZR 2) by reflexivity; rewrite <- mult_IZR; now apply IZR_lt).
        subst X. assert (0 < rho < / 2) by nra. nra.
      * assert (IZR m2 < 2 * IZR r)
          by (replace 2 with (IZR 2) by reflexivity; rewrite <- mult_IZR; now apply IZR_lt).
        assert (IZR r < IZR m2) by (apply IZR_lt; lia).
        subst X. assert (/ 2 < rho < 1) by nra. nra.
  - assert (R1 : 1 <= IZR r) by (apply IZR_le; lia).
    + assert (Odd : (2 * r <> m2)%Z).
      { intro E. rewrite <- E, Z.even_mul in Ev. discriminate. }
      destruct (Z.compare_spec (2 * r + 1) m2) as [C|C|C]; cbn [inbetween].
      * assert (2 * IZR r < IZR m2)
          by (replace 2 with (IZR 2) by reflexivity; rewrite <- mult_IZR; apply IZR_lt; lia).
        subst X. assert (0 < rho < / 2) by nra. nra.
      * assert (2 * IZR r < IZR m2)
          by (replace 2 with (IZR 2) by reflexivity; rewrite <- mult_IZR; apply IZR_lt; lia).
        subst X. assert (0 < rho < / 2) by nra. nra.
      * assert (IZR m2 < 2 * IZR r)
          by (replace 2 with (IZR 2) by reflexivity; rewrite <- mult_IZR; apply IZR_lt; lia).
        assert (IZR r < IZR m2) by (apply IZR_lt; lia).
        subst X. assert (/ 2 < rho < 1) by nra. nra.
Qed.

(** The quotient of the values [m1 * 2^e1] and [m2 * 2^e2] lies where
    [SFdiv_core_binary] says. *)
Lemma SFdiv_core_spec (m1 e1 m2 e2 : Z) :
  (0 < m1)%Z -> (0 < m2)%Z ->
  let '(q, e', l) := SFdiv_core_binary prec emax m1 e1 m2 e2 in
  inbetween q e' l ((IZR m1 * bpow e1) / (IZR m2 * bpow e2))
  /\ e' = Z.min (fexp64 (Zdigits2 m1 + e1 - (Zdigits2 m2 + e2))) (e1 - e2)
  /\ q = (m1 * 2 ^ (e1 - e2 - e') / m2)%Z.
Proof.
  intros H1 H2. unfold SFdiv_core_binary.
  set (e' := Z.min (fexp64 (Zdigits2 m1 + e1 - (Zdigits2 m2 + e2))) (e1 - e2)).
  set (s := (e1 - e2 - e')%Z).
  assert (Hs : (0 <= s)%Z) by (subst s e'; lia).
  set (m' := match s with
             | Zpos _ => Z.shiftl m1 s
             | Z0 => m1
             | Zneg _ => 0%Z
             end).
  assert (Hm' : m' = (m1 * 2 ^ s)%Z).
  { subst m'. clearbody s. destruct s as [|p|p]; try lia.
    apply Z.shiftl_mul_pow2. lia. }
  pose proof (Z_div_mod m' m2 ltac:(lia)) as D.
  assert (Q : fst (Z.div_eucl m' m2) = (m' / m2)%Z) by reflexivity.
  destruct (Z.div_eucl m' m2) as [q r]. destruct D as (D & Hr).
  cbn [fst] in Q.
  split; [|split; [reflexivity | rewrite Q, Hm'; reflexivity]].
  apply new_location_spec; [exact Hr|].
  assert (M2 : 0 < IZR m2) by (apply IZR_lt; lia).
  pose proof (bpow_pos e2) as B2. pose proof (bpow_pos e') as B'.
  assert (E1 : bpow e1 = IZR (2 ^ s) * bpow e2 * bpow e').
  { rewrite <- (bpow_IZR s), <- !bpow_add by lia. f_equal. subst s. lia. }
  assert (Em : IZR m1 * IZR (2 ^ s) = IZR m2 * IZR q + IZR r).
  { rewrite <- !mult_IZR, <- plus_IZR. f_equal. lia. }
  rewrite E1. field_simplify; try lra.
  replace (IZR m1 * IZR (2 ^ s) * bpow e')
    with ((IZR m2 * IZR q + IZR r) * bpow e') by (rewrite <- Em; ring).
  field. lra.
Qed.

End Binary64Div.

Module Binary64Tolerance.

Import SpecFloat.
Import Binary64Value.
Import Binary64Order.
Import Binary64Rounding.
Import Binary64Sqrt.
Import Binary64Div.

Local Open Scope R_scope.

Local Abbreviation fexp64 := (fexp prec emax).
Local Abbreviation valid64 := (SpecFloat.valid_binary prec emax).

Lemma bpow_lt_inv (a b : Z) : bpow a < bpow b -> (a < b)%Z.
Proof.
  intro H. destruct (Z_lt_le_dec a b) as [L|G]; [exact L|exfalso].
  pose proof (bpow_le b a G). lra.
Qed.

Lemma bpow_le_inv (a b : Z) : bpow a <= bpow b -> (a <= b)%Z.
Proof.
  intro H. destruct (Z_le_gt_dec a b) as [L|G]; [exact L|exfalso].
  pose proof (bpow_lt b a ltac:(lia)). lra.
Qed.

Lemma abs_le_inv (x y : R) : Rabs x <= y -> - y <= x <= y.
Proof. unfold Rabs. destruct (Rcase_abs x); lra. Qed.

Lemma sq_le (a b : R) : 0 <= a <= b -> a * a <= b * b.
Proof. intros. nra. Qed.

Lemma inbetween_bounds (m e : Z) (l : location) (X : R) :
  inbetween m e l X -> IZR m * bpow e <= X < (IZR m + 1) * bpow e.
Proof.
  pose proof (bpow_pos e) as B.
  destruct l as [|[| |]]; cbn [inbetween]; intro H; try (rewrite H); nra.
Qed.

Lemma digits_ge_53 (m : Z) : (2 ^ 52 <= m)%Z -> (53 <= Zdigits2 m)%Z.
Proof.
  intro H. assert (P : (0 < m)%Z) by lia.
  pose proof (Zdigits2_upper m ltac:(lia)) as U.
  destruct (Zdigits2_bounds m P) as [Hd _].
  assert (L : (2 ^ 52 < 2 ^ Zdigits2 m)%Z) by lia.
  apply Z.pow_lt_mono_r_iff in L; lia.
Qed.

Lemma digits_value (m e : Z) :
  (0 < m)%Z ->
  bpow (Zdigits2 m - 1 + e) <= IZR m * bpow e
  /\ (IZR m + 1) * bpow e <= bpow (Zdigits2 m + e).
Proof.
  intro P. pose proof (Zdigits2_upper m ltac:(lia)) as U.
  destruct (Zdigits2_bounds m P) as [Hd Hlow].
  pose proof (bpow_pos e) as B.
  rewrite (bpow_add (Zdigits2 m - 1) e), (bpow_add (Zdigits2 m) e).
  rewrite (bpow_IZR (Zdigits2 m - 1)), (bpow_IZR (Zdigits2 m)) by lia.
  apply IZR_le in Hlow.
  assert (IZR m + 1 <= IZR (2 ^ Zdigits2 m)).
  { rewrite <- plus_IZR. apply IZR_le. lia. }
  split; nra.
Qed.

(** Rounding a value of the normal range: the mantissa has 53 bits
    and the error is at most half a unit in the last place. *)
Lemma round_normal (sx : bool) (m e : Z) (l : location) (X : R) :
  (2 ^ 52 <= m)%Z -> inbetween m e l X -> bpow (-1022) <= X ->
  exists m1 e1 : Z,
    binary_round_aux prec emax sx m e l = rounded sx m1 e1
    /\ (2 ^ 52 <= m1 <= 2 ^ 53)%Z
    /\ (-1074 <= e1)%Z
    /\ Rabs (IZR m1 * bpow e1 - X) <= / 2 * bpow e1
    /\ bpow (e1 + 52) <= X < bpow (e1 + 53).
Proof.
  intros Hm HX Hn.
  assert (P : (0 < m)%Z) by lia.
  destruct (binary_round_aux_spec sx m e l X P HX) as (m1 & A1 & A2 & A3 & A4 & A5).
  pose proof (digits_ge_53 m Hm) as D53.
  destruct (digits_value m e P) as [VL VU].
  destruct (Zdigits2_bounds m P) as [_ Hlow].
  destruct (inbetween_bounds _ _ _ _ HX) as [L U].
  set (d := Zdigits2 m) in *.
  assert (Hde : (-1022 < d + e)%Z) by (apply bpow_lt_inv; lra).
  rewrite fexp64_eq in *.
  replace (Z.max e (Z.max (d + e - 53) (-1074))) with (d + e - 53)%Z in * by lia.
  exists m1, (d + e - 53)%Z.
  split; [exact A5|]. split; [|split; [lia|split; [exact A3|]]].
  - split; [|lia].
    apply Z.le_trans with (2 := proj1 A1).
    replace (d + e - 53 - e)%Z with (d - 53)%Z by lia.
    apply Z.div_le_lower_bound; [apply Z.pow_pos_nonneg; lia|].
    rewrite <- Z.pow_add_r by lia.
    replace (d - 53 + 52)%Z with (d - 1)%Z by lia. exact Hlow.
  - replace (d + e - 53 + 52)%Z with (d - 1 + e)%Z by lia.
    replace (d + e - 53 + 53)%Z with (d + e)%Z by lia. lra.
Qed.


Lemma rounded_finite (sx : bool) (m1 e1 : Z) :
  (0 < m1 <= 2 ^ 53)%Z -> (e1 <= 971)%Z -> (m1 = 2 ^ 53 -> e1 < 971)%Z ->
  exists (mz : positive) (ez : Z),
    rounded sx m1 e1 = S754_finite sx mz ez
    /\ IZR (Zpos mz) * bpow ez = IZR m1 * bpow e1
    /\ (e1 <= ez <= 971)%Z
    /\ (Zpos mz < 2 ^ 53)%Z
    /\ ((2 ^ 52 <= m1)%Z -> (2 ^ 52 <= Zpos mz)%Z).
Proof.
  intros Hm He Hc. unfold rounded.
  destruct (Z.eqb_spec m1 0) as [Z0|NZ]; [lia|].
  destruct (Z.eqb_spec m1 (2 ^ 53)) as [C|NC].
  - specialize (Hc C).
    rewrite (proj2 (Z.leb_le (e1 + 1) 971)) by lia.
    exists (Z.to_pos (2 ^ 52)), (e1 + 1)%Z.
    split; [reflexivity|]. split.
    + rewrite C, bpow_succ.
      change (Zpos (Z.to_pos (2 ^ 52))) with (2 ^ 52)%Z.
      replace (IZR (2 ^ 53)) with (2 * IZR (2 ^ 52)); [ring|].
      replace 2 with (IZR 2) by reflexivity. rewrite <- mult_IZR.
      f_equal.
    + split; [lia|]. split; [reflexivity|]. intros _. discriminate.
  - rewrite (proj2 (Z.leb_le e1 971)) by lia.
    exists (Z.to_pos m1), e1.
    rewrite Z2Pos.id by lia.
    split; [reflexivity|]. split; [reflexivity|].
    split; [lia|]. split; [lia|]. intro H; exact H.
Qed.

Lemma ulp53_value : ulp53 = / IZR (2 ^ 53).
Proof.
  unfold ulp53, bpow. cbn [powerRZ]. rewrite pow_IZR. f_equal.
Qed.

Lemma ulp53_small : 0 < ulp53 <= / 1000.
Proof.
  split; [apply bpow_pos|].
  rewrite ulp53_value. apply Rinv_le_contravar; [lra|].
  apply IZR_le. vm_compute. discriminate.
Qed.

Lemma half_ulp (e : Z) : / 2 * bpow e = ulp53 * bpow (e + 52).
Proof.
  unfold ulp53. rewrite <- bpow_add.
  replace (-53 + (e + 52))%Z with (-1 + e)%Z by lia.
  rewrite bpow_add. f_equal.
  unfold bpow. cbn [powerRZ]. simpl. lra.
Qed.

(** Rounding to nearest of a normal value that does not reach the
    midpoint above the float [mF * 2^eF]: the result is a normal float,
    with relative error at most [ulp53], and it is at most that
    float. *)
Lemma round_to_float (sx : bool) (m e : Z) (l : location) (X : R) (mF eF : Z) :
  (2 ^ 52 <= m)%Z -> inbetween m e l X -> bpow (-1022) <= X ->
  (2 ^ 52 <= mF < 2 ^ 53)%Z -> (eF <= 971)%Z ->
  X < (IZR mF + / 2) * bpow eF ->
  exists (mz : positive) (ez : Z),
    binary_round_aux prec emax sx m e l = S754_finite sx mz ez
    /\ (2 ^ 52 <= Zpos mz < 2 ^ 53)%Z
    /\ (-1074 <= ez <= 971)%Z
    /\ Rabs (IZR (Zpos mz) * bpow ez - X) <= ulp53 * X
    /\ IZR (Zpos mz) * bpow ez <= IZR mF * bpow eF.
Proof.
  intros Hm HX Hn HF HeF HXF.
  destruct (round_normal sx m e l X Hm HX Hn) as (m1 & e1 & A1 & A2 & A3 & A4 & A5 & A6).
  pose proof (bpow_pos e1) as B1. pose proof (bpow_pos eF) as BF.
  assert (F53 : IZR mF + 1 <= IZR (2 ^ 53)).
  { rewrite <- plus_IZR. apply IZR_le. lia. }
  assert (F52 : IZR (2 ^ 52) <= IZR mF) by (apply IZR_le; lia).
  assert (M52 : IZR (2 ^ 52) <= IZR m1) by (apply IZR_le; lia).
  assert (M53 : IZR m1 <= IZR (2 ^ 53)) by (apply IZR_le; lia).
  assert (E1F : (e1 <= eF)%Z).
  { assert (bpow (e1 + 52) < bpow (eF + 53)).
    { rewrite (bpow_add eF 53), (bpow_IZR 53) by lia. nra. }
    apply bpow_lt_inv in H. lia. }
  apply abs_le_inv in A4.
  assert (Carry : (e1 = eF -> m1 <= mF)%Z).
  { intro E. subst e1. apply Z.lt_succ_r. apply lt_IZR.
    rewrite succ_IZR. nra. }
  destruct (rounded_finite sx m1 e1) as (mz & ez & R1 & R2 & R3 & R4 & R5);
    [lia|lia|lia|].
  exists mz, ez. split; [congruence|]. split; [split; [apply R5; lia|exact R4]|].
  split; [lia|]. rewrite R2. split.
  - apply Rabs_le. rewrite half_ulp in A4.
    pose proof ulp53_small as U.
    assert (ulp53 * bpow (e1 + 52) <= ulp53 * X) by nra.
    lra.
  - destruct (Z.eq_dec e1 eF) as [E|NE].
    + specialize (Carry E). subst e1. apply IZR_le in Carry. nra.
    + assert (L : (e1 + 53 <= eF + 52)%Z) by lia.
      apply bpow_le in L.
      rewrite (bpow_add e1 53), (bpow_add eF 52), (bpow_IZR 53), (bpow_IZR 52) in L by lia.
      nra.
Qed.


Lemma valid_exponent (s : bool) (m : positive) (e : Z) :
  valid64 (S754_finite s m e) = true -> (e <= 971)%Z.
Proof.
  cbn [SpecFloat.valid_binary]. unfold bounded. intro H.
  apply andb_true_iff in H as [_ H]. apply Z.leb_le in H. exact H.
Qed.

Lemma valid_value (m : positive) (e : Z) :
  valid64 (S754_finite false m e) = true ->
  bpow (-1074) <= IZR (Zpos m) * bpow e <= IZR (2 ^ 53 - 1) * bpow 971.
Proof.
  intro V. destruct (valid_finite _ _ _ V) as (E1 & M1 & _).
  pose proof (valid_exponent _ _ _ V) as E2.
  pose proof (bpow_le _ _ E1) as B1. pose proof (bpow_le _ _ E2) as B2.
  pose proof (bpow_pos (-1074)) as P1. pose proof (bpow_pos e) as P2.
  assert (1 <= IZR (Zpos m)) by (apply IZR_le; lia).
  assert (IZR (Zpos m) <= IZR (2 ^ 53 - 1)) by (apply IZR_le; lia).
  split; nra.
Qed.

(** The square root of a positive float: a normal float within
    [ulp53] of the real square root, relatively, and at most the
    largest float below [2^512]. *)
Lemma SFsqrt_close (m : positive) (e : Z) :
  valid64 (S754_finite false m e) = true ->
  exists (mS : positive) (eS : Z),
    SFsqrt prec emax (S754_finite false m e) = S754_finite false mS eS
    /\ (2 ^ 52 <= Zpos mS < 2 ^ 53)%Z
    /\ Rabs (IZR (Zpos mS) * bpow eS - R_sqrt.sqrt (IZR (Zpos m) * bpow e))
       <= ulp53 * R_sqrt.sqrt (IZR (Zpos m) * bpow e)
    /\ IZR (Zpos mS) * bpow eS <= IZR (2 ^ 53 - 1) * bpow 459.
Proof.
  intro V. destruct (valid_finite _ _ _ V) as (E1 & M1 & _).
  pose proof (valid_exponent _ _ _ V) as E2.
  destruct (valid_value _ _ V) as [NL NU].
  set (N := IZR (Zpos m) * bpow e) in *.
  pose proof (bpow_pos (-1074)) as P1.
  assert (N0 : 0 <= N) by lra.
  pose proof (sqrt_sqrt N N0) as TT. pose proof (sqrt_pos N) as T0.
  set (T := R_sqrt.sqrt N) in *.
  pose proof (SFsqrt_core_spec (Zpos m) e T ltac:(lia) T0 TT) as C.
  cbn [SFsqrt].
  destruct (SFsqrt_core_binary prec emax (Zpos m) e) as [[q e'] l].
  destruct C as (C1 & C2 & C3 & C4 & C5).
  (* the integer root has at least 53 bits *)
  assert (Q : (2 ^ 52 <= q)%Z).
  { destruct (Zdigits2_bounds (Zpos m) ltac:(lia)) as [Hd Hlow].
    set (d := Zdigits2 (Zpos m)) in *.
    rewrite fexp64_eq in C5.
    pose proof (div2_double (d + e + 1)) as D2.
    assert (S1 : (105 - d <= e - 2 * e')%Z) by lia.
    assert (S2 : (2 ^ 104 <= Zpos m * 2 ^ (e - 2 * e'))%Z).
    { apply Z.le_trans with (2 ^ (d - 1) * 2 ^ (e - 2 * e'))%Z.
      - rewrite <- Z.pow_add_r by lia. apply Z.pow_le_mono_r; lia.
      - apply Z.mul_le_mono_nonneg_r; [apply Z.pow_nonneg; lia | exact Hlow]. }
    assert (S3 : (2 ^ 52 < q + 1)%Z).
    { apply Z.square_lt_simpl_nonneg; [lia|].
      change (2 ^ 52 * 2 ^ 52)%Z with (2 ^ 104)%Z. lia. }
    lia. }
  assert (TL : bpow (-1022) <= T).
  { apply square_le; [apply Rlt_le, bpow_pos | exact T0 |].
    rewrite TT, <- bpow_double.
    pose proof (bpow_le (2 * -1022) (-1074) ltac:(lia)). lra. }
  assert (TU : T < (IZR (2 ^ 53 - 1) + / 2) * bpow 459).
  { pose proof (bpow_pos 459) as B.
    assert (E971 : bpow 971 = (IZR (2 ^ 53 - 1) + 1) * (bpow 459 * bpow 459)).
    { rewrite <- bpow_double, <- plus_IZR.
      change (2 ^ 53 - 1 + 1)%Z with (2 ^ 53)%Z.
      rewrite <- (bpow_IZR 53), <- bpow_add by lia. reflexivity. }
    assert (0 < IZR (2 ^ 53 - 1)) by (apply IZR_lt; reflexivity).
    apply square_lt; [exact T0 | nra |].
    rewrite TT. rewrite E971 in NU. nra. }
  destruct (round_to_float false q e' l T (2 ^ 53 - 1) 459 Q C1 TL)
    as (mS & eS & R1 & R2 & R3 & R4 & R5); [lia | lia | exact TU |].
  exists mS, eS. auto.
Qed.


(** Rounding a value below the normal range: the result is a multiple
    of the smallest positive float, at most half of it away. *)
Lemma round_subnormal (sx : bool) (m e : Z) (l : location) (X : R) :
  (0 < m)%Z -> inbetween m e l X -> (e <= -1074)%Z -> X < bpow (-1022) ->
  exists m1 : Z,
    binary_round_aux prec emax sx m e l = rounded sx m1 (-1074)
    /\ (0 <= m1 <= 2 ^ 53)%Z
    /\ Rabs (IZR m1 * bpow (-1074) - X) <= / 2 * bpow (-1074).
Proof.
  intros P HX He Hs.
  destruct (binary_round_aux_spec sx m e l X P HX) as (m1 & A1 & A2 & A3 & A4 & A5).
  destruct (digits_value m e P) as [VL _].
  destruct (inbetween_bounds _ _ _ _ HX) as [L _].
  set (d := Zdigits2 m) in *.
  assert (Hde : (d - 1 + e < -1022)%Z) by (apply bpow_lt_inv; lra).
  rewrite fexp64_eq in *.
  replace (Z.max e (Z.max (d + e - 53) (-1074))) with (-1074)%Z in * by lia.
  exists m1. auto.
Qed.

Lemma IZR_small (z : Z) : -1 < IZR z < 1 -> z = 0%Z.
Proof.
  intros [L U]. apply lt_IZR in L, U. lia.
Qed.

(** The square of the rounded root, rounded: within [5 ulp53] of the
    number the root was taken of, relatively, when that number is a
    multiple of the smallest positive float. *)
Lemma SFmul_square_close (mS : positive) (eS k : Z) (N T : R) :
  (2 ^ 52 <= Zpos mS < 2 ^ 53)%Z ->
  (0 < k)%Z -> N = IZR k * bpow (-1074) ->
  0 <= T -> T * T = N ->
  Rabs (IZR (Zpos mS) * bpow eS - T) <= ulp53 * T ->
  IZR (Zpos mS) * bpow eS <= IZR (2 ^ 53 - 1) * bpow 459 ->
  exists (mP : positive) (eP : Z),
    SFmul prec emax (S754_finite false mS eS) (S754_finite false mS eS)
    = S754_finite false mP eP
    /\ Rabs (IZR (Zpos mP) * bpow eP - N) <= 5 * ulp53 * N.
Proof.
  intros HS Hk HN T0 TT Err Top.
  pose proof ulp53_small as U. set (u := ulp53) in *.
  pose proof (bpow_pos (-1074)) as G. set (g := bpow (-1074)) in *.
  pose proof (bpow_pos eS) as BS.
  assert (K1 : 1 <= IZR k) by (apply IZR_le; lia).
  assert (NG : g <= N) by (rewrite HN; nra).
  set (S := IZR (Zpos mS) * bpow eS) in *.
  apply abs_le_inv in Err.
  assert (S0 : 0 <= S) by nra.
  assert (DU : S * S - N <= 9 / 4 * u * N).
  { rewrite <- TT.
    assert (S * S <= (1 + u) * T * ((1 + u) * T)) by (apply sq_le; nra).
    assert (0 <= T * T) by nra.
    assert (u * u * (T * T) <= / 4 * u * (T * T)) by nra.
    nra. }
  assert (DL : - (9 / 4 * u * N) <= S * S - N).
  { rewrite <- TT.
    assert ((1 - u) * T * ((1 - u) * T) <= S * S) by (apply sq_le; nra).
    assert (0 <= T * T) by nra.
    assert (0 <= u * u * (T * T)) by nra.
    nra. }
  assert (HX : inbetween (Zpos (mS * mS)) (eS + eS) loc_Exact (S * S)).
  { cbn [inbetween]. rewrite Pos2Z.inj_mul, mult_IZR, bpow_add.
    subst S. ring. }
  cbn [SFmul xorb].
  assert (M104 : (2 ^ 104 <= Zpos (mS * mS))%Z).
  { rewrite Pos2Z.inj_mul. change (2 ^ 104)%Z with (2 ^ 52 * 2 ^ 52)%Z.
    apply Z.mul_le_mono_nonneg; lia. }
  destruct (Rle_lt_dec (bpow (-1022)) (S * S)) as [Normal|Sub].
  - (* the square is in the normal range *)
    assert (XU : S * S < (IZR (2 ^ 53 - 1) + / 2) * bpow 971).
    { pose proof (bpow_pos 459) as B.
      assert (E971 : bpow 971 = (IZR (2 ^ 53 - 1) + 1) * (bpow 459 * bpow 459)).
      { rewrite <- bpow_double, <- plus_IZR.
        change (2 ^ 53 - 1 + 1)%Z with (2 ^ 53)%Z.
        rewrite <- (bpow_IZR 53), <- bpow_add by lia. reflexivity. }
      assert (0 < IZR (2 ^ 53 - 1)) by (apply IZR_lt; reflexivity).
      rewrite E971.
      assert (S * S <= IZR (2 ^ 53 - 1) * bpow 459 * (IZR (2 ^ 53 - 1) * bpow 459))
        by nra.
      nra. }
    destruct (round_to_float false (Zpos (mS * mS)) (eS + eS) loc_Exact (S * S)
                (2 ^ 53 - 1) 971) as (mP & eP & R1 & R2 & R3 & R4 & R5);
      [lia | exact HX | exact Normal | lia | lia | exact XU |].
    exists mP, eP. split; [exact R1|].
    apply abs_le_inv in R4. apply Rabs_le. fold u in R4. nra.
  - (* the square is below the normal range *)
    assert (ES : (eS + eS <= -1074)%Z).
    { assert (bpow (104 + (eS + eS)) <= S * S).
      { destruct (inbetween_bounds _ _ _ _ HX) as [L _].
        rewrite bpow_add, (bpow_IZR 104) by lia.
        apply IZR_le in M104. pose proof (bpow_pos (eS + eS)). nra. }
      assert (104 + (eS + eS) < -1022)%Z by (apply bpow_lt_inv; lra).
      lia. }
    destruct (round_subnormal false (Zpos (mS * mS)) (eS + eS) loc_Exact (S * S))
      as (m1 & R1 & R2 & R3); [lia | exact HX | exact ES | exact Sub |].
    apply abs_le_inv in R3. fold g in R3.
    assert (M1 : (0 < m1)%Z).
    { destruct (Z_lt_le_dec 0 m1) as [L|L]; [exact L|exfalso].
      assert (IZR m1 <= 0) by (apply IZR_le; lia). nra. }
    destruct (rounded_finite false m1 (-1074)) as (mP & eP & F1 & F2 & _);
      [lia | lia | lia |].
    exists mP, eP. split; [congruence|]. rewrite F2. fold g.
    apply Rabs_le.
    destruct (Rlt_le_dec (9 / 4 * u * N) (/ 2 * g)) as [Small|Large].
    + (* the rounded root squares back to the number itself *)
      assert (E : (m1 - k)%Z = 0%Z).
      { apply IZR_small. rewrite minus_IZR. rewrite HN in *. nra. }
      replace m1 with k by lia. rewrite <- HN. nra.
    + nra.
Qed.


(** A positive float divided by a float within [5 ulp53] of it: a
    float within [2^-50] of one. *)
Lemma SFdiv_close (mN mP : positive) (eN eP : Z) :
  Rabs (IZR (Zpos mP) * bpow eP - IZR (Zpos mN) * bpow eN)
  <= 5 * ulp53 * (IZR (Zpos mN) * bpow eN) ->
  exists (mR : positive) (eR : Z),
    SFdiv prec emax (S754_finite false mN eN) (S754_finite false mP eP)
    = S754_finite false mR eR
    /\ Rabs (IZR (Zpos mR) * bpow eR - 1) <= bpow (-50).
Proof.
  intro Err. apply abs_le_inv in Err.
  pose proof ulp53_small as U. set (u := ulp53) in *.
  pose proof (bpow_pos eN) as BN. pose proof (bpow_pos eP) as BP.
  assert (MN : 1 <= IZR (Zpos mN)) by (apply IZR_le; lia).
  assert (MP : 1 <= IZR (Zpos mP)) by (apply IZR_le; lia).
  destruct (digits_value (Zpos mN) eN ltac:(lia)) as [NL NU].
  destruct (digits_value (Zpos mP) eP ltac:(lia)) as [PL PU].
  destruct (Zdigits2_bounds (Zpos mN) ltac:(lia)) as [DN LN].
  destruct (Zdigits2_bounds (Zpos mP) ltac:(lia)) as [DP _].
  pose proof (Zdigits2_upper (Zpos mP) ltac:(lia)) as UP.
  pose proof (SFdiv_core_spec (Zpos mN) eN (Zpos mP) eP ltac:(lia) ltac:(lia)) as C.
  cbn [SFdiv xorb].
  destruct (SFdiv_core_binary prec emax (Zpos mN) eN (Zpos mP) eP) as [[q e'] l].
  destruct C as (C1 & C2 & C3).
  set (dN := Zdigits2 (Zpos mN)) in *. set (dP := Zdigits2 (Zpos mP)) in *.
  set (N := IZR (Zpos mN) * bpow eN) in *.
  set (P := IZR (Zpos mP) * bpow eP) in *.
  assert (N0 : 0 < N) by (subst N; nra).
  assert (P0 : 0 < P) by (subst P; nra).
  set (rho := N / P) in *.
  assert (RP : rho * P = N) by (subst rho; field; lra).
  assert (R0 : 0 < rho) by (subst rho; apply Rdiv_lt_0_compat; assumption).
  assert (RU : rho * (1 - 5 * u) <= 1).
  { apply Rmult_le_reg_r with N; [exact N0|]. nra. }
  assert (RL : 1 <= rho * (1 + 5 * u)).
  { apply Rmult_le_reg_r with N; [exact N0|]. nra. }
  assert (R1 : rho <= 101 / 100) by nra.
  (* the quotient of the mantissas has at least 53 bits *)
  assert (D : (-1 <= dN + eN - (dP + eP))%Z).
  { assert (bpow (dP - 1 + eP) < bpow (dN + eN + 1)).
    { rewrite (bpow_succ (dN + eN)).
      assert (u * N <= / 1000 * N) by nra.
      assert (N < bpow (dN + eN)) by (unfold N in *; lra).
      lra. }
    apply bpow_lt_inv in H. lia. }
  rewrite fexp64_eq in C2.
  assert (Q : (2 ^ 52 <= q)%Z).
  { rewrite C3. set (s := (eN - eP - e')%Z).
    assert (Hs : (0 <= s)%Z) by lia.
    assert (Hs' : (dP + 52 <= dN - 1 + s)%Z) by lia.
    apply Z.div_le_lower_bound; [lia|].
    apply Z.le_trans with (2 ^ dP * 2 ^ 52)%Z.
    - apply Z.mul_le_mono_nonneg_r; [apply Z.pow_nonneg; lia | lia].
    - apply Z.le_trans with (2 ^ (dN - 1) * 2 ^ s)%Z.
      + rewrite <- !Z.pow_add_r by lia. apply Z.pow_le_mono_r; lia.
      + apply Z.mul_le_mono_nonneg_r; [apply Z.pow_nonneg; lia | exact LN]. }
  assert (RN : bpow (-1022) <= rho).
  { pose proof (bpow_le (-1022) (-1) ltac:(lia)) as L.
    replace (bpow (-1)) with (/ 2) in L by (unfold bpow; cbn [powerRZ]; simpl; lra).
    nra. }
  assert (RF : rho < (IZR (2 ^ 53 - 1) + / 2) * bpow 971).
  { pose proof (bpow_le 0 971 ltac:(lia)) as L. rewrite bpow_0 in L.
    assert (2 <= IZR (2 ^ 53 - 1)) by (apply IZR_le; vm_compute; discriminate).
    nra. }
  destruct (round_to_float false q e' l rho (2 ^ 53 - 1) 971 Q C1 RN)
    as (mR & eR & F1 & F2 & F3 & F4 & F5); [lia | lia | exact RF |].
  exists mR, eR. split; [exact F1|].
  apply abs_le_inv in F4. fold u in F4.
  replace (bpow (-50)) with (8 * u).
  - apply Rabs_le. nra.
  - unfold u, ulp53. replace (-50)%Z with (3 + -53)%Z by lia.
    rewrite bpow_add. f_equal. unfold bpow. cbn [powerRZ]. simpl. lra.
Qed.


(** A positive finite float divided by the square of its square root,
    every operation rounded: a float within [2^-50] of one. *)
Lemma self_quotient_close (n : float) (m : positive) (e : Z) :
  Prim2SF n = S754_finite false m e ->
  closeToOne (PrimFloat.div n (PrimFloat.mul (PrimFloat.sqrt n) (PrimFloat.sqrt n))).
Proof.
  intro E. pose proof (FloatAxioms.Prim2SF_valid n) as V. rewrite E in V.
  unfold closeToOne.
  rewrite FloatAxioms.div_spec, FloatAxioms.mul_spec, FloatAxioms.sqrt_spec, E.
  unfold SF64div, SF64mul, SF64sqrt.
  destruct (valid_finite _ _ _ V) as (E1 & _).
  destruct (valid_value _ _ V) as [NL _].
  pose proof (bpow_pos (-1074)) as G.
  destruct (SFsqrt_close m e V) as (mS & eS & S1 & S2 & S3 & S4).
  rewrite S1.
  set (N := IZR (Zpos m) * bpow e) in *.
  assert (N0 : 0 <= N) by lra.
  destruct (SFmul_square_close mS eS (Zpos m * 2 ^ (e + 1074)) N (R_sqrt.sqrt N))
    as (mP & eP & P1 & P2);
    [ exact S2
    | assert (0 < 2 ^ (e + 1074))%Z by (apply Z.pow_pos_nonneg; lia); nia
    | rewrite mult_IZR, <- (bpow_IZR (e + 1074)), Rmult_assoc, <- bpow_add by lia;
      subst N; do 2 f_equal; lia
    | apply sqrt_pos
    | apply sqrt_sqrt; exact N0
    | exact S3
    | exact S4
    | ].
  rewrite P1. apply SFdiv_close. exact P2.
Qed.

(** A float within [2^-50] of one is greater than the literal 0.7. *)
Lemma closeToOne_above (x : float) :
  closeToOne x ->
  PrimFloat.ltb (PrimFloat.div (Binary64.fromZ 7) (Binary64.fromZ 10)) x = true.
Proof.
  intros (m & e & E & Err).
  pose proof (FloatAxioms.Prim2SF_valid x) as V. rewrite E in V.
  destruct (valid_finite _ _ _ V) as (E1 & M1 & M2).
  assert (L : Prim2SF (PrimFloat.div (Binary64.fromZ 7) (Binary64.fromZ 10))
              = S754_finite false 6305039478318694 (-53))
    by (vm_compute; reflexivity).
  rewrite FloatAxioms.ltb_spec, E, L.
  apply abs_le_inv in Err.
  pose proof (bpow_pos e) as B.
  assert (B50 : bpow (-50) = 8 * bpow (-53)).
  { replace (-50)%Z with (3 + -53)%Z by lia.
    rewrite bpow_add. f_equal. unfold bpow. cbn [powerRZ]. simpl. lra. }
  assert (B53 : bpow (-53) * IZR (2 ^ 53) = 1).
  { rewrite <- (bpow_IZR 53), <- bpow_add by lia. reflexivity. }
  assert (M53 : IZR (Zpos m) < IZR (2 ^ 53)) by (apply IZR_lt; lia).
  assert (He : (-53 <= e)%Z).
  { destruct (Z_le_gt_dec (-53) e) as [G|G]; [exact G|exfalso].
    pose proof (bpow_le e (-54) ltac:(lia)) as Le.
    assert (B54 : bpow (-53) = 2 * bpow (-54)).
    { replace (-53)%Z with (-54 + 1)%Z by lia. apply bpow_succ. }
    pose proof (bpow_pos (-54)).
    assert (IZR (Zpos m) * bpow e <= IZR (2 ^ 53) * bpow (-54)) by nra.
    nra. }
  unfold SFltb, SFcompare.
  destruct (Z.compare_spec (-53) e) as [C|C|C]; [|reflexivity|lia].
  subst e.
  assert (Hm : (2 ^ 53 - 8 <= Zpos m)%Z).
  { apply le_IZR. rewrite minus_IZR. nra. }
  rewrite Pos.compare_cont_spec. cbn [Pos.switch_Eq].
  assert (Lt7 : (6305039478318694 < m)%positive).
  { change (2 ^ 53 - 8)%Z with 9007199254740984%Z in Hm. lia. }
  apply Pos.compare_lt_iff in Lt7. rewrite Lt7. reflexivity.
Qed.

End Binary64Tolerance.


(** ** Cosine similarity over exact arithmetic *)

Module ExactFacts.

Import Exact.
Local Open Scope R_scope.





End ExactFacts.

(** ** The similarity of a vector with itself *)

(** Read against itself, the loop adds the same squares to its three
    accumulators, in any number structure. *)
Lemma similarityLoop_same {N : Number} (pre rest : list num) (d n1 n2 : num) :
  similarityLoop rest (pre ++ rest) (length pre) (d, n1, n2)
  = (fold_left (fun acc x => add acc (mul x x)) rest d,
     fold_left (fun acc x => add acc (mul x x)) rest n1,
     fold_left (fun acc x => add acc (mul x x)) rest n2).
Proof.
  revert pre d n1 n2.
  induction rest as [|x rest IH]; intros pre d n1 n2; [reflexivity|].
  cbn [similarityLoop fold_left].
  assert (E : at_ (pre ++ x :: rest) (length pre) = x).
  { unfold at_. rewrite nth_error_app2 by apply Nat.le_refl.
    now rewrite Nat.sub_diag. }
  rewrite E.
  replace (pre ++ x :: rest) with ((pre ++ [x]) ++ rest)
    by (rewrite <- app_assoc; reflexivity).
  replace (S (length pre)) with (length (pre ++ [x]))
    by (rewrite length_app; simpl; lia).
  apply IH.
Qed.

Lemma calculateSimilarity_same {N : Number} (a : list num) :
  calculateSimilarity a a
  = div (squaredNorm a) (mul (sqrt (squaredNorm a)) (sqrt (squaredNorm a))).
Proof.
  unfold calculateSimilarity, squaredNorm.
  rewrite (similarityLoop_same [] a). reflexivity.
Qed.


(** In binary64 the quotient [n / (sqrt n * sqrt n)] of a positive
    finite number [n] is within [2^-50] of one. *)
Lemma self_quotient_closeToOne (n : float) :
  positiveFinite n ->
  Binary64Value.closeToOne
    (PrimFloat.div n (PrimFloat.mul (PrimFloat.sqrt n) (PrimFloat.sqrt n))).
Proof.
  unfold positiveFinite. intro H.
  destruct (Prim2SF n) as [[|]|[|]| |[|] m e] eqn:E; try contradiction.
  exact (Binary64Tolerance.self_quotient_close n m e E).
Qed.



(** ** The fallback responder *)

Lemma length_ellipsis : length (js "...") = 3%nat.
Proof. reflexivity. Qed.

Section FallbackFacts.

Context {N : Number} {L : MathLib N}.

Lemma generateSolutionFromSearch_built
    (query : jsstring) (searchResults : list WebSearchResult) (w : World) :
  exists doc,
    generateSolutionFromSearch query searchResults w = (Normal doc, w)
    /\ fallbackAsBuilt searchResults doc.
Proof.
  destruct searchResults as [|first rest]; eexists; (split; [reflexivity|]).
  - eexists; split; [reflexivity|]. split; reflexivity.
  - do 2 eexists. repeat split; reflexivity.
Qed.

(** A document built for a non-empty sequence never meets the stated
    description: the ellipsis makes the content three units longer. *)
Lemma fallbackAsStated_fails (first : WebSearchResult)
    (rest : list WebSearchResult) (doc : Solution) :
  fallbackAsBuilt (first :: rest) doc ->
  ~ fallbackAsStated (first :: rest) doc.
Proof.
  intros (b1 & b2 & Hb & Hbc & _) (s1 & s2 & Hs & Hc & _).
  rewrite Hb in Hs. injection Hs as <- _.
  rewrite Hbc in Hc.
  apply (f_equal (@length Z)) in Hc.
  rewrite length_app, length_ellipsis in Hc. lia.
Qed.

(** C7, as amended.  For every query and every sequence of search
    results the responder returns, without touching the world, a
    one-step "no solution found" document when the sequence is empty;
    otherwise a two-step document whose first step's content is the
    first result's content cut to 200 code units followed by "...",
    and whose sources are the title and URL of every result, in order. *)
Theorem generateSolutionFromSearch_document
    (query : jsstring) (searchResults : list WebSearchResult) (w : World) :
  exists doc,
    generateSolutionFromSearch query searchResults w = (Normal doc, w)
    /\ fallbackAsBuilt searchResults doc
    /\ length (steps doc) = match searchResults with [] => 1%nat | _ :: _ => 2%nat end
    /\ option_map (@length SourceRef) (sources doc)
       = Some (length searchResults).
Proof.
  destruct (generateSolutionFromSearch_built query searchResults w)
    as (doc & E & B).
  exists doc. split; [exact E|]. split; [exact B|].
  destruct searchResults as [|first rest].
  - destruct B as (s & Hs & _). rewrite Hs. split; [reflexivity|].
    unfold generateSolutionFromSearch, ret in E.
    assert (D : sources doc = Some []) by (injection E as <-; reflexivity).
    now rewrite D.
  - destruct B as (s1 & s2 & Hs & _ & Hsrc). rewrite Hs, Hsrc.
    split; [reflexivity|].
    unfold sourcesOf. cbn [option_map]. now rewrite length_map.
Qed.

End FallbackFacts.

(** C7, as stated, fails: on the two mock results the first step's
    content is the first content followed by "...", three code units
    longer than that content cut to 200 code units. *)
Lemma generateSolutionFromSearch_not_as_stated :
  ~ (forall (query : jsstring) (searchResults : list WebSearchResult) (w : World),
       exists doc,
         @generateSolutionFromSearch Exact.number query searchResults w
         = (Normal doc, w)
         /\ fallbackAsStated searchResults doc).
Proof.
  intro H.
  destruct (H (js "topology optimization") mockResults Demo.world0)
    as (doc & E & C).
  destruct (generateSolutionFromSearch_built
              (js "topology optimization") mockResults Demo.world0)
    as (doc' & E' & B).
  rewrite E in E'.
  assert (D : doc = doc') by congruence. subst doc'.
  exact (fallbackAsStated_fails _ _ _ B C).
Qed.

(** ** The content guard *)

Lemma startsWith_spec (p s : jsstring) :
  startsWith p s = true <-> exists post, s = p ++ post.
Proof.
  revert s. induction p as [|a p IH]; intro s; simpl.
  - split; [intros _; now exists s | reflexivity].
  - destruct s as [|b s].
    + split; [discriminate | intros (post & E); discriminate].
    + rewrite andb_true_iff, Z.eqb_eq, IH. split.
      * intros (-> & post & ->). now exists post.
      * intros (post & E). injection E as -> ->. split; [reflexivity | now exists post].
Qed.

Lemma includes_spec (s sub : jsstring) :
  includes s sub = true <-> contains s sub.
Proof.
  unfold contains. induction s as [|c s IH].
  - cbn [includes]. rewrite orb_false_r, startsWith_spec. split.
    + intros (post & E). now exists [], post.
    + intros (pre & post & E). destruct pre as [|x pre]; [|discriminate].
      now exists post.
  - cbn [includes]. rewrite orb_true_iff, startsWith_spec, IH. split.
    + intros [(post & E) | (pre & post & E)].
      * now exists [], post.
      * exists (c :: pre), post. now rewrite E.
    + intros (pre & post & E). destruct pre as [|x pre].
      * left. now exists post.
      * right. injection E as _ E. now exists pre, post.
Qed.

Lemma includesAny_spec (input : jsstring) (terms : list jsstring) :
  existsb (fun keyword => includes (toLowerCase input) keyword) terms = true
  <-> exists term, In term terms /\ containsIgnoringCase input term.
Proof.
  rewrite existsb_exists. unfold containsIgnoringCase.
  split; intros (t & Hin & H); exists t; (split; [assumption|]);
    now apply includes_spec.
Qed.

Lemma hasSymbols_spec (input : jsstring) :
  testClass (inClass mathSymbols) input = true <-> hasMathSymbol input.
Proof.
  unfold testClass, inClass, hasMathSymbol. rewrite existsb_exists.
  split.
  - intros (c & Hin & H). apply existsb_exists in H as (d & Hd & E).
    apply Z.eqb_eq in E. subst d. now exists c.
  - intros (c & Hin & Hs). exists c. split; [assumption|].
    apply existsb_exists. exists c. split; [assumption | apply Z.eqb_refl].
Qed.

Lemma hasNumbers_spec (input : jsstring) :
  testClass isDigit input = true <-> hasDigit input.
Proof.
  unfold testClass, isDigit, hasDigit. rewrite existsb_exists.
  split; intros (c & Hin & H); exists c; (split; [assumption|]).
  - apply andb_true_iff in H as [H1 H2]. apply Z.leb_le in H1, H2. lia.
  - apply andb_true_iff. split; apply Z.leb_le; lia.
Qed.

Lemma wordBefore_boundary (pre : jsstring) :
  wordBefore false pre = false <-> boundaryBefore pre.
Proof.
  unfold boundaryBefore, wordBefore.
  induction pre as [|c p _] using rev_ind.
  - split; [intros _; now left | reflexivity].
  - rewrite fold_left_app. cbn [fold_left]. split.
    + intro H. right. now exists p, c.
    + intros [E | (p' & c' & E & H)].
      * destruct p; discriminate.
      * apply app_inj_tail in E as [_ ->]. exact H.
Qed.

Lemma testSingleLetter_walk (prevWord : bool) (input : jsstring) :
  testSingleLetter prevWord input = true
  <-> exists pre x post,
        input = pre ++ x :: post /\ wordBefore prevWord pre = false
        /\ isLetter x = true /\ boundaryAfter post.
Proof.
  revert prevWord. induction input as [|c rest IH]; intro prevWord.
  - split; [discriminate|]. intros (pre & x & post & E & _).
    destruct pre; discriminate.
  - cbn [testSingleLetter]. rewrite orb_true_iff, IH. split.
    + intros [H | (pre & x & post & E & Hb & Hx & Ha)].
      * apply andb_true_iff in H as [H Ha].
        apply andb_true_iff in H as [Hp Hc].
        exists [], c, rest. repeat split; try assumption.
        -- cbn. now destruct prevWord.
        -- destruct rest as [|d rest']; [now left|].
           right. exists d, rest'. split; [reflexivity|].
           now apply negb_true_iff.
      * exists (c :: pre), x, post. subst rest. repeat split; assumption.
    + intros (pre & x & post & E & Hb & Hx & Ha).
      destruct pre as [|y pre].
      * left. injection E as -> ->. cbn in Hb. subst prevWord.
        rewrite Hx. cbn [negb andb].
        destruct Ha as [-> | (d & p & -> & Hd)]; [reflexivity|].
        now rewrite Hd.
      * right. injection E as -> ->. now exists pre, x, post.
Qed.

Lemma hasVariables_spec (input : jsstring) :
  testSingleLetter false input = true <-> hasSingleLetterToken input.
Proof.
  rewrite testSingleLetter_walk. unfold hasSingleLetterToken.
  split; intros (pre & x & post & E & H1 & H2 & H3); exists pre, x, post.
  - rewrite wordBefore_boundary in H1. tauto.
  - rewrite wordBefore_boundary. tauto.
Qed.

Section GuardFacts.

Context {N : Number}.

Lemma validate_denied (input : jsstring) (w : World) :
  hasDenylistTerm input ->
  validateMathematicalContent input w
  = (Normal {| isValid := false; reason := Some reasonInappropriate |}, w).
Proof.
  intro H. apply includesAny_spec in H.
  unfold validateMathematicalContent. now rewrite H.
Qed.

Lemma validate_accepted (input : jsstring) (w : World) :
  ~ hasDenylistTerm input -> looksMathematical input ->
  validateMathematicalContent input w
  = (Normal {| isValid := true; reason := None |}, w).
Proof.
  intros Hd Hm.
  unfold validateMathematicalContent.
  destruct (existsb _ nonMathKeywords) eqn:E.
  - exfalso. apply Hd. now apply includesAny_spec.
  - assert (T : existsb (fun keyword => includes (toLowerCase input) keyword)
                  mathKeywords
                || testClass (inClass mathSymbols) input
                || (testClass isDigit input && testSingleLetter false input)
                = true).
    { destruct Hm as [Hk | [Hs | [Hn Hv]]].
      - apply includesAny_spec in Hk. now rewrite Hk.
      - apply hasSymbols_spec in Hs. rewrite Hs. now rewrite orb_true_r.
      - apply hasNumbers_spec in Hn. apply hasVariables_spec in Hv.
        rewrite Hn, Hv. now rewrite orb_true_r. }
    now rewrite T.
Qed.

Lemma validate_rejected (input : jsstring) (w : World) :
  ~ hasDenylistTerm input -> ~ looksMathematical input ->
  validateMathematicalContent input w
  = (Normal {| isValid := false; reason := Some reasonNotMath |}, w).
Proof.
  intros Hd Hm.
  unfold validateMathematicalContent.
  destruct (existsb _ nonMathKeywords) eqn:E.
  - exfalso. apply Hd. now apply includesAny_spec.
  - destruct (existsb _ mathKeywords) eqn:Ek.
    { exfalso. apply Hm. left. now apply includesAny_spec. }
    destruct (testClass (inClass mathSymbols) input) eqn:Es.
    { exfalso. apply Hm. right; left. now apply hasSymbols_spec. }
    destruct (testClass isDigit input) eqn:En; [|reflexivity].
    destruct (testSingleLetter false input) eqn:Ev; [|reflexivity].
    exfalso. apply Hm. right; right. split.
    + now apply hasNumbers_spec.
    + now apply hasVariables_spec.
Qed.

(** The guard never throws and never changes the world. *)
Lemma validate_total (input : jsstring) (w : World) :
  exists v, validateMathematicalContent input w = (Normal v, w).
Proof.
  unfold validateMathematicalContent.
  destruct (existsb _ nonMathKeywords); [eexists; reflexivity|].
  destruct (_ || _ || _); eexists; reflexivity.
Qed.

(** C5.  The guard applies three rules in order.  An input containing
    a denylist term (letter case ignored) is rejected with the
    "non-educational or inappropriate" reason.  Otherwise an input
    containing an allowlist keyword, or a mathematical symbol, or both
    a digit and a single-letter token, is accepted.  Any other input is
    rejected with the "doesn't appear to be a mathematical problem"
    reason.  The three sample inputs fall under rules 2, 1 and 3. *)
Theorem validateMathematicalContent_rules :
  (forall (input : jsstring) (w : World),
     exists v,
       validateMathematicalContent input w = (Normal v, w)
       /\ (hasDenylistTerm input ->
           isValid v = false /\ reason v = Some reasonInappropriate)
       /\ (~ hasDenylistTerm input -> looksMathematical input ->
           isValid v = true)
       /\ (~ hasDenylistTerm input -> ~ looksMathematical input ->
           isValid v = false /\ reason v = Some reasonNotMath))
  /\ (forall w : World,
        validateMathematicalContent (js "solve x^2 + 5x + 6 = 0") w
        = (Normal {| isValid := true; reason := None |}, w))
  /\ (forall w : World,
        validateMathematicalContent (js "tell me about politics") w
        = (Normal {| isValid := false; reason := Some reasonInappropriate |}, w))
  /\ (forall w : World,
        validateMathematicalContent (js "hello there") w
        = (Normal {| isValid := false; reason := Some reasonNotMath |}, w))
  /\ includes reasonInappropriate (js "non-educational or inappropriate") = true
  /\ includes reasonNotMath (js "doesn't appear to be a mathematical problem") = true.
Proof.
  split; [|repeat split; intros; vm_compute; reflexivity].
  intros input w.
  destruct (validate_total input w) as (v & E).
  exists v. split; [exact E|]. split; [|split].
  - intro Hd.
    pose proof (validate_denied input w Hd) as E'. rewrite E in E'.
    injection E' as ->. split; reflexivity.
  - intros Hd Hm.
    pose proof (validate_accepted input w Hd Hm) as E'. rewrite E in E'.
    injection E' as ->. reflexivity.
  - intros Hd Hm.
    pose proof (validate_rejected input w Hd Hm) as E'. rewrite E in E'.
    injection E' as ->. split; reflexivity.
Qed.

End GuardFacts.

(** ** Sorting and slicing *)

Section SortFacts.

Context {N : Number} {A : Type} (comparefn : A -> A -> num).

Local Abbreviation goesAfter := (after comparefn).

Lemma insert_Permutation (x : A) (l : list A) :
  Permutation (insert comparefn x l) (x :: l).
Proof.
  induction l as [|y l IH]; simpl; [reflexivity|].
  destruct (goesAfter x y); [|reflexivity].
  rewrite IH. apply perm_swap.
Qed.

Lemma sort_Permutation (l : list A) : Permutation (sort comparefn l) l.
Proof.
  induction l as [|x l IH]; simpl; [reflexivity|].
  rewrite insert_Permutation. now constructor.
Qed.

Lemma sort_length (l : list A) : length (sort comparefn l) = length l.
Proof. apply Permutation_length, sort_Permutation. Qed.

Lemma sort_In (x : A) (l : list A) : In x (sort comparefn l) <-> In x l.
Proof.
  split; apply Permutation_in;
    [apply sort_Permutation | apply Permutation_sym, sort_Permutation].
Qed.

Lemma Consistent_incl (l l' : list A) :
  incl l' l -> Consistent goesAfter l -> Consistent goesAfter l'.
Proof.
  intros Hi H x y z Hx Hy Hz. apply H; apply Hi; assumption.
Qed.

(** Inserting into a sorted list keeps it sorted. *)
Lemma insert_sorted (x : A) (l : list A) :
  Consistent goesAfter (x :: l) ->
  StronglySorted (fun a b => goesAfter a b = false) l ->
  StronglySorted (fun a b => goesAfter a b = false) (insert comparefn x l).
Proof.
  intros Hc Hs. induction Hs as [|y l Hs IH Hy]; simpl.
  - constructor; constructor.
  - destruct (goesAfter x y) eqn:E.
    + constructor.
      * apply IH. apply (Consistent_incl (x :: y :: l)); [|assumption].
        intros a [<-|Ha]; [now left | right; now right].
      * rewrite Forall_forall. intros b Hb.
        apply (Permutation_in _ (insert_Permutation x l)) in Hb.
        destruct Hb as [<-|Hb].
        -- apply (Hc x y y); simpl; auto.
        -- rewrite Forall_forall in Hy. now apply Hy.
    + constructor; [now constructor|].
      constructor; [exact E|].
      rewrite Forall_forall in *. intros b Hb.
      apply (Hc x y b); simpl; auto.
Qed.

Lemma sort_sorted (l : list A) :
  Consistent goesAfter l ->
  StronglySorted (fun a b => goesAfter a b = false) (sort comparefn l).
Proof.
  induction l as [|x l IH]; intro Hc; simpl; [constructor|].
  apply insert_sorted.
  - intros a b c Ha Hb Hc'. apply Hc.
    + destruct Ha as [<-|Ha]; [now left | right; now apply (sort_In a l)].
    + destruct Hb as [<-|Hb]; [now left | right; now apply (sort_In b l)].
    + destruct Hc' as [<-|Hc']; [now left | right; now apply (sort_In c l)].
  - apply IH. apply (Consistent_incl (x :: l)); [|assumption].
    intros a Ha. now right.
Qed.

(** Stability: a predicate that no two strictly ordered elements share
    selects the same sublist before and after sorting. *)
Lemma insert_filter (P : A -> bool) (x : A) (l : list A) :
  (forall y, In y l -> goesAfter x y = true -> P x = true -> P y = true -> False) ->
  filter P (insert comparefn x l) = filter P (x :: l).
Proof.
  induction l as [|y l IH]; intro H; [reflexivity|].
  cbn [insert]. destruct (goesAfter x y) eqn:E; [|reflexivity].
  cbn [filter]. rewrite IH by (intros z Hz; apply H; now right).
  cbn [filter].
  destruct (P x) eqn:Px, (P y) eqn:Py; try reflexivity.
  exfalso. apply (H y); auto. now left.
Qed.

Lemma sort_filter (P : A -> bool) (l : list A) :
  (forall x y, In x l -> In y l ->
     goesAfter x y = true -> P x = true -> P y = true -> False) ->
  filter P (sort comparefn l) = filter P l.
Proof.
  induction l as [|x l IH]; intro H; [reflexivity|].
  cbn [sort]. rewrite insert_filter.
  - cbn [filter]. rewrite IH; [reflexivity|].
    intros a b Ha Hb. apply H; now right.
  - intros y Hy. apply (sort_In y l) in Hy. apply H; [now left | now right].
Qed.

(** What the sort guarantees for any comparator, consistent or not:
    an element is never moved behind a later one that the comparator
    does not put before it. *)
Lemma insert_precedes (x a b : A) (l : list A) :
  precedes a b l -> precedes a b (insert comparefn x l).
Proof.
  induction l as [|y l IH]; cbn [insert precedes]; [tauto|].
  intro H. destruct (goesAfter x y); cbn [precedes]; [|right; exact H].
  destruct H as [[-> Hb] | H].
  - left. split; [reflexivity|].
    apply (Permutation_in _ (Permutation_sym (insert_Permutation x l))).
    now right.
  - right. now apply IH.
Qed.

Lemma insert_first (a b : A) (l : list A) :
  goesAfter a b = false -> In b l -> precedes a b (insert comparefn a l).
Proof.
  intros Hab. induction l as [|y l IH]; intro Hb; [contradiction|].
  cbn [insert]. destruct (goesAfter a y) eqn:E; cbn [precedes].
  - right. apply IH. destruct Hb as [->|Hb]; [congruence | exact Hb].
  - left. split; [reflexivity | exact Hb].
Qed.

Lemma sort_precedes (a b : A) (l : list A) :
  goesAfter a b = false -> precedes a b l -> precedes a b (sort comparefn l).
Proof.
  intro Hab. induction l as [|x l IH]; cbn [sort precedes]; [tauto|].
  intros [[-> Hb] | H].
  - apply insert_first; [exact Hab | now apply sort_In].
  - now apply insert_precedes, IH.
Qed.

(** For an asymmetric comparator the sorted list is locally sorted:
    no element goes after its successor. *)
Section LocalOrder.

Hypothesis after_asym :
  forall a b, goesAfter a b = true -> goesAfter b a = false.

Lemma insert_Sorted (x : A) (l : list A) :
  Sorted (fun a b => goesAfter a b = false) l ->
  Sorted (fun a b => goesAfter a b = false) (insert comparefn x l).
Proof.
  induction 1 as [|y l Hs IH Hy]; cbn [insert].
  - repeat constructor.
  - destruct (goesAfter x y) eqn:E.
    + constructor; [exact IH|].
      destruct l as [|z l']; cbn [insert].
      * constructor. now apply after_asym.
      * destruct (goesAfter x z).
        -- constructor. now inversion Hy.
        -- constructor. now apply after_asym.
    + constructor; [now constructor|]. constructor. exact E.
Qed.

Lemma sort_Sorted (l : list A) :
  Sorted (fun a b => goesAfter a b = false) (sort comparefn l).
Proof.
  induction l as [|x l IH]; cbn [sort]; [constructor|].
  now apply insert_Sorted.
Qed.

End LocalOrder.

End SortFacts.

Lemma In_firstn {A : Type} (n : nat) (l : list A) (x : A) :
  In x (firstn n l) -> In x l.
Proof.
  revert l. induction n as [|n IH]; intros [|y l] H; simpl in *; try contradiction.
  destruct H as [->|H]; [now left | right; now apply IH].
Qed.

Lemma slice0_length {A : Type} (end_ : Z) (l : list A) :
  Z.of_nat (length (slice0 end_ l))
  = if end_ <? 0 then Z.max (Z.of_nat (length l) + end_) 0
    else Z.min end_ (Z.of_nat (length l)).
Proof.
  unfold slice0. rewrite length_firstn.
  destruct (end_ <? 0) eqn:E.
  - apply Z.ltb_lt in E. lia.
  - apply Z.ltb_ge in E. lia.
Qed.

Lemma slice0_firstn {A : Type} (end_ : Z) (l : list A) :
  0 <= end_ -> slice0 end_ l = firstn (Z.to_nat end_) l.
Proof.
  intro H. unfold slice0.
  replace (end_ <? 0) with false by (symmetry; apply Z.ltb_ge; exact H).
  destruct (Z.min_spec end_ (Z.of_nat (length l))) as [[Hlt ->]|[Hge ->]].
  - reflexivity.
  - rewrite Nat2Z.id. rewrite firstn_all.
    symmetry. apply firstn_all2. lia.
Qed.

Lemma slice0_In {A : Type} (end_ : Z) (l : list A) (x : A) :
  In x (slice0 end_ l) -> In x l.
Proof. unfold slice0. apply In_firstn. Qed.

Lemma StronglySorted_firstn {A : Type} (R : A -> A -> Prop) (n : nat) (l : list A) :
  StronglySorted R l -> StronglySorted R (firstn n l).
Proof.
  intro H. revert n. induction H as [|x l Hs IH Hx]; intro n.
  - rewrite firstn_nil. constructor.
  - destruct n as [|n]; [constructor|]. cbn [firstn].
    constructor; [apply IH|].
    rewrite Forall_forall in *. intros y Hy. apply Hx.
    eapply In_firstn. exact Hy.
Qed.

Lemma Sorted_firstn {A : Type} (R : A -> A -> Prop) (n : nat) (l : list A) :
  Sorted R l -> Sorted R (firstn n l).
Proof.
  intro H. revert n. induction H as [|a l Hs IH Ha]; intro n.
  - rewrite firstn_nil. constructor.
  - destruct n as [|n]; cbn [firstn]; [constructor|].
    constructor; [apply IH|].
    destruct Ha as [|b l Hab]; [rewrite firstn_nil; constructor|].
    destruct n; cbn [firstn]; constructor. exact Hab.
Qed.

Lemma Sorted_weaken {A : Type} (R R' : A -> A -> Prop) (l : list A) :
  (forall a b, R a b -> R' a b) -> Sorted R l -> Sorted R' l.
Proof.
  intros H S. induction S as [|a l S IH Ha]; constructor; [exact IH|].
  destruct Ha; constructor. now apply H.
Qed.

(** A locally sorted list is sorted throughout when the relation is
    transitive on its elements. *)
Lemma Sorted_StronglySorted_on {A : Type} (R : A -> A -> Prop) (l : list A) :
  (forall a b c, In a l -> In b l -> In c l -> R a b -> R b c -> R a c) ->
  Sorted R l -> StronglySorted R l.
Proof.
  intros T S. induction S as [|a l S IH Ha]; constructor.
  - apply IH. intros x y z Hx Hy Hz. apply T; now right.
  - assert (SS : StronglySorted R l).
    { apply IH. intros x y z Hx Hy Hz. apply T; now right. }
    destruct Ha as [|b l' Hab]; constructor; [exact Hab|].
    apply StronglySorted_inv in SS as [_ Hb].
    rewrite Forall_forall in *. intros c Hc.
    apply (T a b c); [now left | right; now left | right; now right | exact Hab |].
    now apply Hb.
Qed.

(** ** The knowledge store *)

Lemma StronglySorted_weaken {A : Type} (R R' : A -> A -> Prop) (l : list A) :
  (forall a b, In a l -> In b l -> R a b -> R' a b) ->
  StronglySorted R l -> StronglySorted R' l.
Proof.
  intros H Hs. induction Hs as [|x l Hs IH Hx]; constructor.
  - apply IH. intros a b Ha Hb. apply H; now right.
  - rewrite Forall_forall in *. intros y Hy.
    apply H; [now left | now right | now apply Hx].
Qed.

Section StoreFacts.

Context {N : Number} {L : MathLib N}.

(** A search completes normally and leaves the world as it was. *)
Lemma searchSimilarProblems_eq (query : jsstring) (limit : option Z) (w : World) :
  searchSimilarProblems query limit w
  = (Normal (slice0 (match limit with Some l => l | None => 5 end)
                    (sort bySimilarity (scored query w))), w).
Proof. reflexivity. Qed.

Lemma In_scored (query : jsstring) (w : World) (r : VectorSearchResult) :
  In r (scored query w)
  <-> exists e, In e (problems w)
        /\ r = scoreAgainst (generateMockEmbedding query) e.
Proof.
  unfold scored. rewrite in_map_iff. split; intros (e & H1 & H2); exists e.
  - now split.
  - now split.
Qed.

Lemma after_bySimilarity (a b : VectorSearchResult) :
  OrderedDifferences ->
  after bySimilarity a b = gtb (similarity b) (similarity a).
Proof. intros [H _]. unfold after, bySimilarity. apply H. Qed.

(** C3, as amended.  For every query and every limit that is not
    negative, the search returns at most [limit] results, the first
    [limit] of a ranking of the scored entries in which no result's
    score is greater than that of the result before it and in which an
    entry is never placed behind one stored later, unless that one's
    score is greater (so tied scores keep the order of the store); the
    world, and with it the store's entries, is unchanged.  This holds
    on every number structure in which the sign of a difference agrees
    with [>] and [>] is asymmetric, as in binary64. *)
Theorem searchSimilarProblems_order (query : jsstring) (limit : Z) (w : World) :
  OrderedDifferences ->
  0 <= limit ->
  RankedByScore query limit w.
Proof.
  intros Hord Hl.
  assert (Hloc : Sorted descending (sort bySimilarity (scored query w))).
  { apply (Sorted_weaken (fun a b => after bySimilarity a b = false)).
    - intros a b H. unfold descending.
      rewrite <- (after_bySimilarity a b Hord). exact H.
    - apply sort_Sorted. intros a b.
      rewrite !after_bySimilarity by exact Hord. apply Hord. }
  exists (slice0 limit (sort bySimilarity (scored query w))),
         (sort bySimilarity (scored query w)).
  split; [apply searchSimilarProblems_eq|].
  split.
  { rewrite slice0_length.
    replace (limit <? 0) with false by (symmetry; apply Z.ltb_ge; exact Hl).
    lia. }
  split; [now apply slice0_firstn|].
  split; [apply sort_Permutation|].
  split; [exact Hloc|].
  split; [rewrite slice0_firstn by assumption; now apply Sorted_firstn|].
  split.
  { intros a b Hab Hd. apply sort_precedes; [|exact Hab].
    rewrite (after_bySimilarity a b Hord). exact Hd. }
  intro T.
  assert (SS : StronglySorted descending (sort bySimilarity (scored query w))).
  { apply Sorted_StronglySorted_on; [|exact Hloc].
    intros a b c Ha Hb Hc Hab Hbc. unfold descending in *.
    apply (sort_In bySimilarity a (scored query w)) in Ha.
    apply (sort_In bySimilarity b (scored query w)) in Hb.
    apply (sort_In bySimilarity c (scored query w)) in Hc.
    apply (T (similarity c) (similarity b) (similarity a));
      try (apply in_map; assumption); assumption. }
  split; [exact SS|].
  rewrite slice0_firstn by assumption. now apply StronglySorted_firstn.
Qed.

(** [slice(0, limit)] with a negative limit drops elements from the
    end instead of returning none. *)
Lemma searchSimilarProblems_length (query : jsstring) (limit : Z) (w : World) :
  exists out,
    searchSimilarProblems query (Some limit) w = (Normal out, w)
    /\ Z.of_nat (length out)
       = if limit <? 0 then Z.max (Z.of_nat (length (problems w)) + limit) 0
         else Z.min limit (Z.of_nat (length (problems w))).
Proof.
  eexists. split; [apply searchSimilarProblems_eq|].
  rewrite slice0_length, sort_length. unfold scored. now rewrite length_map.
Qed.

End StoreFacts.

Lemma Rgtb_true (x y : R) : Exact.Rgtb x y = true <-> (x > y)%R.
Proof.
  unfold Exact.Rgtb. destruct (Rgt_dec x y); split; intro H;
    try assumption; try reflexivity; [discriminate | contradiction].
Qed.

Lemma Rgtb_false (x y : R) : Exact.Rgtb x y = false <-> (x <= y)%R.
Proof.
  unfold Exact.Rgtb. destruct (Rgt_dec x y); split; intro H;
    try reflexivity; try discriminate; lra.
Qed.

Lemma Demo_problems :
  length (problems Demo.world0) = 3%nat.
Proof. reflexivity. Qed.

(** Binary64 and the real numbers both have the two laws. *)
Lemma Binary64_OrderedDifferences : @OrderedDifferences Binary64.number.
Proof.
  split; intros x y; cbn [gtb sub ofZ Binary64.number].
  - apply Binary64Order.ltb_sub_sign.
  - apply Binary64Order.ltb_asym.
Qed.

Lemma Exact_OrderedDifferences : @OrderedDifferences Exact.number.
Proof.
  split; intros x y; cbn [gtb sub ofZ Exact.number].
  - destruct (Exact.Rgtb y x) eqn:E.
    + apply Rgtb_true in E. apply Rgtb_true. lra.
    + apply Rgtb_false in E. apply Rgtb_false. lra.
  - rewrite Rgtb_true, Rgtb_false. lra.
Qed.

Lemma searchSimilarProblems_order_witness :
  @OrderedDifferences Binary64.number
  /\ @OrderedDifferences Exact.number
  /\ 0 <= 3
  /\ @RankedByScore Exact.number Exact.mathLib (js "triangle area") 3 Demo.world0.
Proof.
  assert (H1 : 0 <= 3) by lia.
  split; [exact Binary64_OrderedDifferences|].
  split; [exact Exact_OrderedDifferences|].
  split; [exact H1|].
  exact (@searchSimilarProblems_order Exact.number Exact.mathLib
           (js "triangle area") 3 Demo.world0 Exact_OrderedDifferences H1).
Defined.

(** C3, as stated, fails for a negative limit: on the initial store,
    [searchSimilarProblems(query, -1)] returns two results, which is
    more than the limit. *)
Lemma searchSimilarProblems_negative_limit :
  exists out,
    @searchSimilarProblems Exact.number Exact.mathLib
      (js "triangle area") (Some (-1)) Demo.world0
    = (Normal out, Demo.world0)
    /\ length out = 2%nat
    /\ ~ (Z.of_nat (length out) <= -1).
Proof.
  destruct (@searchSimilarProblems_length Exact.number Exact.mathLib
              (js "triangle area") (-1) Demo.world0) as (out & E & Hlen).
  exists out. split; [exact E|].
  rewrite Demo_problems in Hlen. cbn in Hlen.
  split; lia.
Qed.

(** ** Insertion into the store *)

Lemma toLowerCase_changes (p : jsstring) :
  (exists c, In c p /\ 65 <= c <= 90) -> toLowerCase p <> p.
Proof.
  intros (c & Hin & Hc) E. unfold toLowerCase in E.
  assert (H : lowerUnit c = c).
  { clear Hc. induction p as [|x p IH]; [contradiction|].
    cbn [map] in E. injection E as Ex Ep.
    destruct Hin as [->|Hin]; [exact Ex | now apply IH]. }
  unfold lowerUnit in H.
  replace ((65 <=? c) && (c <=? 90)) with true in H; [lia|].
  symmetry. apply andb_true_iff. split; apply Z.leb_le; lia.
Qed.

Section InsertFacts.

Context {N : Number} {L : MathLib N}.

(** C10.  [addProblem(p, solution, category)] appends exactly one entry
    and changes nothing else.  The entry's text is the lower-case form
    of [p] (different from [p] whenever [p] has an upper-case letter);
    its embedding is computed from [p] and equals the embedding of the
    stored text.  In every later search the result scored from this
    entry carries the lower-case text, every other result comes from an
    older entry, and the new result is returned whenever the limit
    covers the whole store. *)
Theorem addProblem_stores_lowercase
    (p : jsstring) (solution : Solution) (category : jsstring) (w : World) :
  exists w',
    addProblem p solution category w = (Normal tt, w')
    /\ problems w' = problems w ++ [pushed p solution category]
    /\ storage w' = storage w /\ host w' = host w
    /\ kb_problem (pushed p solution category) = toLowerCase p
    /\ ((exists c, In c p /\ 65 <= c <= 90) ->
        kb_problem (pushed p solution category) <> p)
    /\ kb_embedding (pushed p solution category) = generateMockEmbedding p
    /\ kb_embedding (pushed p solution category)
       = generateMockEmbedding (kb_problem (pushed p solution category))
    /\ forall (query : jsstring) (limit : option Z),
         let hit := scoreAgainst (generateMockEmbedding query)
                      (pushed p solution category) in
         exists out,
           searchSimilarProblems query limit w' = (Normal out, w')
           /\ problem hit = toLowerCase p
           /\ (forall r, In r out -> In r (scored query w) \/ r = hit)
           /\ (forall l, limit = Some l ->
                 Z.of_nat (length (problems w')) <= l -> In hit out).
Proof.
  exists {| problems := problems w ++ [pushed p solution category];
            storage := storage w; host := host w |}.
  split; [reflexivity|]. cbn [problems storage host].
  split; [reflexivity|]. split; [reflexivity|]. split; [reflexivity|].
  split; [reflexivity|].
  split; [intro H; now apply toLowerCase_changes|].
  split; [reflexivity|].
  split.
  { cbn [pushed kb_embedding kb_problem].
    symmetry. apply generateMockEmbedding_toLowerCase. }
  intros query limit.
  set (hit := scoreAgainst (generateMockEmbedding query)
                (pushed p solution category)).
  eexists. split; [apply searchSimilarProblems_eq|].
  split; [reflexivity|].
  assert (S : scored query
                {| problems := problems w ++ [pushed p solution category];
                   storage := storage w; host := host w |}
              = scored query w ++ [hit]).
  { unfold scored. cbn [problems]. now rewrite map_app. }
  split.
  - intros r Hr. apply slice0_In in Hr.
    apply (proj1 (sort_In bySimilarity r _)) in Hr.
    rewrite S in Hr. apply in_app_or in Hr as [Hr | [<- | []]]; auto.
  - intros l -> Hl. cbn [problems] in Hl.
    rewrite slice0_firstn by lia.
    rewrite firstn_all2.
    + apply (proj2 (sort_In bySimilarity hit _)). rewrite S.
      apply in_or_app. right. now left.
    + rewrite sort_length. unfold scored. rewrite length_map.
      cbn [problems]. lia.
Qed.

End InsertFacts.

(** ** Computations *)

(** Run the state-passing layer of a computation, and nothing else. *)
Ltac run :=
  cbv beta iota zeta delta
    [bind ret get put throw tryCatch Date_now randomUUID
     createActivity createMathProblem].

Section MonadFacts.

Context {N : Number}.

Lemma bind_Normal {A B : Type} (m : M A) (k : A -> M B) (w w' : World) (a : A) :
  m w = (Normal a, w') -> bind m k w = k a w'.
Proof. intro H. unfold bind. now rewrite H. Qed.

Lemma bind_Throw {A B : Type} (m : M A) (k : A -> M B) (w w' : World)
    (e : jsstring) :
  m w = (Throw e, w') -> bind m k w = (Throw e, w').
Proof. intro H. unfold bind. now rewrite H. Qed.

Lemma tryCatch_Normal {A : Type} (body : M A) (handler : jsstring -> M A)
    (w w' : World) (a : A) :
  body w = (Normal a, w') -> tryCatch body handler w = (Normal a, w').
Proof. intro H. unfold tryCatch. now rewrite H. Qed.

Lemma Map_set_In {V : Type} (key : jsstring) (value : V) (m : Map V) :
  In value (map snd (Map_set key value m)).
Proof.
  induction m as [|[k v] m IH]; simpl; [now left|].
  destruct (jsstring_eqb k key); simpl; [now left | now right].
Qed.

(** [Date.now()] only advances the clock. *)
Lemma Date_now_spec (w : World) :
  exists t w', Date_now w = (Normal t, w')
    /\ problems w' = problems w /\ storage w' = storage w.
Proof. do 2 eexists. split; [run; reflexivity|]. split; reflexivity. Qed.

(** [createActivity] completes, leaving the store and the problem
    records as they were. *)
Lemma createActivity_spec (insertActivity : InsertActivity) (w : World) :
  exists a w', createActivity insertActivity w = (Normal a, w')
    /\ problems w' = problems w
    /\ mathProblems (storage w') = mathProblems (storage w).
Proof. do 2 eexists. split; [run; reflexivity|]. split; reflexivity. Qed.

(** [createMathProblem] completes, leaving the store as it was; the
    record it returns is in the map. *)
Lemma createMathProblem_spec (insertProblem : InsertMathProblem) (w : World) :
  exists p w', createMathProblem insertProblem w = (Normal p, w')
    /\ problems w' = problems w
    /\ In p (map snd (mathProblems (storage w')))
    /\ mp_solution p = imp_solution insertProblem
    /\ mp_source p = imp_source insertProblem.
Proof.
  do 2 eexists. split; [run; reflexivity|]. split; [reflexivity|].
  split; [apply Map_set_In|]. split; reflexivity.
Qed.

End MonadFacts.

(** ** The routing agent *)

Section AgentFacts.

Context {N : Number} {L : MathLib N}.

Lemma searchMathematicalContent_eq (query : jsstring) (w : World) :
  searchMathematicalContent query w = (Normal mockResults, w).
Proof. reflexivity. Qed.

Lemma answerFromKnowledgeBase_spec (request : MathSolutionRequest)
    (startTime : Z) (bestMatch : VectorSearchResult) (w : World) :
  exists response w',
    answerFromKnowledgeBase request startTime bestMatch w = (Normal response, w')
    /\ res_source response = knowledge_base
    /\ res_solution response = solution bestMatch
    /\ res_category response = Some (category bestMatch)
    /\ problems w' = problems w
    /\ exists record, In record (map snd (mathProblems (storage w')))
         /\ mp_id record = res_problemId response
         /\ mp_solution record = res_solution response
         /\ mp_source record = js "knowledge_base".
Proof.
  unfold answerFromKnowledgeBase.
  match goal with |- context [bind (createMathProblem ?i) _] =>
    destruct (createMathProblem_spec i w) as (p & w1 & E1 & P1 & I1 & S1 & T1)
  end.
  match goal with |- context [bind (createActivity ?i) _] =>
    destruct (createActivity_spec i w1) as (a & w2 & E2 & P2 & M2)
  end.
  destruct (Date_now_spec w2) as (t & w3 & E3 & P3 & St3).
  rewrite (bind_Normal _ _ _ _ _ E1), (bind_Normal _ _ _ _ _ E2),
    (bind_Normal _ _ _ _ _ E3).
  do 2 eexists. split; [reflexivity|].
  repeat (split; [reflexivity|]).
  split; [congruence|].
  exists p. rewrite St3, M2. repeat split; assumption.
Qed.

Lemma answerFromWebSearch_spec (request : MathSolutionRequest)
    (startTime : Z) (w : World) :
  exists response w',
    answerFromWebSearch request startTime w = (Normal response, w')
    /\ res_source response = web_search
    /\ fallbackAsBuilt mockResults (res_solution response)
    /\ res_category response = Some (js "advanced")
    /\ problems w' = problems w
    /\ exists record, In record (map snd (mathProblems (storage w')))
         /\ mp_id record = res_problemId response
         /\ mp_solution record = res_solution response
         /\ mp_source record = js "web_search".
Proof.
  unfold answerFromWebSearch.
  rewrite (bind_Normal _ _ _ _ _ (searchMathematicalContent_eq _ w)).
  destruct (generateSolutionFromSearch_built (req_problem request) mockResults w)
    as (doc & E0 & B).
  rewrite (bind_Normal _ _ _ _ _ E0).
  match goal with |- context [bind (createMathProblem ?i) _] =>
    destruct (createMathProblem_spec i w) as (p & w1 & E1 & P1 & I1 & S1 & T1)
  end.
  match goal with |- context [bind (createActivity ?i) _] =>
    destruct (createActivity_spec i w1) as (a & w2 & E2 & P2 & M2)
  end.
  destruct (Date_now_spec w2) as (t & w3 & E3 & P3 & St3).
  rewrite (bind_Normal _ _ _ _ _ E1), (bind_Normal _ _ _ _ _ E2),
    (bind_Normal _ _ _ _ _ E3).
  do 2 eexists. split; [reflexivity|].
  split; [reflexivity|]. split; [exact B|]. split; [reflexivity|].
  split; [congruence|].
  exists p. rewrite St3, M2. repeat split; assumption.
Qed.

Lemma aboveThreshold_true (similarProblems : list VectorSearchResult) :
  aboveThreshold similarProblems = true <-> confidentHit similarProblems.
Proof.
  unfold confidentHit. destruct similarProblems as [|b rest]; cbn [aboveThreshold].
  - split; [discriminate | intros (b & r & E & _); discriminate].
  - split.
    + intro H. now exists b, rest.
    + intros (b' & r' & E & H). injection E as -> ->. exact H.
Qed.

Lemma aboveThreshold_false (similarProblems : list VectorSearchResult) :
  aboveThreshold similarProblems = false <-> noConfidentHit similarProblems.
Proof.
  unfold noConfidentHit. destruct similarProblems as [|b rest]; cbn [aboveThreshold].
  - split; [now left | reflexivity].
  - split.
    + intro H. right. now exists b, rest.
    + intros [E | (b' & r' & E & H)]; [discriminate|].
      injection E as -> ->. exact H.
Qed.

Lemma route_eq (request : MathSolutionRequest) (startTime : Z) (w : World) :
  route request startTime w
  = match topThree request w with
    | bestMatch :: _ =>
      if aboveThreshold (topThree request w)
      then answerFromKnowledgeBase request startTime bestMatch w
      else answerFromWebSearch request startTime w
    | [] => answerFromWebSearch request startTime w
    end.
Proof.
  unfold route.
  rewrite (bind_Normal _ _ _ _ _ (searchSimilarProblems_eq _ _ w)).
  fold (topThree request w).
  destruct (topThree request w) as [|bestMatch rest]; [reflexivity|].
  destruct (aboveThreshold (bestMatch :: rest)); reflexivity.
Qed.

Lemma topThree_problems (request : MathSolutionRequest) (w1 w2 : World) :
  problems w1 = problems w2 -> topThree request w1 = topThree request w2.
Proof. intro H. unfold topThree, scored. now rewrite H. Qed.

Lemma topThree_In (request : MathSolutionRequest) (w : World)
    (r : VectorSearchResult) :
  In r (topThree request w) ->
  exists e, In e (problems w)
    /\ solution r = kb_solution e /\ category r = kb_category e.
Proof.
  intro H. unfold topThree in H. apply slice0_In in H.
  apply (proj1 (sort_In bySimilarity r _)) in H.
  apply In_scored in H as (e & He & ->). now exists e.
Qed.

(** The two ways [route] can end, told apart by the threshold test. *)
Lemma route_cases (request : MathSolutionRequest) (startTime : Z) (w : World) :
  exists response w',
    route request startTime w = (Normal response, w')
    /\ problems w' = problems w
    /\ ((aboveThreshold (topThree request w) = true
         /\ res_source response = knowledge_base
         /\ (exists bestMatch rest,
               topThree request w = bestMatch :: rest
               /\ res_solution response = solution bestMatch
               /\ res_category response = Some (category bestMatch))
         /\ takenFromStore w w' response)
        \/ (aboveThreshold (topThree request w) = false
            /\ res_source response = web_search
            /\ producedByFallback w' response)).
Proof.
  rewrite route_eq.
  destruct (answerFromWebSearch_spec request startTime w)
    as (rw & ww & Ew & Tw & Bw & Cw & Pw & Rw).
  assert (Web : aboveThreshold (topThree request w) = false ->
    exists response w',
      answerFromWebSearch request startTime w = (Normal response, w')
      /\ problems w' = problems w
      /\ ((aboveThreshold (topThree request w) = true
           /\ res_source response = knowledge_base
           /\ (exists bestMatch rest,
                 topThree request w = bestMatch :: rest
                 /\ res_solution response = solution bestMatch
                 /\ res_category response = Some (category bestMatch))
           /\ takenFromStore w w' response)
          \/ (aboveThreshold (topThree request w) = false
              /\ res_source response = web_search
              /\ producedByFallback w' response))).
  { intro Hf. exists rw, ww. split; [exact Ew|]. split; [exact Pw|].
    right. split; [exact Hf|]. split; [exact Tw|].
    split; [exact Bw|]. split; [exact Cw | exact Rw]. }
  destruct (topThree request w) as [|bestMatch rest] eqn:Top.
  - apply Web. reflexivity.
  - destruct (aboveThreshold (bestMatch :: rest)) eqn:Hit; [|apply Web; reflexivity].
    destruct (answerFromKnowledgeBase_spec request startTime bestMatch w)
      as (rk & wk & Ek & Tk & Sk & Ck & Pk & Rk).
    exists rk, wk. split; [exact Ek|]. split; [exact Pk|].
    left. split; [reflexivity|]. split; [exact Tk|].
    split; [exists bestMatch, rest; repeat split; assumption|].
    split; [|exact Rk].
    destruct (topThree_In request w bestMatch) as (e & He & Es & Ec).
    { rewrite Top. left. reflexivity. }
    exists e. split; [exact He|]. split; congruence.
Qed.

(** C1.  For every query the agent searches the three best matches and
    then answers from the knowledge base if and only if the search
    returned a non-empty sequence whose first score is greater than
    0.7; in every other case (nothing returned, or a first score not
    greater than 0.7) it answers through the web-search fallback.
    Either way the routing completes normally: it never throws. *)
Theorem route_decision (request : MathSolutionRequest) (startTime : Z)
    (w : World) :
  exists similarProblems response w',
    searchSimilarProblems (req_problem request) (Some 3) w
    = (Normal similarProblems, w)
    /\ route request startTime w = (Normal response, w')
    /\ (res_source response = knowledge_base <-> confidentHit similarProblems)
    /\ (res_source response = web_search <-> noConfidentHit similarProblems)
    /\ (confidentHit similarProblems ->
        exists bestMatch rest,
          similarProblems = bestMatch :: rest
          /\ res_solution response = solution bestMatch
          /\ res_category response = Some (category bestMatch))
    /\ (noConfidentHit similarProblems ->
        fallbackAsBuilt mockResults (res_solution response)
        /\ res_category response = Some (js "advanced")).
Proof.
  exists (topThree request w).
  destruct (route_cases request startTime w)
    as (response & w' & E & _ & [(Hit & Tag & Best & _) | (Miss & Tag & Fb & Cat & _)]);
    exists response, w'.
  - split; [apply searchSimilarProblems_eq|]. split; [exact E|].
    rewrite <- aboveThreshold_true, <- aboveThreshold_false, Hit, Tag.
    split; [tauto|]. split; [split; discriminate|].
    split; [intros _; exact Best | discriminate].
  - split; [apply searchSimilarProblems_eq|]. split; [exact E|].
    rewrite <- aboveThreshold_true, <- aboveThreshold_false, Miss, Tag.
    split; [split; discriminate|]. split; [tauto|].
    split; [discriminate | intros _; split; assumption].
Qed.

End AgentFacts.

(** ** The whole request *)

Section SolveFacts.

Context {N : Number} {L : MathLib N}.

(** The verdict of the guard does not depend on the world. *)
Lemma validate_indep (input : jsstring) (w1 w2 : World) (v : Validation) :
  validateMathematicalContent input w1 = (Normal v, w1) ->
  validateMathematicalContent input w2 = (Normal v, w2).
Proof.
  unfold validateMathematicalContent.
  destruct (existsb _ nonMathKeywords).
  - unfold ret. intro H. injection H as <-. reflexivity.
  - destruct (_ || _ || _); unfold ret; intro H; injection H as <-; reflexivity.
Qed.

Lemma reasonInappropriate_cons : exists c s, reasonInappropriate = c :: s.
Proof. vm_compute. do 2 eexists. reflexivity. Qed.

Lemma reasonNotMath_cons : exists c s, reasonNotMath = c :: s.
Proof. vm_compute. do 2 eexists. reflexivity. Qed.

Lemma orElse_cons {A : Type} (c : Z) (s : jsstring) (d : A) (f : jsstring -> A) :
  orElse (Some (c :: s)) d f = f (c :: s).
Proof. reflexivity. Qed.

(** A rejection always carries one of the two reasons, and the message
    thrown for it is that reason. *)
Lemma validate_rejection (input : jsstring) (w : World) (v : Validation) :
  validateMathematicalContent input w = (Normal v, w) ->
  isValid v = false ->
  exists why,
    reason v = Some why
    /\ (why = reasonInappropriate \/ why = reasonNotMath)
    /\ orElse (reason v) (js "Invalid mathematical content") (fun r => r) = why.
Proof.
  unfold validateMathematicalContent.
  destruct (existsb _ nonMathKeywords).
  - unfold ret. intros H _. injection H as <-.
    exists reasonInappropriate. split; [reflexivity|].
    split; [left; reflexivity|]. cbn [reason].
    destruct reasonInappropriate_cons as (c & s & ->). apply orElse_cons.
  - destruct (_ || _ || _); unfold ret; intros H Hv; injection H as <-.
    + discriminate.
    + exists reasonNotMath. split; [reflexivity|].
      split; [right; reflexivity|]. cbn [reason].
      destruct reasonNotMath_cons as (c & s & ->). apply orElse_cons.
Qed.

(** One run of [solveProblem], by the verdict of the guard. *)
Lemma solveProblem_cases (request : MathSolutionRequest) (w : World) :
  exists v outcome w',
    validateMathematicalContent (req_problem request) w = (Normal v, w)
    /\ solveProblem request w = (outcome, w')
    /\ problems w' = problems w
    /\ ((isValid v = false
         /\ (exists why, reason v = Some why /\ outcome = Throw why
               /\ (why = reasonInappropriate \/ why = reasonNotMath))
         /\ storage w' = storage w)
        \/ (isValid v = true
            /\ exists response, outcome = Normal response
                 /\ ((aboveThreshold (topThree request w) = true
                      /\ res_source response = knowledge_base
                      /\ takenFromStore w w' response)
                     \/ (aboveThreshold (topThree request w) = false
                         /\ res_source response = web_search
                         /\ producedByFallback w' response)))).
Proof.
  destruct (Date_now_spec w) as (startTime & w1 & E1 & P1 & S1).
  destruct (validate_total (req_problem request) w1) as (v & Ev).
  pose proof (validate_indep _ w1 w v Ev) as Ev0.
  exists v.
  unfold solveProblem.
  rewrite (bind_Normal _ _ _ _ _ E1), (bind_Normal _ _ _ _ _ Ev).
  destruct (isValid v) eqn:Hv; cbn [negb].
  - match goal with |- context [bind (createActivity ?i) _] =>
      destruct (createActivity_spec i w1) as (a & w2 & E2 & P2 & M2)
    end.
    rewrite (bind_Normal _ _ _ _ _ E2).
    destruct (route_cases request startTime w2)
      as (response & w3 & Er & P3 & Cases).
    rewrite (tryCatch_Normal _ _ _ _ _ Er).
    assert (Pw : problems w2 = problems w) by congruence.
    rewrite (topThree_problems request w2 w Pw) in Cases.
    exists (Normal response), w3.
    split; [exact Ev0|]. split; [reflexivity|]. split; [congruence|].
    right. split; [reflexivity|]. exists response. split; [reflexivity|].
    destruct Cases as [(Hit & Tag & _ & (e & He & Hs & Hc) & Rec)
                      | (Miss & Tag & Fb)].
    + left. split; [exact Hit|]. split; [exact Tag|].
      split; [|exact Rec].
      exists e. rewrite <- Pw. repeat split; assumption.
    + right. split; [exact Miss|]. split; [exact Tag | exact Fb].
  - destruct (validate_rejection _ w1 v Ev Hv) as (why & Hr & Hw & Ho).
    rewrite Ho. unfold throw.
    exists (Throw why), w1.
    split; [exact Ev0|]. split; [reflexivity|]. split; [exact P1|].
    left. split; [reflexivity|]. split; [|exact S1].
    exists why. repeat split; assumption.
Qed.

(** The routing version.  For every solve request that returns a
    response, the source
    tag is [knowledge_base] exactly when the answer took the
    knowledge-base branch, and then the solution and category are those
    of an entry of the store and the problem record written says
    "knowledge_base"; it is [web_search] exactly when the answer took
    the fallback branch, and then the solution is the document of the
    fallback responder and the record says "web_search".  The tag is
    never the same for both branches. *)
Lemma solveProblem_source_tag (request : MathSolutionRequest) (w : World) :
  exists outcome w',
    solveProblem request w = (outcome, w')
    /\ forall response, outcome = Normal response ->
         (res_source response = knowledge_base
          <-> aboveThreshold (topThree request w) = true)
         /\ (res_source response = web_search
             <-> aboveThreshold (topThree request w) = false)
         /\ (res_source response = knowledge_base ->
             takenFromStore w w' response)
         /\ (res_source response = web_search ->
             producedByFallback w' response).
Proof.
  destruct (solveProblem_cases request w)
    as (v & outcome & w' & _ & E & _ & Cases).
  exists outcome, w'. split; [exact E|].
  intros response ->.
  destruct Cases as [(_ & (why & _ & D & _) & _) | (_ & r & D & Branch)];
    [discriminate|].
  injection D as <-.
  destruct Branch as [(Hit & Tag & T) | (Miss & Tag & F)]; rewrite Tag.
  - rewrite Hit. split; [tauto|]. split; [split; discriminate|].
    split; [intros _; exact T | discriminate].
  - rewrite Miss. split; [split; discriminate|]. split; [tauto|].
    split; [discriminate | intros _; exact F].
Qed.

(** The routing version.  For every solve request, [solveProblem]
    throws the guard's
    reason exactly when the guard rejects the input, and when it does
    nothing has been stored: the knowledge store and the storage maps
    (problem records, activity records) are what they were.  When the
    guard accepts, the request completes with a response. *)
Lemma solveProblem_validation (request : MathSolutionRequest) (w : World) :
  exists v outcome w',
    validateMathematicalContent (req_problem request) w = (Normal v, w)
    /\ solveProblem request w = (outcome, w')
    /\ (isValid v = false
        <-> exists why, outcome = Throw why /\ reason v = Some why)
    /\ (isValid v = true <-> exists response, outcome = Normal response)
    /\ (isValid v = false ->
        problems w' = problems w /\ storage w' = storage w
        /\ mathProblems (storage w') = mathProblems (storage w)
        /\ systemActivities (storage w') = systemActivities (storage w)).
Proof.
  destruct (solveProblem_cases request w)
    as (v & outcome & w' & Ev & E & P & Cases).
  exists v, outcome, w'. split; [exact Ev|]. split; [exact E|].
  destruct Cases as [(Hv & (why & Hr & D & _) & St) | (Hv & r & D & _)];
    rewrite Hv, D.
  - split; [split; [intros _; now exists why | reflexivity]|].
    split; [split; [discriminate | intros (r & Hr'); discriminate]|].
    intros _. rewrite St. repeat split; assumption.
  - split; [split; [discriminate | intros (why & Hw & _); discriminate]|].
    split; [split; [intros _; now exists r | reflexivity]|].
    discriminate.
Qed.

End SolveFacts.

(** ** The solver version of the agent *)

Section SolverAgentFacts.

Context {N : Number}.

Variable callPythonSolver : jsstring -> bool -> bool -> M Solution.

Lemma tryCatch_Throw {A : Type} (body : M A) (handler : jsstring -> M A)
    (w w' : World) (e : jsstring) :
  body w = (Throw e, w') -> tryCatch body handler w = handler e w'.
Proof. intro H. unfold tryCatch. now rewrite H. Qed.

End SolverAgentFacts.

(* ================================================================= *)
(** * Further properties *)

(** ** The string hash *)

Lemma toInt32_range (z : Z) : - 2 ^ 31 <= toInt32 z < 2 ^ 31.
Proof.
  unfold toInt32.
  pose proof (Z.mod_pos_bound (z + 2 ^ 31) (2 ^ 32) ltac:(lia)). lia.
Qed.

Lemma toInt32_congr (x y : Z) :
  x mod 2 ^ 32 = y mod 2 ^ 32 -> toInt32 x = toInt32 y.
Proof.
  intro H. unfold toInt32. f_equal.
  rewrite (Z.add_mod x), (Z.add_mod y), H by lia. reflexivity.
Qed.

Lemma toInt32_mod (z : Z) : toInt32 z mod 2 ^ 32 = z mod 2 ^ 32.
Proof.
  unfold toInt32.
  rewrite Zminus_mod, Z.mod_mod by lia.
  rewrite <- Zminus_mod. f_equal. lia.
Qed.

Lemma hashStep_polynomial (hash char : Z) :
  hashStep hash char = toInt32 (31 * hash + char).
Proof.
  unfold hashStep. rewrite Z.land_diag, Z.shiftl_mul_pow2 by lia.
  apply toInt32_congr.
  rewrite Z.add_mod, Zminus_mod, toInt32_mod by lia.
  rewrite <- Zminus_mod, <- Z.add_mod by lia.
  f_equal. lia.
Qed.

Lemma hash_fold_polynomial (str : jsstring) (h p : Z) :
  h mod 2 ^ 32 = p mod 2 ^ 32 ->
  fold_left hashStep str h
  = match str with
    | [] => h
    | _ :: _ => toInt32 (fold_left (fun h c => 31 * h + c) str p)
    end.
Proof.
  revert h p. induction str as [|c str IH]; intros h p H; [reflexivity|].
  cbn [fold_left]. rewrite (IH (hashStep h c) (31 * p + c)).
  - destruct str as [|c' str]; [|reflexivity].
    cbn [fold_left]. rewrite hashStep_polynomial. apply toInt32_congr.
    rewrite Z.add_mod, Z.mul_mod, H by lia.
    rewrite <- Z.mul_mod, <- Z.add_mod by lia. reflexivity.
  - rewrite hashStep_polynomial, toInt32_mod.
    rewrite Z.add_mod, Z.mul_mod, H by lia.
    rewrite <- Z.mul_mod, <- Z.add_mod by lia. reflexivity.
Qed.

(** X1.  [simpleHash] is the 31-polynomial of the code units reduced to
    a signed 32-bit integer, in absolute value; it lies between 0 and
    2^31. *)
Theorem simpleHash_polynomial (str : jsstring) :
  simpleHash str = Z.abs (toInt32 (polynomialHash str))
  /\ 0 <= simpleHash str <= 2 ^ 31.
Proof.
  assert (E : simpleHash str = Z.abs (toInt32 (polynomialHash str))).
  { unfold simpleHash, polynomialHash.
    rewrite (hash_fold_polynomial str 0 0) by reflexivity.
    destruct str; reflexivity. }
  split; [exact E|]. rewrite E.
  pose proof (toInt32_range (polynomialHash str)). lia.
Qed.

(** ** Embeddings, continued *)

Section EmbeddingCase.

Context {N : Number} {L : MathLib N}.

(** X3.  Texts that differ only in letter case have the same embedding,
    so a search ranks the store the same way for both. *)
Theorem search_ignores_case (a b : jsstring) (limit : option Z) (w : World) :
  toLowerCase a = toLowerCase b ->
  generateMockEmbedding a = generateMockEmbedding b
  /\ searchSimilarProblems a limit w = searchSimilarProblems b limit w.
Proof.
  intro H.
  assert (E : generateMockEmbedding a = generateMockEmbedding b).
  { unfold generateMockEmbedding. now rewrite H. }
  split; [exact E|].
  rewrite !searchSimilarProblems_eq. unfold scored. now rewrite E.
Qed.

End EmbeddingCase.

Lemma search_ignores_case_witness :
  toLowerCase (js "Triangle AREA") = toLowerCase (js "triangle area")
  /\ @searchSimilarProblems Exact.number Exact.mathLib
       (js "Triangle AREA") (Some 3) Demo.world0
     = @searchSimilarProblems Exact.number Exact.mathLib
         (js "triangle area") (Some 3) Demo.world0.
Proof.
  assert (H : toLowerCase (js "Triangle AREA") = toLowerCase (js "triangle area"))
    by (vm_compute; reflexivity).
  split; [exact H|].
  exact (proj2 (@search_ignores_case Exact.number Exact.mathLib
                  (js "Triangle AREA") (js "triangle area") (Some 3)
                  Demo.world0 H)).
Defined.

(** X4 (witness).  Two zeros against [1; 2] over IEEE binary64. *)
Lemma calculateSimilarity_zero_norm_witness :
  @calculateSimilarity Binary64.number [0%float; 0%float] [1%float; 2%float]
  = PrimFloat.nan.
Proof.
  apply (Binary64Facts.calculateSimilarity_zero_norm
           [0%float; 0%float] [1%float; 2%float]).
  - reflexivity.
  - left. repeat constructor.
Defined.

(** ** Cosine similarity, continued *)

Section SimilaritySymmetry.

Context {N : Number}.

Hypothesis mul_comm : forall x y : num, mul x y = mul y x.

Lemma at_app (pre rest : list num) (x : num) :
  at_ (pre ++ x :: rest) (length pre) = x.
Proof.
  unfold at_. rewrite nth_error_app2 by apply Nat.le_refl.
  now rewrite Nat.sub_diag.
Qed.

Lemma similarityLoop_swap (p1 p2 r1 r2 : list num) (d n1 n2 : num) :
  length p1 = length p2 -> length r1 = length r2 ->
  forall d' n1' n2',
    similarityLoop r1 (p2 ++ r2) (length p1) (d, n1, n2) = (d', n1', n2') ->
    similarityLoop r2 (p1 ++ r1) (length p1) (d, n2, n1) = (d', n2', n1').
Proof.
  revert p1 p2 r2 d n1 n2.
  induction r1 as [|x r1 IH]; intros p1 p2 [|y r2] d n1 n2 Hp Hr;
    try discriminate; intros d' n1' n2' H.
  - cbn in *. now injection H as <- <- <-.
  - cbn [similarityLoop] in *.
    rewrite Hp, !at_app in H.
    rewrite at_app.
    replace (p2 ++ y :: r2) with ((p2 ++ [y]) ++ r2) in H
      by (rewrite <- app_assoc; reflexivity).
    replace (p1 ++ x :: r1) with ((p1 ++ [x]) ++ r1)
      by (rewrite <- app_assoc; reflexivity).
    replace (S (length p1)) with (length (p1 ++ [x]))
      by (rewrite length_app; simpl; lia).
    rewrite (mul_comm y x).
    apply (IH (p1 ++ [x]) (p2 ++ [y])).
    + rewrite !length_app. simpl. lia.
    + simpl in Hr. lia.
    + rewrite <- H. f_equal. rewrite !length_app. simpl. lia.
Qed.

(** X5.  On any number structure whose multiplication commutes, the
    similarity of two vectors of equal length does not depend on their
    order. *)
Theorem calculateSimilarity_symmetric (e1 e2 : list num) :
  length e1 = length e2 ->
  calculateSimilarity e1 e2 = calculateSimilarity e2 e1.
Proof.
  intro Hlen. unfold calculateSimilarity.
  destruct (similarityLoop e1 e2 0 (ofZ 0, ofZ 0, ofZ 0)) as [[d n1] n2] eqn:E.
  pose proof (similarityLoop_swap [] [] e1 e2 (ofZ 0) (ofZ 0) (ofZ 0)
                eq_refl Hlen d n1 n2 E) as E'.
  cbn [app length] in E'. rewrite E'.
  now rewrite mul_comm.
Qed.

End SimilaritySymmetry.

Lemma Binary64_mul_comm (x y : float) : PrimFloat.mul x y = PrimFloat.mul y x.
Proof.
  apply FloatAxioms.Prim2SF_inj. rewrite !FloatAxioms.mul_spec.
  unfold SF64mul, SFmul.
  destruct (Prim2SF x) as [sx|sx| |sx mx ex], (Prim2SF y) as [sy|sy| |sy my ey];
    try reflexivity; try (now rewrite xorb_comm).
  now rewrite xorb_comm, Pos.mul_comm, Z.add_comm.
Qed.

Lemma calculateSimilarity_symmetric_witness :
  (forall x y : float, PrimFloat.mul x y = PrimFloat.mul y x)
  /\ length [1%float; 2%float] = length [3%float; 5%float]
  /\ @calculateSimilarity Binary64.number [1%float; 2%float] [3%float; 5%float]
     = @calculateSimilarity Binary64.number [3%float; 5%float] [1%float; 2%float].
Proof.
  split; [exact Binary64_mul_comm|]. split; [reflexivity|].
  exact (@calculateSimilarity_symmetric Binary64.number Binary64_mul_comm
           [1%float; 2%float] [3%float; 5%float] eq_refl).
Defined.

(** ** Search results *)

Section SearchResults.

Context {N : Number} {L : MathLib N}.

(** X7.  Whatever the limit, a search leaves the world alone and
    returns results that each carry the source "knowledge_base" and the
    text, solution and category of an entry of the store, scored
    against the query.  Their number is the limit capped by the size of
    the store (5 by default); a negative limit drops that many results
    from the end of the ranking instead.  When the limit covers the
    store every entry is returned exactly once. *)
Theorem searchSimilarProblems_results (query : jsstring) (limit : option Z)
    (w : World) :
  let l := match limit with Some l => l | None => 5 end in
  let n := Z.of_nat (length (problems w)) in
  exists out,
    searchSimilarProblems query limit w = (Normal out, w)
    /\ Z.of_nat (length out) = (if l <? 0 then Z.max (n + l) 0 else Z.min l n)
    /\ (forall r, In r out ->
          source r = js "knowledge_base"
          /\ exists e, In e (problems w)
               /\ problem r = kb_problem e /\ solution r = kb_solution e
               /\ category r = kb_category e
               /\ similarity r
                  = calculateSimilarity (generateMockEmbedding query)
                                        (kb_embedding e))
    /\ (n <= l -> Permutation out (scored query w)).
Proof.
  intros l n. eexists. split; [apply searchSimilarProblems_eq|].
  fold l. split; [|split].
  - rewrite slice0_length, sort_length. unfold scored. now rewrite length_map.
  - intros r Hr. apply slice0_In in Hr.
    apply (proj1 (sort_In bySimilarity r _)) in Hr.
    apply In_scored in Hr as (e & He & ->).
    split; [reflexivity|]. exists e. repeat split; try reflexivity. exact He.
  - intro Hn. subst n.
    rewrite slice0_firstn by lia.
    rewrite firstn_all2.
    + apply sort_Permutation.
    + rewrite sort_length. unfold scored. rewrite length_map. lia.
Qed.

(** X8.  The agent never returns the one-step "no solution found"
    document: the web search always yields the two mock results, so a
    response tagged [web_search] carries the two-step document with
    exactly two sources and the category "advanced". *)
Theorem route_fallback_document (request : MathSolutionRequest)
    (startTime : Z) (w : World) :
  exists response w',
    route request startTime w = (Normal response, w')
    /\ (res_source response = web_search ->
        length (steps (res_solution response)) = 2%nat
        /\ option_map (@length SourceRef) (sources (res_solution response))
           = Some 2%nat
        /\ res_category response = Some (js "advanced")).
Proof.
  destruct (route_cases request startTime w)
    as (response & w' & E & _ & [(_ & Tag & _) | (_ & _ & Fb & Cat & _)]);
    exists response, w'; (split; [exact E|]).
  - rewrite Tag. discriminate.
  - intros _. unfold mockResults, fallbackAsBuilt in Fb.
    destruct Fb as (s1 & s2 & Hs & _ & Hsrc).
    rewrite Hs, Hsrc. split; [reflexivity|]. split; [reflexivity | exact Cat].
Qed.

End SearchResults.

(** ** The content guard, continued *)

Lemma mathSymbols_not_alnum (c : Z) :
  inClass mathSymbols c = true -> c < 48 \/ 57 < c < 65 \/ 122 < c.
Proof.
  unfold inClass. intro H. apply existsb_exists in H as (d & Hd & E).
  apply Z.eqb_eq in E. subst d.
  vm_compute in Hd.
  repeat (destruct Hd as [Hd|Hd]; [subst c; lia|]). contradiction.
Qed.

Lemma inClass_lowerUnit (c : Z) :
  inClass mathSymbols (lowerUnit c) = inClass mathSymbols c.
Proof.
  unfold lowerUnit. destruct ((65 <=? c) && (c <=? 90)) eqn:E; [|reflexivity].
  apply andb_true_iff in E as [H1 H2]. apply Z.leb_le in H1, H2.
  destruct (inClass mathSymbols (c + 32)) eqn:A.
  - apply mathSymbols_not_alnum in A. lia.
  - destruct (inClass mathSymbols c) eqn:B; [|reflexivity].
    apply mathSymbols_not_alnum in B. lia.
Qed.

Lemma isDigit_lowerUnit (c : Z) : isDigit (lowerUnit c) = isDigit c.
Proof.
  unfold lowerUnit.
  destruct ((65 <=? c) && (c <=? 90)) eqn:E; [|reflexivity].
  unfold isDigit.
  apply andb_true_iff in E as [H1 H2]. apply Z.leb_le in H1, H2.
  replace (c <=? 57) with false by (symmetry; apply Z.leb_gt; lia).
  replace (c + 32 <=? 57) with false by (symmetry; apply Z.leb_gt; lia).
  now rewrite !andb_false_r.
Qed.

Lemma isLetter_lowerUnit (c : Z) : isLetter (lowerUnit c) = isLetter c.
Proof.
  unfold lowerUnit.
  destruct ((65 <=? c) && (c <=? 90)) eqn:E; [|reflexivity].
  unfold isLetter. rewrite E, orb_true_r.
  apply andb_true_iff in E as [H1 H2]. apply Z.leb_le in H1, H2.
  replace (97 <=? c + 32) with true by (symmetry; apply Z.leb_le; lia).
  replace (c + 32 <=? 122) with true by (symmetry; apply Z.leb_le; lia).
  reflexivity.
Qed.

Lemma isWordChar_lowerUnit (c : Z) : isWordChar (lowerUnit c) = isWordChar c.
Proof.
  unfold isWordChar. rewrite isLetter_lowerUnit, isDigit_lowerUnit. f_equal.
  unfold lowerUnit. destruct ((65 <=? c) && (c <=? 90)) eqn:E; [|reflexivity].
  apply andb_true_iff in E as [H1 H2]. apply Z.leb_le in H1, H2.
  replace (c =? 95) with false by (symmetry; apply Z.eqb_neq; lia).
  apply Z.eqb_neq. lia.
Qed.

Lemma testSingleLetter_toLowerCase (prevWord : bool) (input : jsstring) :
  testSingleLetter prevWord (toLowerCase input) = testSingleLetter prevWord input.
Proof.
  revert prevWord. induction input as [|c rest IH]; intro prevWord; [reflexivity|].
  cbn [toLowerCase map testSingleLetter].
  change (map lowerUnit rest) with (toLowerCase rest).
  rewrite IH, isLetter_lowerUnit, isWordChar_lowerUnit.
  do 2 f_equal. destruct rest as [|d rest']; [reflexivity|].
  cbn [toLowerCase map]. now rewrite isWordChar_lowerUnit.
Qed.

Lemma testClass_toLowerCase (class : Z -> bool) (input : jsstring) :
  (forall c, class (lowerUnit c) = class c) ->
  testClass class (toLowerCase input) = testClass class input.
Proof.
  intro H. unfold testClass, toLowerCase.
  induction input as [|c rest IH]; [reflexivity|].
  cbn [map existsb]. now rewrite H, IH.
Qed.

(** Every keyword of either list starts with a small Latin letter. *)
Lemma keywords_start_with_letter (term : jsstring) :
  In term (nonMathKeywords ++ mathKeywords) ->
  exists c rest, term = c :: rest /\ 97 <= c <= 122.
Proof.
  assert (H : forallb (fun t => match t with
                                | c :: _ => (97 <=? c) && (c <=? 122)
                                | [] => false
                                end) (nonMathKeywords ++ mathKeywords) = true)
    by (vm_compute; reflexivity).
  rewrite forallb_forall in H. intro Hin. specialize (H term Hin).
  destruct term as [|c rest]; [discriminate|].
  apply andb_true_iff in H as [H1 H2]. apply Z.leb_le in H1, H2.
  exists c, rest. split; [reflexivity | lia].
Qed.

Lemma keyword_needs_letter (input term : jsstring) :
  In term (nonMathKeywords ++ mathKeywords) ->
  includes (toLowerCase input) term = true ->
  exists c, In c input /\ isLetter c = true.
Proof.
  intros Hin H.
  destruct (keywords_start_with_letter term Hin) as (c & rest & -> & Hc).
  apply includes_spec in H as (pre & post & E).
  assert (Hc' : In c (toLowerCase input)).
  { rewrite E. apply in_or_app. right. now left. }
  unfold toLowerCase in Hc'. apply in_map_iff in Hc' as (c0 & E0 & H0).
  exists c0. split; [exact H0|].
  rewrite <- isLetter_lowerUnit, E0. unfold isLetter.
  replace (97 <=? c) with true by (symmetry; apply Z.leb_le; lia).
  replace (c <=? 122) with true by (symmetry; apply Z.leb_le; lia).
  reflexivity.
Qed.

Lemma testSingleLetter_needs_letter (prevWord : bool) (input : jsstring) :
  testSingleLetter prevWord input = true ->
  exists c, In c input /\ isLetter c = true.
Proof.
  intro H. apply testSingleLetter_walk in H as (pre & x & post & -> & _ & Hx & _).
  exists x. split; [|exact Hx]. apply in_or_app. right. now left.
Qed.

Section GuardMore.

Context {N : Number}.

(** X9.  The verdict of the guard does not depend on the case of the
    Latin letters of the input. *)
Theorem validate_ignores_case (input : jsstring) (w : World) :
  validateMathematicalContent (toLowerCase input) w
  = validateMathematicalContent input w.
Proof.
  unfold validateMathematicalContent.
  rewrite toLowerCase_idem.
  rewrite (testClass_toLowerCase _ input inClass_lowerUnit).
  rewrite (testClass_toLowerCase _ input isDigit_lowerUnit).
  rewrite testSingleLetter_toLowerCase.
  reflexivity.
Qed.

(** X10.  An input with no Latin letter and no mathematical symbol is
    rejected as not mathematical; digits alone never suffice, and the
    empty input is one such case. *)
Theorem validate_needs_letter_or_symbol (input : jsstring) (w : World) :
  (forall c, In c input -> isLetter c = false) ->
  (forall c, In c input -> inClass mathSymbols c = false) ->
  validateMathematicalContent input w
  = (Normal {| isValid := false; reason := Some reasonNotMath |}, w).
Proof.
  intros Hl Hs.
  assert (NoKw : forall terms, incl terms (nonMathKeywords ++ mathKeywords) ->
            existsb (fun keyword => includes (toLowerCase input) keyword) terms
            = false).
  { intros terms Hi.
    destruct (existsb _ terms) eqn:E; [|reflexivity].
    apply existsb_exists in E as (t & Ht & Hinc).
    destruct (keyword_needs_letter input t (Hi t Ht) Hinc) as (c & Hc & Hlet).
    rewrite (Hl c Hc) in Hlet. discriminate. }
  unfold validateMathematicalContent.
  rewrite (NoKw nonMathKeywords) by (apply incl_appl, incl_refl).
  rewrite (NoKw mathKeywords) by (apply incl_appr, incl_refl).
  assert (Sy : testClass (inClass mathSymbols) input = false).
  { unfold testClass. destruct (existsb _ input) eqn:E; [|reflexivity].
    apply existsb_exists in E as (c & Hc & Hin).
    rewrite (Hs c Hc) in Hin. discriminate. }
  assert (Va : testSingleLetter false input = false).
  { destruct (testSingleLetter false input) eqn:E; [|reflexivity].
    destruct (testSingleLetter_needs_letter _ _ E) as (c & Hc & Hlet).
    rewrite (Hl c Hc) in Hlet. discriminate. }
  rewrite Sy, Va. now rewrite andb_false_r.
Qed.

End GuardMore.

Lemma validate_needs_letter_or_symbol_witness :
  @validateMathematicalContent Exact.number (js "12 345") Demo.world0
  = (Normal {| isValid := false; reason := Some reasonNotMath |}, Demo.world0).
Proof.
  apply (@validate_needs_letter_or_symbol Exact.number (js "12 345") Demo.world0).
  - intros c Hc. vm_compute in Hc.
    repeat (destruct Hc as [Hc|Hc]; [subst c; reflexivity|]). contradiction.
  - intros c Hc. vm_compute in Hc.
    repeat (destruct Hc as [Hc|Hc]; [subst c; reflexivity|]). contradiction.
Defined.

(** ** What a request reads from the host *)

Lemma advance_advance (a b c d : nat) (h : Host) :
  advance a b (advance c d h) = advance (a + c) (b + d) h.
Proof.
  unfold advance. cbn [uuids uuidCalls clock clockCalls]. f_equal; lia.
Qed.

Lemma failureMessage_head : hd 0 failureMessage = 70.
Proof. vm_compute. reflexivity. Qed.

Lemma reasonInappropriate_head : hd 0 reasonInappropriate = 67.
Proof. vm_compute. reflexivity. Qed.

Lemma reasonNotMath_head : hd 0 reasonNotMath = 84.
Proof. vm_compute. reflexivity. Qed.

Section HostFacts.

Context {N : Number} {L : MathLib N}.

Lemma Date_now_host (w : World) :
  exists w',
    Date_now w = (Normal (clock (host w) (clockCalls (host w))), w')
    /\ host w' = advance 0 1 (host w)
    /\ problems w' = problems w /\ storage w' = storage w.
Proof. eexists. split; [run; reflexivity|]. repeat split; reflexivity. Qed.

Lemma createActivity_host (insertActivity : InsertActivity) (w : World) :
  exists a w',
    createActivity insertActivity w = (Normal a, w')
    /\ host w' = advance 1 1 (host w)
    /\ problems w' = problems w.
Proof. do 2 eexists. split; [run; reflexivity|]. split; reflexivity. Qed.

Lemma createMathProblem_host (insertProblem : InsertMathProblem) (w : World) :
  exists p w',
    createMathProblem insertProblem w = (Normal p, w')
    /\ host w' = advance 1 1 (host w)
    /\ problems w' = problems w
    /\ mp_id p = uuids (host w) (uuidCalls (host w)).
Proof.
  do 2 eexists. split; [run; reflexivity|]. repeat split; reflexivity.
Qed.

Lemma answerFromKnowledgeBase_host (request : MathSolutionRequest)
    (startTime : Z) (bestMatch : VectorSearchResult) (w : World) :
  exists response w',
    answerFromKnowledgeBase request startTime bestMatch w = (Normal response, w')
    /\ host w' = advance 2 3 (host w)
    /\ res_problem response = req_problem request
    /\ res_responseTime response
       = clock (host w) (2 + clockCalls (host w)) - startTime
    /\ res_problemId response = uuids (host w) (uuidCalls (host w)).
Proof.
  unfold answerFromKnowledgeBase.
  match goal with |- context [bind (createMathProblem ?i) _] =>
    destruct (createMathProblem_host i w) as (p & w1 & E1 & H1 & _ & Id)
  end.
  match goal with |- context [bind (createActivity ?i) _] =>
    destruct (createActivity_host i w1) as (a & w2 & E2 & H2 & _)
  end.
  destruct (Date_now_host w2) as (w3 & E3 & H3 & _).
  rewrite (bind_Normal _ _ _ _ _ E1), (bind_Normal _ _ _ _ _ E2),
    (bind_Normal _ _ _ _ _ E3).
  do 2 eexists. split; [reflexivity|]. cbn [res_problem res_responseTime res_problemId].
  rewrite H3, H2, H1, !advance_advance.
  split; [reflexivity|]. split; [reflexivity|]. split; [reflexivity | exact Id].
Qed.

Lemma answerFromWebSearch_host (request : MathSolutionRequest)
    (startTime : Z) (w : World) :
  exists response w',
    answerFromWebSearch request startTime w = (Normal response, w')
    /\ host w' = advance 2 3 (host w)
    /\ res_problem response = req_problem request
    /\ res_responseTime response
       = clock (host w) (2 + clockCalls (host w)) - startTime
    /\ res_problemId response = uuids (host w) (uuidCalls (host w)).
Proof.
  unfold answerFromWebSearch.
  rewrite (bind_Normal _ _ _ _ _ (searchMathematicalContent_eq _ w)).
  destruct (generateSolutionFromSearch_built (req_problem request) mockResults w)
    as (doc & E0 & _).
  rewrite (bind_Normal _ _ _ _ _ E0).
  match goal with |- context [bind (createMathProblem ?i) _] =>
    destruct (createMathProblem_host i w) as (p & w1 & E1 & H1 & _ & Id)
  end.
  match goal with |- context [bind (createActivity ?i) _] =>
    destruct (createActivity_host i w1) as (a & w2 & E2 & H2 & _)
  end.
  destruct (Date_now_host w2) as (w3 & E3 & H3 & _).
  rewrite (bind_Normal _ _ _ _ _ E1), (bind_Normal _ _ _ _ _ E2),
    (bind_Normal _ _ _ _ _ E3).
  do 2 eexists. split; [reflexivity|]. cbn [res_problem res_responseTime res_problemId].
  rewrite H3, H2, H1, !advance_advance.
  split; [reflexivity|]. split; [reflexivity|]. split; [reflexivity | exact Id].
Qed.

Lemma route_host (request : MathSolutionRequest) (startTime : Z) (w : World) :
  exists response w',
    route request startTime w = (Normal response, w')
    /\ host w' = advance 2 3 (host w)
    /\ res_problem response = req_problem request
    /\ res_responseTime response
       = clock (host w) (2 + clockCalls (host w)) - startTime
    /\ res_problemId response = uuids (host w) (uuidCalls (host w)).
Proof.
  rewrite route_eq.
  destruct (topThree request w) as [|bestMatch rest];
    [apply answerFromWebSearch_host|].
  destruct (aboveThreshold (bestMatch :: rest));
    [apply answerFromKnowledgeBase_host | apply answerFromWebSearch_host].
Qed.

(** X11.  A request that passes the guard takes three identifiers and
    five clock readings from the host; its response echoes the problem
    text, names the second identifier as the problem's, and reports as
    response time the difference between the fifth and the first
    reading, which is not negative when the clock does not run
    backwards.  A rejected request reads the clock once and takes no
    identifier.  The only errors thrown are the guard's two reasons:
    the generic failure message of the [catch] branch never occurs. *)
Theorem solveProblem_host (request : MathSolutionRequest) (w : World) :
  let h := host w in
  exists outcome w',
    solveProblem request w = (outcome, w')
    /\ match outcome with
       | Normal response =>
         host w' = advance 3 5 h
         /\ res_problem response = req_problem request
         /\ res_problemId response = uuids h (1 + uuidCalls h)
         /\ res_responseTime response
            = clock h (4 + clockCalls h) - clock h (clockCalls h)
         /\ ((forall i j, (i <= j)%nat -> clock h i <= clock h j) ->
             0 <= res_responseTime response)
       | Throw message =>
         host w' = advance 0 1 h
         /\ (message = reasonInappropriate \/ message = reasonNotMath)
         /\ message <> failureMessage
       end.
Proof.
  intro h. subst h.
  destruct (Date_now_host w) as (w1 & E1 & H1 & _).
  destruct (validate_total (req_problem request) w1) as (v & Ev).
  unfold solveProblem.
  rewrite (bind_Normal _ _ _ _ _ E1), (bind_Normal _ _ _ _ _ Ev).
  destruct (isValid v) eqn:Hv; cbn [negb].
  - match goal with |- context [bind (createActivity ?i) _] =>
      destruct (createActivity_host i w1) as (a & w2 & E2 & H2 & _)
    end.
    rewrite (bind_Normal _ _ _ _ _ E2).
    destruct (route_host request (clock (host w) (clockCalls (host w))) w2)
      as (response & w3 & Er & H3 & Hp & Ht & Hi).
    rewrite (tryCatch_Normal _ _ _ _ _ Er).
    exists (Normal response), w3. split; [reflexivity|].
    rewrite H2, H1, !advance_advance in H3.
    rewrite H2, H1, !advance_advance in Ht, Hi.
    cbn [advance clock clockCalls uuids uuidCalls Nat.add] in Ht, Hi.
    split; [exact H3|]. split; [exact Hp|]. split; [exact Hi|].
    split; [exact Ht|].
    intro Mono. rewrite Ht.
    specialize (Mono (clockCalls (host w)) (4 + clockCalls (host w))%nat).
    cbn [Nat.add] in Mono. lia.
  - destruct (validate_rejection _ w1 v Ev Hv) as (why & _ & Hw & Ho).
    rewrite Ho. unfold throw.
    exists (Throw why), w1. split; [reflexivity|].
    split; [exact H1|]. split; [exact Hw|].
    intro F. apply (f_equal (hd 0)) in F.
    rewrite failureMessage_head in F.
    destruct Hw as [-> | ->];
      [rewrite reasonInappropriate_head in F
      | rewrite reasonNotMath_head in F]; discriminate.
Qed.

End HostFacts.

(** ** Maps *)

Lemma jsstring_eqb_eq (a b : jsstring) : jsstring_eqb a b = true <-> a = b.
Proof.
  revert b. induction a as [|x a IH]; intros [|y b]; cbn [jsstring_eqb];
    try (split; [discriminate | intro H; discriminate]).
  - split; reflexivity.
  - rewrite andb_true_iff, Z.eqb_eq, IH. split.
    + intros [-> ->]. reflexivity.
    + intro H. injection H as -> ->. split; reflexivity.
Qed.

Lemma jsstring_eqb_refl (a : jsstring) : jsstring_eqb a a = true.
Proof. now apply jsstring_eqb_eq. Qed.

Lemma jsstring_eqb_neq (a b : jsstring) : jsstring_eqb a b = false <-> a <> b.
Proof.
  destruct (jsstring_eqb a b) eqn:E.
  - apply jsstring_eqb_eq in E. split; [discriminate | contradiction].
  - split; [|reflexivity]. intros _ H. apply jsstring_eqb_eq in H. congruence.
Qed.

Lemma Map_get_set_same {V : Type} (key : jsstring) (value : V) (m : Map V) :
  Map_get key (Map_set key value m) = Some value.
Proof.
  induction m as [|[k v] m IH]; cbn [Map_set Map_get].
  - now rewrite jsstring_eqb_refl.
  - destruct (jsstring_eqb k key) eqn:E; cbn [Map_get]; now rewrite E.
Qed.

Lemma Map_get_set_other {V : Type} (key key' : jsstring) (value : V) (m : Map V) :
  key <> key' ->
  Map_get key' (Map_set key value m) = Map_get key' m.
Proof.
  intro H. induction m as [|[k v] m IH]; cbn [Map_set Map_get].
  - apply jsstring_eqb_neq in H. now rewrite H.
  - destruct (jsstring_eqb k key) eqn:E; cbn [Map_get].
    + apply jsstring_eqb_eq in E. subst k.
      apply jsstring_eqb_neq in H. now rewrite H.
    + now rewrite IH.
Qed.

(** A new key goes to the end: the values keep their insertion order. *)
Lemma Map_set_fresh {V : Type} (key : jsstring) (value : V) (m : Map V) :
  Map_get key m = None ->
  Map_values (Map_set key value m) = Map_values m ++ [value].
Proof.
  unfold Map_values. induction m as [|[k v] m IH]; cbn [Map_set Map_get map app];
    [reflexivity|].
  destruct (jsstring_eqb k key); [discriminate|].
  intro H. cbn [map snd]. now rewrite IH.
Qed.

(** ** Problem records *)

Section ProblemRecords.

Context {N : Number}.

Lemma createMathProblem_record (insertProblem : InsertMathProblem) (w : World) :
  exists p w',
    createMathProblem insertProblem w = (Normal p, w')
    /\ problems w' = problems w
    /\ mathProblems (storage w')
       = Map_set (mp_id p) p (mathProblems (storage w))
    /\ mp_id p = uuids (host w) (uuidCalls (host w))
    /\ mp_problem p = imp_problem insertProblem
    /\ mp_solution p = imp_solution insertProblem
    /\ mp_category p = imp_category insertProblem
    /\ mp_difficulty p = imp_difficulty insertProblem
    /\ mp_source p = imp_source insertProblem.
Proof.
  do 2 eexists. split; [run; reflexivity|]. repeat split; reflexivity.
Qed.

(** X12.  A problem record that was just created is found under its
    identifier, with the fields it was given; the records under every
    other identifier are what they were.  When the identifier is new,
    the record is the last of the map's values. *)
Theorem createMathProblem_lookup (insertProblem : InsertMathProblem) (w : World) :
  exists p w',
    createMathProblem insertProblem w = (Normal p, w')
    /\ getMathProblem (mp_id p) w' = (Normal (Some p), w')
    /\ mp_problem p = imp_problem insertProblem
    /\ mp_solution p = imp_solution insertProblem
    /\ mp_category p = imp_category insertProblem
    /\ mp_difficulty p = imp_difficulty insertProblem
    /\ mp_source p = imp_source insertProblem
    /\ (forall id, id <> mp_id p ->
          fst (getMathProblem id w') = fst (getMathProblem id w))
    /\ (fst (getMathProblem (mp_id p) w) = Normal None ->
        Map_values (mathProblems (storage w'))
        = Map_values (mathProblems (storage w)) ++ [p]).
Proof.
  do 2 eexists. split; [run; reflexivity|].
  split.
  { unfold getMathProblem. run. cbn [storage mathProblems mp_id].
    now rewrite Map_get_set_same. }
  repeat (split; [reflexivity|]).
  split.
  - intros id Hid. unfold getMathProblem. run.
    cbn [fst storage mathProblems mp_id] in *.
    f_equal. apply Map_get_set_other. congruence.
  - unfold getMathProblem. run. cbn [fst storage mathProblems mp_id].
    intro H. apply Map_set_fresh. congruence.
Qed.

End ProblemRecords.

(** ** Statistics *)

Lemma categories_exclusive (c : jsstring) :
  (Nat.b2n (jsstring_eqb c (js "calculus"))
   + Nat.b2n (jsstring_eqb c (js "algebra"))
   + Nat.b2n (jsstring_eqb c (js "geometry"))
   + Nat.b2n (jsstring_eqb c (js "statistics")) <= 1)%nat.
Proof.
  assert (D : forallb (fun p => negb (jsstring_eqb (fst p) (snd p)))
                [(js "calculus", js "algebra"); (js "calculus", js "geometry");
                 (js "calculus", js "statistics"); (js "algebra", js "geometry");
                 (js "algebra", js "statistics");
                 (js "geometry", js "statistics")] = true)
    by (vm_compute; reflexivity).
  cbn [forallb fst snd] in D.
  repeat (apply andb_true_iff in D as [?H D]).
  destruct (jsstring_eqb c (js "calculus")) eqn:E1;
    destruct (jsstring_eqb c (js "algebra")) eqn:E2;
    destruct (jsstring_eqb c (js "geometry")) eqn:E3;
    destruct (jsstring_eqb c (js "statistics")) eqn:E4;
    cbn [Nat.b2n Nat.add]; try lia;
    repeat match goal with
           | E : jsstring_eqb c _ = true |- _ => apply jsstring_eqb_eq in E
           end; subst c;
    repeat match goal with
           | H : negb (jsstring_eqb ?a ?b) = true |- _ =>
             apply negb_true_iff in H; apply jsstring_eqb_neq in H
           end; congruence.
Qed.

Lemma countCategory_cons (p : MathProblem) (l : list MathProblem) (c : jsstring) :
  countCategory (p :: l) c
  = (Nat.b2n (jsstring_eqb (mp_category p) c) + countCategory l c)%nat.
Proof.
  unfold countCategory. cbn [filter].
  destruct (jsstring_eqb (mp_category p) c); reflexivity.
Qed.

Lemma countCategory_app (l l' : list MathProblem) (c : jsstring) :
  countCategory (l ++ l') c = (countCategory l c + countCategory l' c)%nat.
Proof. unfold countCategory. now rewrite filter_app, length_app. Qed.

Lemma four_counts_le (l : list MathProblem) :
  (countCategory l (js "calculus") + countCategory l (js "algebra")
   + countCategory l (js "geometry") + countCategory l (js "statistics")
   <= length l)%nat.
Proof.
  induction l as [|p l IH]; [cbn; lia|].
  rewrite !countCategory_cons. cbn [length].
  pose proof (categories_exclusive (mp_category p)). lia.
Qed.

Lemma four_counts_lt (l : list MathProblem) :
  (exists p, In p l
     /\ jsstring_eqb (mp_category p) (js "calculus") = false
     /\ jsstring_eqb (mp_category p) (js "algebra") = false
     /\ jsstring_eqb (mp_category p) (js "geometry") = false
     /\ jsstring_eqb (mp_category p) (js "statistics") = false) ->
  (countCategory l (js "calculus") + countCategory l (js "algebra")
   + countCategory l (js "geometry") + countCategory l (js "statistics")
   < length l)%nat.
Proof.
  intros (p & Hin & H1 & H2 & H3 & H4).
  induction l as [|q l IH]; [contradiction|].
  rewrite !countCategory_cons. cbn [length].
  pose proof (four_counts_le l) as Hle.
  destruct Hin as [->|Hin].
  - rewrite H1, H2, H3, H4. cbn [Nat.b2n]. lia.
  - specialize (IH Hin).
    pose proof (categories_exclusive (mp_category q)). lia.
Qed.

Section Statistics.

Context {N : Number}.

(** X13.  The statistics never change the world.  [total] counts every
    problem record; each of the four category counts is the number of
    records [getMathProblemsByCategory] returns for that category; the
    four together never exceed [total], and fall short of it as soon as
    one record has another category (such as the "advanced" of a web
    answer). *)
Theorem getKnowledgeBaseStats_counts (w : World) :
  let records := Map_values (mathProblems (storage w)) in
  exists s,
    getKnowledgeBaseStats w = (Normal s, w)
    /\ total s = length records
    /\ (forall c, exists l,
          getMathProblemsByCategory c w = (Normal l, w)
          /\ countCategory records c = length l)
    /\ calculus s = countCategory records (js "calculus")
    /\ algebra s = countCategory records (js "algebra")
    /\ geometry s = countCategory records (js "geometry")
    /\ statistics s = countCategory records (js "statistics")
    /\ (calculus s + algebra s + geometry s + statistics s <= total s)%nat
    /\ ((exists p, In p records
           /\ jsstring_eqb (mp_category p) (js "calculus") = false
           /\ jsstring_eqb (mp_category p) (js "algebra") = false
           /\ jsstring_eqb (mp_category p) (js "geometry") = false
           /\ jsstring_eqb (mp_category p) (js "statistics") = false) ->
        (calculus s + algebra s + geometry s + statistics s < total s)%nat).
Proof.
  intro records. eexists. split; [reflexivity|].
  cbn [total calculus algebra geometry statistics]. fold records.
  split; [reflexivity|].
  split; [intro c; eexists; split; reflexivity|].
  repeat (split; [reflexivity|]).
  split; [apply four_counts_le | apply four_counts_lt].
Qed.

(** X14.  Creating a problem record under a new identifier raises
    [total] by one and the count of its own category by one, if it is
    one of the four, and changes no other count: a record of category
    "advanced" raises [total] alone. *)
Theorem createMathProblem_statistics (insertProblem : InsertMathProblem)
    (w : World) :
  exists p w' s s',
    createMathProblem insertProblem w = (Normal p, w')
    /\ getKnowledgeBaseStats w = (Normal s, w)
    /\ getKnowledgeBaseStats w' = (Normal s', w')
    /\ (Map_get (mp_id p) (mathProblems (storage w)) = None ->
        let hit c := Nat.b2n (jsstring_eqb (imp_category insertProblem) c) in
        total s' = S (total s)
        /\ calculus s' = (calculus s + hit (js "calculus"))%nat
        /\ algebra s' = (algebra s + hit (js "algebra"))%nat
        /\ geometry s' = (geometry s + hit (js "geometry"))%nat
        /\ statistics s' = (statistics s + hit (js "statistics"))%nat
        /\ (imp_category insertProblem = js "advanced" ->
            calculus s' = calculus s /\ algebra s' = algebra s
            /\ geometry s' = geometry s /\ statistics s' = statistics s)).
Proof.
  destruct (createMathProblem_record insertProblem w)
    as (p & w' & E & _ & Hset & _ & _ & _ & Cat & _ & _).
  exists p, w'. do 2 eexists. split; [exact E|].
  split; [reflexivity|]. split; [reflexivity|].
  intros Hnone hit.
  cbn [total calculus algebra geometry statistics].
  rewrite Hset, (Map_set_fresh _ _ _ Hnone).
  rewrite length_app, !countCategory_app. cbn [length].
  assert (One : forall c, countCategory [p] c = hit c).
  { intro c. rewrite countCategory_cons. unfold hit. rewrite Cat.
    unfold countCategory. cbn. lia. }
  rewrite !One.
  split; [lia|]. repeat (split; [reflexivity|]).
  intro Adv. unfold hit. rewrite Adv.
  assert (A : forallb (fun c => negb (jsstring_eqb (js "advanced") c))
                [js "calculus"; js "algebra"; js "geometry"; js "statistics"]
              = true) by (vm_compute; reflexivity).
  cbn [forallb] in A.
  repeat (apply andb_true_iff in A as [?H A]).
  repeat match goal with
         | H : negb _ = true |- _ => apply negb_true_iff in H; rewrite H
         end.
  cbn [Nat.b2n]. repeat split; lia.
Qed.

End Statistics.

(** ** The activity log *)

Section RecentActivity.

Context {N : Number}.

(** The sign of an integer below 2^63 in size survives the passage to
    [number]. *)
Hypothesis ofZ_sign :
  forall z : Z, - 2 ^ 63 < z < 2 ^ 63 -> gtb (ofZ z) (ofZ 0) = (0 <? z).

Lemma after_byCreatedAt (a b : SystemActivity) :
  timeValue a -> timeValue b ->
  after byCreatedAt a b = (act_createdAt a <? act_createdAt b).
Proof.
  unfold timeValue, after, byCreatedAt. intros Ha Hb.
  assert (P : 2 ^ 63 = 2 * 2 ^ 62) by reflexivity.
  rewrite ofZ_sign by lia.
  destruct (act_createdAt a <? act_createdAt b) eqn:E.
  - apply Z.ltb_lt in E. apply Z.ltb_lt. lia.
  - apply Z.ltb_ge in E. apply Z.ltb_ge. lia.
Qed.

Lemma byCreatedAt_Consistent (l : list SystemActivity) :
  Forall timeValue l -> Consistent (after byCreatedAt) l.
Proof.
  intros H x y z Hx Hy Hz. rewrite Forall_forall in H.
  rewrite !after_byCreatedAt by (apply H; assumption). split.
  - rewrite Z.ltb_lt, Z.ltb_ge. lia.
  - rewrite !Z.ltb_ge. lia.
Qed.

(** X15.  For a limit that is not negative and a log of activities
    created at time values, [getRecentActivity] leaves the world alone
    and returns at most [limit] activities (10 by default), newest
    first: the first [limit] of an arrangement of all logged activities
    by non-increasing creation time in which activities created at the
    same millisecond keep the order in which they were logged.  This
    holds on every number structure in which the conversion of an
    integer below 2^63 in size keeps its sign, as in binary64. *)
Theorem getRecentActivity_newest_first (limit : option Z) (w : World) :
  let l := match limit with Some l => l | None => 10 end in
  let logged := Map_values (systemActivities (storage w)) in
  Forall timeValue logged ->
  0 <= l ->
  exists out ranked,
    getRecentActivity limit w = (Normal out, w)
    /\ Z.of_nat (length out) = Z.min l (Z.of_nat (length logged))
    /\ out = firstn (Z.to_nat l) ranked
    /\ StronglySorted newerFirst out
    /\ Permutation ranked logged
    /\ StronglySorted newerFirst ranked
    /\ (forall a, filter (sameTime a) ranked = filter (sameTime a) logged).
Proof.
  intros l logged Ht Hl.
  assert (Hin : forall a, In a (sort byCreatedAt logged) -> timeValue a).
  { intros a Ha. apply (sort_In byCreatedAt a logged) in Ha.
    rewrite Forall_forall in Ht. now apply Ht. }
  assert (S : StronglySorted newerFirst (sort byCreatedAt logged)).
  { apply (StronglySorted_weaken (fun a b => after byCreatedAt a b = false)).
    - intros a b Ha Hb H. rewrite after_byCreatedAt in H by (apply Hin; assumption).
      apply Z.ltb_ge in H. exact H.
    - apply sort_sorted, byCreatedAt_Consistent, Ht. }
  exists (slice0 l (sort byCreatedAt logged)), (sort byCreatedAt logged).
  split; [reflexivity|].
  split.
  { rewrite slice0_length, sort_length.
    replace (l <? 0) with false by (symmetry; apply Z.ltb_ge; exact Hl).
    reflexivity. }
  split; [now apply slice0_firstn|].
  split; [rewrite slice0_firstn by assumption; now apply StronglySorted_firstn|].
  split; [apply sort_Permutation|].
  split; [exact S|].
  intro a. apply sort_filter.
  intros x y Hx Hy Hxy Px Py. rewrite Forall_forall in Ht.
  rewrite after_byCreatedAt in Hxy by (apply Ht; assumption).
  unfold sameTime in Px, Py. apply Z.eqb_eq in Px, Py. apply Z.ltb_lt in Hxy. lia.
Qed.

End RecentActivity.

Lemma Binary64_ofZ_sign (z : Z) :
  - 2 ^ 63 < z < 2 ^ 63 ->
  @gtb Binary64.number (@ofZ Binary64.number z) (@ofZ Binary64.number 0)
  = (0 <? z).
Proof. exact (Binary64Order.fromZ_sign z). Qed.

Lemma DemoLog_times :
  Forall timeValue (Map_values (systemActivities (storage DemoLog.world))).
Proof.
  assert (E : map act_createdAt
                (Map_values (systemActivities (storage DemoLog.world)))
              = [1700000000000; 1700000000000; 1700000000001])
    by (vm_compute; reflexivity).
  assert (H : Forall (fun t => - 2 ^ 62 <= t < 2 ^ 62)
                (map act_createdAt
                   (Map_values (systemActivities (storage DemoLog.world))))).
  { rewrite E. assert (P : 2 ^ 62 = 4611686018427387904) by reflexivity.
    rewrite P. repeat constructor; lia. }
  rewrite Forall_map in H. exact H.
Qed.

Lemma DemoLog_recent :
  exists a1 a2 a3,
    Map_values (systemActivities (storage DemoLog.world)) = [a1; a2; a3]
    /\ fst (@getRecentActivity Binary64.number (Some 5) DemoLog.world)
       = Normal [a3; a1; a2]
    /\ map act_createdAt [a1; a2; a3]
       = [1700000000000; 1700000000000; 1700000000001].
Proof.
  do 3 eexists. split; [vm_compute; reflexivity|].
  split; vm_compute; reflexivity.
Qed.

Lemma getRecentActivity_newest_first_witness :
  Forall timeValue (Map_values (systemActivities (storage DemoLog.world)))
  /\ 0 <= 5
  /\ exists a1 a2 a3 out,
       Map_values (systemActivities (storage DemoLog.world)) = [a1; a2; a3]
       /\ map act_createdAt [a1; a2; a3]
          = [1700000000000; 1700000000000; 1700000000001]
       /\ @getRecentActivity Binary64.number (Some 5) DemoLog.world
          = (Normal out, DemoLog.world)
       /\ out = [a3; a1; a2]
       /\ StronglySorted newerFirst out.
Proof.
  assert (H5 : 0 <= 5) by lia.
  split; [exact DemoLog_times|]. split; [exact H5|].
  destruct DemoLog_recent as (a1 & a2 & a3 & Hlog & Hrun & Ht).
  destruct (@getRecentActivity_newest_first Binary64.number Binary64_ofZ_sign
              (Some 5) DemoLog.world DemoLog_times H5)
    as (out & ranked & E & _ & _ & S & _).
  exists a1, a2, a3, out.
  split; [exact Hlog|]. split; [exact Ht|]. split; [exact E|].
  split; [|exact S].
  rewrite E in Hrun. cbn [fst] in Hrun. congruence.
Defined.

(** ** Searching the problem records *)


Section ProblemSearch.

Context {N : Number}.


End ProblemSearch.

(** ** Users *)

Lemma find_append {A : Type} (f : A -> bool) (l l' : list A) :
  find f (l ++ l') = match find f l with Some x => Some x | None => find f l' end.
Proof.
  induction l as [|x l IH]; [reflexivity|].
  cbn [app find]. destruct (f x); [reflexivity | exact IH].
Qed.

Section Users.

Context {N : Number}.

(** X17.  A user that was just created is found under the new
    identifier with the name and password given.  No check is made on
    the name: when the identifier is new and an earlier user already
    has that name, [getUserByUsername] keeps returning the earlier
    user; otherwise it returns the new one. *)
Theorem createUser_lookup (insertUser : InsertUser) (w : World) :
  exists u w',
    createUser insertUser w = (Normal u, w')
    /\ username u = iu_username insertUser
    /\ password u = iu_password insertUser
    /\ user_id u = uuids (host w) (uuidCalls (host w))
    /\ getUser (user_id u) w' = (Normal (Some u), w')
    /\ (fst (getUser (user_id u) w) = Normal None ->
        forall earlier,
          fst (getUserByUsername (username u) w) = Normal earlier ->
          getUserByUsername (username u) w'
          = (Normal (match earlier with Some e => Some e | None => Some u end), w')).
Proof.
  do 2 eexists. split; [unfold createUser; run; reflexivity|].
  repeat (split; [reflexivity|]).
  split.
  { unfold getUser. run. cbn [storage users user_id].
    now rewrite Map_get_set_same. }
  unfold getUser, getUserByUsername. run.
  cbn [fst storage users user_id username].
  intros Hnone earlier He.
  assert (Hn : Map_get (uuids (host w) (uuidCalls (host w))) (users (storage w))
               = None) by congruence.
  rewrite (Map_set_fresh _ _ _ Hn), find_append.
  assert (Hf : find (fun user => jsstring_eqb (username user)
                                   (iu_username insertUser))
                 (Map_values (users (storage w))) = earlier) by congruence.
  rewrite Hf. destruct earlier; [reflexivity|].
  cbn [find username]. now rewrite jsstring_eqb_refl.
Qed.

End Users.

(** ** Feedback *)

Section FeedbackFacts.

Context {N : Number}.

Lemma createActivity_frame (insertActivity : InsertActivity) (w : World) :
  exists a w',
    createActivity insertActivity w = (Normal a, w')
    /\ problems w' = problems w
    /\ users (storage w') = users (storage w)
    /\ mathProblems (storage w') = mathProblems (storage w)
    /\ feedbackEntries (storage w') = feedbackEntries (storage w).
Proof. do 2 eexists. split; [run; reflexivity|]. repeat split; reflexivity. Qed.

Lemma createFeedback_spec (insertFeedback : InsertFeedback) (w : World) :
  exists f w',
    createFeedback insertFeedback w = (Normal f, w')
    /\ problems w' = problems w
    /\ mathProblems (storage w') = mathProblems (storage w)
    /\ feedbackEntries (storage w')
       = Map_set (fb_id f) f (feedbackEntries (storage w))
    /\ fb_id f = uuids (host w) (uuidCalls (host w))
    /\ fb_problemId f = orElse (if_problemId insertFeedback) None Some
    /\ fb_accuracyRating f = if_accuracyRating insertFeedback
    /\ fb_clarityRating f = if_clarityRating insertFeedback
    /\ fb_comments f = orElse (if_comments insertFeedback) None Some
    /\ fb_isHelpful f = if_isHelpful insertFeedback.
Proof.
  do 2 eexists. split; [unfold createFeedback; run; reflexivity|].
  repeat split; reflexivity.
Qed.

(** X18.  [submitFeedback] never fails and never looks the problem up:
    it stores the feedback for any identifier, touching neither the
    knowledge store nor the problem records.  With a non-empty problem
    identifier the stored entry, with the ratings and the helpfulness
    flag as given, is among those [getFeedbackByProblemId] returns for
    that identifier.  An empty identifier is stored as [null], so the
    entry is not found under the empty identifier; an empty comment is
    stored as [null] too. *)
Theorem submitFeedback_stored (problemId : jsstring) (feedback : Feedback)
    (w : World) :
  exists entry w',
    submitFeedback problemId feedback w = (Normal tt, w')
    /\ problems w' = problems w
    /\ mathProblems (storage w') = mathProblems (storage w)
    /\ In entry (Map_values (feedbackEntries (storage w')))
    /\ fb_accuracyRating entry = accuracyRating feedback
    /\ fb_clarityRating entry = clarityRating feedback
    /\ fb_isHelpful entry = isHelpful feedback
    /\ (problemId <> [] ->
        fb_problemId entry = Some problemId
        /\ exists found,
             getFeedbackByProblemId problemId w' = (Normal found, w')
             /\ In entry found)
    /\ (problemId = [] ->
        fb_problemId entry = None
        /\ exists found,
             getFeedbackByProblemId [] w' = (Normal found, w')
             /\ ~ In entry found)
    /\ (comments feedback = Some [] -> fb_comments entry = None).
Proof.
  unfold submitFeedback.
  match goal with |- context [bind (createFeedback ?i) _] =>
    destruct (createFeedback_spec i w)
      as (f & w1 & E1 & P1 & M1 & F1 & _ & Pid & Acc & Cla & Com & Hel)
  end.
  match goal with |- context [bind (createActivity ?i) _] =>
    destruct (createActivity_frame i w1) as (a & w2 & E2 & P2 & _ & M2 & F2)
  end.
  rewrite (bind_Normal _ _ _ _ _ E1), (bind_Normal _ _ _ _ _ E2).
  exists f, w2. split; [reflexivity|].
  split; [congruence|]. split; [congruence|].
  assert (Hin : In f (Map_values (feedbackEntries (storage w2)))).
  { rewrite F2, F1. apply Map_set_In. }
  split; [exact Hin|].
  cbn [if_problemId if_accuracyRating if_clarityRating if_comments if_isHelpful]
    in Pid, Acc, Cla, Com, Hel.
  repeat (split; [assumption|]).
  split; [|split].
  - intro Hne. destruct problemId as [|c s]; [contradiction|].
    cbn [orElse] in Pid. split; [exact Pid|].
    eexists. split; [reflexivity|].
    apply filter_In. split; [exact Hin|].
    rewrite Pid. cbn [optString_eqb]. apply jsstring_eqb_refl.
  - intros ->. cbn [orElse] in Pid. split; [exact Pid|].
    eexists. split; [reflexivity|].
    intro H. apply filter_In in H as [_ H]. rewrite Pid in H. discriminate.
  - intro Hc. rewrite Hc in Com. exact Com.
Qed.

End FeedbackFacts.

(** ** The solver version of the agent, continued *)

Lemma categorizeProblems_ignores_case (problem : jsstring) :
  SolverAgent.categorizeProblems (toLowerCase problem)
  = SolverAgent.categorizeProblems problem.
Proof.
  unfold SolverAgent.categorizeProblems. now rewrite toLowerCase_idem.
Qed.

(** X19.  [categorizeProblems] tests "solve", "equation" and the single
    letter "x" before the geometry and trigonometry words: every text
    with an x or X in it that has none of the three calculus words is
    "algebra", whatever else it mentions. *)
Theorem categorizeProblems_letter_x (problem : jsstring) :
  contains (toLowerCase problem) (js "x") ->
  (SolverAgent.categorizeProblems problem = js "calculus"
   /\ (contains (toLowerCase problem) (js "derivative")
       \/ contains (toLowerCase problem) (js "differentiate")
       \/ contains (toLowerCase problem) (js "integrate")))
  \/ SolverAgent.categorizeProblems problem = js "algebra".
Proof.
  intro Hx. apply includes_spec in Hx.
  unfold SolverAgent.categorizeProblems.
  destruct (includes (toLowerCase problem) (js "derivative")) eqn:E1.
  { left. split; [reflexivity|]. left. now apply includes_spec. }
  destruct (includes (toLowerCase problem) (js "differentiate")) eqn:E2.
  { left. split; [reflexivity|]. right; left. now apply includes_spec. }
  destruct (includes (toLowerCase problem) (js "integrate")) eqn:E3.
  { left. split; [reflexivity|]. right; right. now apply includes_spec. }
  right. cbn [orb]. rewrite Hx. now rewrite !orb_true_r.
Qed.

Lemma categorizeProblems_letter_x_witness :
  contains (toLowerCase (js "Area of a box")) (js "x")
  /\ SolverAgent.categorizeProblems (js "Area of a box") = js "algebra".
Proof.
  assert (H : contains (toLowerCase (js "Area of a box")) (js "x"))
    by (apply includes_spec; vm_compute; reflexivity).
  split; [exact H|].
  destruct (categorizeProblems_letter_x (js "Area of a box") H)
    as [[_ [C | [C | C]]] | A]; [| | | exact A];
    apply includes_spec in C; vm_compute in C; discriminate.
Defined.

Section SolverAgentMore.

Context {N : Number}.

Variable callPythonSolver : jsstring -> bool -> bool -> M Solution.

(** X20.  The solver version never consults the guard and answers
    whatever the solver returns: for every request on which the solver
    completes, the response is tagged [knowledge_base] while the record
    written for it has the source "math_solver"; record and response
    share the identifier, the solver's solution and the category
    computed by [categorizeProblems].  When the solver throws, the
    request fails with the generic message. *)
Theorem solver_agent_record (request : MathSolutionRequest) (w : World) :
  exists outcome w',
    SolverAgent.solveProblem callPythonSolver request w = (outcome, w')
    /\ match outcome with
       | Normal response =>
         res_source response = knowledge_base
         /\ res_problem response = req_problem request
         /\ res_category response
            = Some (SolverAgent.categorizeProblems (req_problem request))
         /\ (exists w1 w2,
               callPythonSolver (req_problem request) (req_showSteps request)
                 (req_includeExplanations request) w1
               = (Normal (res_solution response), w2))
         /\ exists record,
              In record (Map_values (mathProblems (storage w')))
              /\ mp_id record = res_problemId response
              /\ mp_solution record = res_solution response
              /\ mp_category record
                 = SolverAgent.categorizeProblems (req_problem request)
              /\ mp_source record = js "math_solver"
       | Throw message =>
         message = failureMessage
         /\ exists error w1 w2,
              callPythonSolver (req_problem request) (req_showSteps request)
                (req_includeExplanations request) w1
              = (Throw error, w2)
       end.
Proof.
  unfold SolverAgent.solveProblem.
  destruct (Date_now_spec w) as (startTime & w1 & E1 & _).
  rewrite (bind_Normal _ _ _ _ _ E1).
  match goal with |- context [bind (createActivity ?i) _] =>
    destruct (createActivity_spec i w1) as (a & w2 & E2 & _)
  end.
  rewrite (bind_Normal _ _ _ _ _ E2).
  destruct (callPythonSolver (req_problem request) (req_showSteps request)
              (req_includeExplanations request) w2) as [[solution|error] w3] eqn:Ec.
  - match goal with |- context [tryCatch ?b _] =>
      assert (Eb : exists response w',
                b w2 = (Normal response, w')
                /\ res_source response = knowledge_base
                /\ res_problem response = req_problem request
                /\ res_category response
                   = Some (SolverAgent.categorizeProblems (req_problem request))
                /\ res_solution response = solution
                /\ exists record,
                     In record (Map_values (mathProblems (storage w')))
                     /\ mp_id record = res_problemId response
                     /\ mp_solution record = solution
                     /\ mp_category record
                        = SolverAgent.categorizeProblems (req_problem request)
                     /\ mp_source record = js "math_solver")
    end.
    { rewrite (bind_Normal _ _ _ _ _ Ec).
      match goal with |- context [bind (createMathProblem ?i) _] =>
        destruct (createMathProblem_record i w3)
          as (p & w4 & E4 & _ & Hset & _ & _ & Hsol & Hcat & _ & Hsrc)
      end.
      rewrite (bind_Normal _ _ _ _ _ E4).
      match goal with |- context [bind (createActivity ?i) _] =>
        destruct (createActivity_frame i w4) as (a5 & w5 & E5 & _ & _ & M5 & _)
      end.
      rewrite (bind_Normal _ _ _ _ _ E5).
      destruct (Date_now_spec w5) as (t & w6 & E6 & _ & S6).
      rewrite (bind_Normal _ _ _ _ _ E6).
      do 2 eexists. split; [reflexivity|].
      repeat (split; [reflexivity|]).
      exists p. rewrite S6, M5, Hset.
      split; [apply Map_set_In|]. repeat split; assumption. }
    destruct Eb as (response & w' & Eb & Tag & Pr & Cat & Sol & Rec).
    rewrite (tryCatch_Normal _ _ _ _ _ Eb).
    exists (Normal response), w'. split; [reflexivity|].
    split; [exact Tag|]. split; [exact Pr|]. split; [exact Cat|].
    split; [exists w2, w3; now rewrite Sol|].
    rewrite Sol. exact Rec.
  - match goal with |- context [tryCatch ?b _] =>
      assert (Eb : b w2 = (Throw error, w3))
        by (apply bind_Throw; exact Ec)
    end.
    rewrite (tryCatch_Throw _ _ _ _ _ Eb).
    match goal with |- context [bind (createActivity ?i) _] =>
      destruct (createActivity_spec i w3) as (a4 & w4 & E4 & _)
    end.
    rewrite (bind_Normal _ _ _ _ _ E4).
    exists (Throw failureMessage), w4. split; [reflexivity|].
    split; [reflexivity|]. now exists error, w2, w3.
Qed.

End SolverAgentMore.

(** ** The store only grows *)

Section StoreGrowth.

Context {N : Number} {L : MathLib N}.

(** X23.  The knowledge store starts with three entries and no
    operation removes or rewrites one: [addProblem] appends a single
    entry after the existing ones, [solveProblem] and [submitFeedback]
    leave the store as it is.  With three or more entries the agent's
    search always returns exactly three results, so the test for an
    empty result never decides the routing. *)
Theorem store_only_grows (w : World) :
  length (@MockVectorDB_new N L) = 3%nat
  /\ (forall p s c, exists w',
        addProblem p s c w = (Normal tt, w')
        /\ length (problems w') = S (length (problems w))
        /\ firstn (length (problems w)) (problems w') = problems w)
  /\ (forall request, exists outcome w',
        solveProblem request w = (outcome, w')
        /\ problems w' = problems w)
  /\ (forall problemId feedback, exists w',
        submitFeedback problemId feedback w = (Normal tt, w')
        /\ problems w' = problems w)
  /\ ((3 <= length (problems w))%nat ->
      forall request, length (topThree request w) = 3%nat).
Proof.
  split; [reflexivity|]. split; [|split; [|split]].
  - intros p s c. eexists. split; [reflexivity|]. cbn [problems].
    split.
    + rewrite length_app. cbn [length]. lia.
    + rewrite firstn_app, Nat.sub_diag, firstn_all. cbn [firstn].
      apply app_nil_r.
  - intro request.
    destruct (solveProblem_cases request w) as (_ & outcome & w' & _ & E & P & _).
    now exists outcome, w'.
  - intros problemId feedback. unfold submitFeedback.
    match goal with |- context [bind (createFeedback ?i) _] =>
      destruct (createFeedback_spec i w) as (f & w1 & E1 & P1 & _)
    end.
    match goal with |- context [bind (createActivity ?i) _] =>
      destruct (createActivity_frame i w1) as (a & w2 & E2 & P2 & _)
    end.
    rewrite (bind_Normal _ _ _ _ _ E1), (bind_Normal _ _ _ _ _ E2).
    exists w2. split; [reflexivity | congruence].
  - intros H request.
    apply Nat2Z.inj. unfold topThree.
    rewrite slice0_length, sort_length. unfold scored. rewrite length_map.
    cbn. lia.
Qed.

End StoreGrowth.

(** ** What an accepted request writes *)

Section Persistence.

Context {N : Number} {L : MathLib N}.

Lemma createActivity_log (insertActivity : InsertActivity) (w : World) :
  exists a w',
    createActivity insertActivity w = (Normal a, w')
    /\ host w' = advance 1 1 (host w)
    /\ mathProblems (storage w') = mathProblems (storage w)
    /\ systemActivities (storage w')
       = Map_set (act_id a) a (systemActivities (storage w))
    /\ act_id a = uuids (host w) (uuidCalls (host w))
    /\ act_action a = ia_action insertActivity
    /\ act_source a = ia_source insertActivity.
Proof.
  do 2 eexists. split; [run; reflexivity|]. repeat split; reflexivity.
Qed.

Lemma createMathProblem_log (insertProblem : InsertMathProblem) (w : World) :
  exists p w',
    createMathProblem insertProblem w = (Normal p, w')
    /\ host w' = advance 1 1 (host w)
    /\ systemActivities (storage w') = systemActivities (storage w)
    /\ mathProblems (storage w')
       = Map_set (mp_id p) p (mathProblems (storage w))
    /\ mp_id p = uuids (host w) (uuidCalls (host w))
    /\ mp_problem p = imp_problem insertProblem
    /\ mp_source p = imp_source insertProblem.
Proof.
  do 2 eexists. split; [run; reflexivity|]. repeat split; reflexivity.
Qed.

Lemma createMathProblem_frame (insertProblem : InsertMathProblem) (w : World) :
  exists p w',
    createMathProblem insertProblem w = (Normal p, w')
    /\ users (storage w') = users (storage w)
    /\ feedbackEntries (storage w') = feedbackEntries (storage w).
Proof. do 2 eexists. split; [run; reflexivity|]. split; reflexivity. Qed.

Lemma answerFromKnowledgeBase_frame (request : MathSolutionRequest)
    (startTime : Z) (bestMatch : VectorSearchResult) (w : World) :
  exists response w',
    answerFromKnowledgeBase request startTime bestMatch w = (Normal response, w')
    /\ users (storage w') = users (storage w)
    /\ feedbackEntries (storage w') = feedbackEntries (storage w).
Proof.
  unfold answerFromKnowledgeBase.
  match goal with |- context [bind (createMathProblem ?i) _] =>
    destruct (createMathProblem_frame i w) as (p & w1 & E1 & U1 & F1)
  end.
  match goal with |- context [bind (createActivity ?i) _] =>
    destruct (createActivity_frame i w1) as (a & w2 & E2 & _ & U2 & _ & F2)
  end.
  destruct (Date_now_host w2) as (w3 & E3 & _ & _ & St3).
  rewrite (bind_Normal _ _ _ _ _ E1), (bind_Normal _ _ _ _ _ E2),
    (bind_Normal _ _ _ _ _ E3).
  do 2 eexists. split; [reflexivity|].
  rewrite St3, U2, F2, U1, F1. split; reflexivity.
Qed.

Lemma answerFromWebSearch_frame (request : MathSolutionRequest)
    (startTime : Z) (w : World) :
  exists response w',
    answerFromWebSearch request startTime w = (Normal response, w')
    /\ users (storage w') = users (storage w)
    /\ feedbackEntries (storage w') = feedbackEntries (storage w).
Proof.
  unfold answerFromWebSearch.
  rewrite (bind_Normal _ _ _ _ _ (searchMathematicalContent_eq _ w)).
  destruct (generateSolutionFromSearch_built (req_problem request) mockResults w)
    as (doc & E0 & _).
  rewrite (bind_Normal _ _ _ _ _ E0).
  match goal with |- context [bind (createMathProblem ?i) _] =>
    destruct (createMathProblem_frame i w) as (p & w1 & E1 & U1 & F1)
  end.
  match goal with |- context [bind (createActivity ?i) _] =>
    destruct (createActivity_frame i w1) as (a & w2 & E2 & _ & U2 & _ & F2)
  end.
  destruct (Date_now_host w2) as (w3 & E3 & _ & _ & St3).
  rewrite (bind_Normal _ _ _ _ _ E1), (bind_Normal _ _ _ _ _ E2),
    (bind_Normal _ _ _ _ _ E3).
  do 2 eexists. split; [reflexivity|].
  rewrite St3, U2, F2, U1, F1. split; reflexivity.
Qed.

Lemma route_frame (request : MathSolutionRequest) (startTime : Z) (w : World) :
  exists response w',
    route request startTime w = (Normal response, w')
    /\ users (storage w') = users (storage w)
    /\ feedbackEntries (storage w') = feedbackEntries (storage w).
Proof.
  rewrite route_eq.
  destruct (topThree request w) as [|bestMatch rest];
    [apply answerFromWebSearch_frame|].
  destruct (aboveThreshold (bestMatch :: rest));
    [apply answerFromKnowledgeBase_frame | apply answerFromWebSearch_frame].
Qed.

Lemma answerFromKnowledgeBase_writes (request : MathSolutionRequest)
    (startTime : Z) (bestMatch : VectorSearchResult) (w : World) :
  exists response w',
    answerFromKnowledgeBase request startTime bestMatch w = (Normal response, w')
    /\ BranchWrites request w w' response.
Proof.
  unfold answerFromKnowledgeBase.
  match goal with |- context [bind (createMathProblem ?i) _] =>
    destruct (createMathProblem_log i w)
      as (p & w1 & E1 & H1 & A1 & M1 & I1 & P1 & S1)
  end.
  match goal with |- context [bind (createActivity ?i) _] =>
    destruct (createActivity_log i w1)
      as (a & w2 & E2 & H2 & M2 & A2 & I2 & T2 & S2)
  end.
  destruct (Date_now_host w2) as (w3 & E3 & _ & _ & St3).
  rewrite (bind_Normal _ _ _ _ _ E1), (bind_Normal _ _ _ _ _ E2),
    (bind_Normal _ _ _ _ _ E3).
  do 2 eexists. split; [reflexivity|].
  exists p, a. cbn [res_source tagName].
  rewrite St3, M2, A2, A1, M1.
  rewrite H1 in I2. cbn [advance uuids uuidCalls] in I2.
  repeat split; assumption.
Qed.

Lemma answerFromWebSearch_writes (request : MathSolutionRequest)
    (startTime : Z) (w : World) :
  exists response w',
    answerFromWebSearch request startTime w = (Normal response, w')
    /\ BranchWrites request w w' response.
Proof.
  unfold answerFromWebSearch.
  rewrite (bind_Normal _ _ _ _ _ (searchMathematicalContent_eq _ w)).
  destruct (generateSolutionFromSearch_built (req_problem request) mockResults w)
    as (doc & E0 & _).
  rewrite (bind_Normal _ _ _ _ _ E0).
  match goal with |- context [bind (createMathProblem ?i) _] =>
    destruct (createMathProblem_log i w)
      as (p & w1 & E1 & H1 & A1 & M1 & I1 & P1 & S1)
  end.
  match goal with |- context [bind (createActivity ?i) _] =>
    destruct (createActivity_log i w1)
      as (a & w2 & E2 & H2 & M2 & A2 & I2 & T2 & S2)
  end.
  destruct (Date_now_host w2) as (w3 & E3 & _ & _ & St3).
  rewrite (bind_Normal _ _ _ _ _ E1), (bind_Normal _ _ _ _ _ E2),
    (bind_Normal _ _ _ _ _ E3).
  do 2 eexists. split; [reflexivity|].
  exists p, a. cbn [res_source tagName].
  rewrite St3, M2, A2, A1, M1.
  rewrite H1 in I2. cbn [advance uuids uuidCalls] in I2.
  repeat split; assumption.
Qed.

Lemma route_writes (request : MathSolutionRequest) (startTime : Z) (w : World) :
  exists response w',
    route request startTime w = (Normal response, w')
    /\ BranchWrites request w w' response.
Proof.
  rewrite route_eq.
  destruct (topThree request w) as [|bestMatch rest];
    [apply answerFromWebSearch_writes|].
  destruct (aboveThreshold (bestMatch :: rest));
    [apply answerFromKnowledgeBase_writes | apply answerFromWebSearch_writes].
Qed.

(** X24.  A request that passes the guard writes one problem record
    and two activities and nothing else: the activity "Problem
    submitted" under the first identifier taken from the host, the
    problem record under the second, and the activity "Solution found"
    under the third; the record and the second activity both carry the
    response's source tag as their source.  When these identifiers are
    new, the record is appended to the problem records and the two
    activities, in this order, to the log. *)
Theorem solveProblem_writes (request : MathSolutionRequest) (w : World) :
  let h := host w in
  let id k := uuids h (k + uuidCalls h) in
  let log := systemActivities (storage w) in
  let records := mathProblems (storage w) in
  exists outcome w',
    solveProblem request w = (outcome, w')
    /\ forall response, outcome = Normal response ->
       exists a1 p a2,
         systemActivities (storage w')
         = Map_set (id 2%nat) a2 (Map_set (id 0%nat) a1 log)
         /\ mathProblems (storage w') = Map_set (id 1%nat) p records
         /\ users (storage w') = users (storage w)
         /\ feedbackEntries (storage w') = feedbackEntries (storage w)
         /\ act_action a1 = js "Problem submitted"
         /\ act_source a1 = js "user_input"
         /\ act_action a2 = js "Solution found"
         /\ act_source a2 = tagName (res_source response)
         /\ mp_id p = res_problemId response
         /\ mp_problem p = req_problem request
         /\ mp_source p = tagName (res_source response)
         /\ (Map_get (id 1%nat) records = None ->
             Map_values (mathProblems (storage w')) = Map_values records ++ [p])
         /\ (Map_get (id 0%nat) log = None -> Map_get (id 2%nat) log = None ->
             id 0%nat <> id 2%nat ->
             Map_values (systemActivities (storage w'))
             = Map_values log ++ [a1; a2]).
Proof.
  intros h id log records. subst h id log records. cbn beta.
  destruct (Date_now_host w) as (w1 & E1 & H1 & _ & St1).
  destruct (validate_total (req_problem request) w1) as (v & Ev).
  unfold solveProblem.
  rewrite (bind_Normal _ _ _ _ _ E1), (bind_Normal _ _ _ _ _ Ev).
  destruct (isValid v) eqn:Hv; cbn [negb].
  2:{ unfold throw. do 2 eexists. split; [reflexivity|]. discriminate. }
  match goal with |- context [bind (createActivity ?i) _] =>
    destruct (createActivity_log i w1)
      as (a1 & w2 & E2 & H2 & M2 & A2 & I2 & T2 & S2);
    destruct (createActivity_frame i w1) as (a1' & w2' & E2' & _ & U2 & _ & F2)
  end.
  rewrite E2 in E2'. injection E2' as <- <-.
  rewrite (bind_Normal _ _ _ _ _ E2).
  destruct (route_writes request (clock (host w) (clockCalls (host w))) w2)
    as (response & w3 & Er & p & a2 & M3 & A3 & Ip & Ia & Pp & Sp & Ta & Sa).
  destruct (route_host request (clock (host w) (clockCalls (host w))) w2)
    as (response' & w3' & Er' & _ & _ & _ & Rid).
  rewrite Er in Er'. injection Er' as <- <-.
  rewrite (tryCatch_Normal _ _ _ _ _ Er).
  exists (Normal response), w3. split; [reflexivity|].
  intros r Hr. injection Hr as <-.
  exists a1, p, a2.
  rewrite H2, H1, !advance_advance in Ip, Ia, Rid.
  rewrite H1 in I2.
  cbn [advance uuids uuidCalls Nat.add] in Ip, Ia, I2, Rid.
  rewrite St1 in *.
  assert (Acts : systemActivities (storage w3)
                 = Map_set (uuids (host w) (2 + uuidCalls (host w))) a2
                     (Map_set (uuids (host w) (0 + uuidCalls (host w))) a1
                        (systemActivities (storage w)))).
  { rewrite A3, A2, Ia, I2. reflexivity. }
  assert (Recs : mathProblems (storage w3)
                 = Map_set (uuids (host w) (1 + uuidCalls (host w))) p
                     (mathProblems (storage w))).
  { rewrite M3, M2, Ip. reflexivity. }
  split; [exact Acts|]. split; [exact Recs|].
  destruct (route_frame request (clock (host w) (clockCalls (host w))) w2)
    as (response'' & w3'' & Er'' & Fu & Ff).
  rewrite Er in Er''. injection Er'' as <- <-.
  rewrite U2 in Fu. rewrite F2 in Ff.
  split; [exact Fu|]. split; [exact Ff|].
  cbn [ia_action ia_source] in T2, S2.
  split; [exact T2|]. split; [exact S2|]. split; [exact Ta|].
  split; [exact Sa|]. split; [congruence|]. split; [exact Pp|].
  split; [exact Sp|]. split.
  - intro Fresh. rewrite Recs. now apply Map_set_fresh.
  - intros F0 F2' Hne. rewrite Acts.
    rewrite Map_set_fresh.
    + rewrite (Map_set_fresh _ _ _ F0), <- app_assoc. reflexivity.
    + rewrite Map_get_set_other by exact Hne. exact F2'.
Qed.

End Persistence.

Lemma solveProblem_writes_witness :
  exists response w',
    @solveProblem Exact.number Exact.mathLib
      {| req_problem := js "x^2=4"; req_showSteps := true;
         req_includeExplanations := true |} Demo.world0
    = (Normal response, w')
    /\ length (Map_values (mathProblems (storage w'))) = 4%nat
    /\ length (Map_values (systemActivities (storage w'))) = 2%nat.
Proof.
  pose (request := {| req_problem := js "x^2=4"; req_showSteps := true;
                      req_includeExplanations := true |}).
  fold request.
  destruct (@solveProblem_writes Exact.number Exact.mathLib request Demo.world0)
    as (outcome & w' & E & Writes).
  destruct (@solveProblem_cases Exact.number Exact.mathLib request Demo.world0)
    as (v & outcome' & w'' & Ev & E' & _ & Cases).
  assert (V : fst (@validateMathematicalContent Exact.number (js "x^2=4")
                     Demo.world0)
              = Normal {| isValid := true; reason := None |})
    by (vm_compute; reflexivity).
  change (req_problem request) with (js "x^2=4") in Ev.
  rewrite Ev in V. cbn [fst] in V.
  assert (Hv : isValid v = true) by (inversion V; reflexivity).
  rewrite E in E'.
  assert (Eo : outcome = outcome') by congruence.
  destruct Cases as [(Inv & _) | (_ & response & Eresp & _)];
    [rewrite Hv in Inv; discriminate|].
  rewrite <- Eo in Eresp.
  destruct (Writes response Eresp)
    as (a1 & p & a2 & _ & _ & _ & _ & _ & _ & _ & _ & _ & _ & _ & Recs & Acts).
  exists response, w'. split; [rewrite E, Eresp; reflexivity|].
  split.
  - rewrite Recs by (lazy; reflexivity).
    rewrite length_app. lazy. reflexivity.
  - rewrite Acts;
      [rewrite length_app; lazy; reflexivity
      | lazy; reflexivity | lazy; reflexivity | lazy; discriminate].
Defined.

(** ** The two versions of the agent *)

Section BothVersions.

Context {N : Number} {L : MathLib N}.

Variable callPythonSolver : jsstring -> bool -> bool -> M Solution.

Lemma solver_agent_outcome (request : MathSolutionRequest) (w : World) :
  exists outcome w',
    SolverAgent.solveProblem callPythonSolver request w = (outcome, w')
    /\ SolverVersionOutcome callPythonSolver request w' outcome.
Proof.
  unfold SolverAgent.solveProblem.
  destruct (Date_now_spec w) as (startTime & w1 & E1 & _).
  rewrite (bind_Normal _ _ _ _ _ E1).
  match goal with |- context [bind (createActivity ?i) _] =>
    destruct (createActivity_spec i w1) as (a & w2 & E2 & _)
  end.
  rewrite (bind_Normal _ _ _ _ _ E2).
  destruct (callPythonSolver (req_problem request) (req_showSteps request)
              (req_includeExplanations request) w2) as [[solution|error] w3] eqn:Ec.
  - match goal with |- context [tryCatch ?b _] =>
      assert (Eb : exists response w',
                b w2 = (Normal response, w')
                /\ res_source response = knowledge_base
                /\ res_solution response = solution
                /\ (exists record,
                      In record (Map_values (mathProblems (storage w')))
                      /\ mp_id record = res_problemId response
                      /\ mp_problem record = req_problem request
                      /\ mp_solution record = solution
                      /\ mp_source record = js "math_solver")
                /\ (exists a,
                      In a (Map_values (systemActivities (storage w')))
                      /\ act_action a = js "Solution generated"))
    end.
    { rewrite (bind_Normal _ _ _ _ _ Ec).
      match goal with |- context [bind (createMathProblem ?i) _] =>
        destruct (createMathProblem_record i w3)
          as (p & w4 & E4 & _ & Hset & _ & Hpr & Hsol & _ & _ & Hsrc)
      end.
      rewrite (bind_Normal _ _ _ _ _ E4).
      match goal with |- context [bind (createActivity ?i) _] =>
        destruct (createActivity_log i w4)
          as (a5 & w5 & E5 & _ & M5 & A5 & _ & T5 & _)
      end.
      rewrite (bind_Normal _ _ _ _ _ E5).
      destruct (Date_now_spec w5) as (t & w6 & E6 & _ & S6).
      rewrite (bind_Normal _ _ _ _ _ E6).
      do 2 eexists. split; [reflexivity|].
      split; [reflexivity|]. split; [reflexivity|].
      rewrite S6. split.
      - exists p. rewrite M5, Hset.
        split; [apply Map_set_In|]. repeat split; assumption.
      - exists a5. rewrite A5. split; [apply Map_set_In | exact T5]. }
    destruct Eb as (response & w' & Eb & Tag & Sol & Rec & Act).
    rewrite (tryCatch_Normal _ _ _ _ _ Eb).
    exists (Normal response), w'. split; [reflexivity|].
    cbn [SolverVersionOutcome].
    split; [exact Tag|]. split; [exists w2, w3; now rewrite Sol|].
    rewrite Sol. split; [exact Rec | exact Act].
  - match goal with |- context [tryCatch ?b _] =>
      assert (Eb : b w2 = (Throw error, w3))
        by (apply bind_Throw; exact Ec)
    end.
    rewrite (tryCatch_Throw _ _ _ _ _ Eb).
    match goal with |- context [bind (createActivity ?i) _] =>
      destruct (createActivity_log i w3)
        as (a4 & w4 & E4 & _ & _ & A4 & _ & T4 & _)
    end.
    rewrite (bind_Normal _ _ _ _ _ E4).
    exists (Throw failureMessage), w4. split; [reflexivity|].
    cbn [SolverVersionOutcome].
    split; [reflexivity|]. split; [now exists error, w2, w3|].
    exists a4. rewrite A4. split; [apply Map_set_In | exact T4].
Qed.

(** C2, as amended.  In the routing version of the agent the source
    tag of a response is [knowledge_base] exactly when the answer took
    the knowledge-base branch, and then solution and category are those
    of an entry of the store, and [web_search] exactly when it took the
    fallback branch, and then the solution is the fallback document.
    In the version that calls the Python solver the tag is
    [knowledge_base] for every response, whatever the solver returned;
    only the problem record says "math_solver". *)
Theorem source_tag_by_version (request : MathSolutionRequest) (w : World) :
  (exists outcome w',
     solveProblem request w = (outcome, w')
     /\ forall response, outcome = Normal response ->
          (res_source response = knowledge_base
           <-> aboveThreshold (topThree request w) = true)
          /\ (res_source response = web_search
              <-> aboveThreshold (topThree request w) = false)
          /\ (res_source response = knowledge_base ->
              takenFromStore w w' response)
          /\ (res_source response = web_search ->
              producedByFallback w' response))
  /\ (exists outcome w',
        SolverAgent.solveProblem callPythonSolver request w = (outcome, w')
        /\ forall response, outcome = Normal response ->
             res_source response = knowledge_base
             /\ (exists w1 w2,
                   callPythonSolver (req_problem request) (req_showSteps request)
                     (req_includeExplanations request) w1
                   = (Normal (res_solution response), w2))
             /\ exists record,
                  In record (Map_values (mathProblems (storage w')))
                  /\ mp_id record = res_problemId response
                  /\ mp_solution record = res_solution response
                  /\ mp_source record = js "math_solver").
Proof.
  split; [apply solveProblem_source_tag|].
  destruct (solver_agent_outcome request w) as (outcome & w' & E & H).
  exists outcome, w'. split; [exact E|].
  intros response ->. cbn [SolverVersionOutcome] in H.
  destruct H as (Tag & Run & (record & Hin & Hid & _ & Hsol & Hsrc) & _).
  split; [exact Tag|]. split; [exact Run|].
  exists record. repeat split; assumption.
Qed.

(** C6, as amended.  In the routing version [solveProblem] throws the
    guard's reason exactly when the guard rejects the input, and then
    nothing has been stored; when the guard accepts, the request
    completes with a response.  The version that calls the Python
    solver never consults the guard: whatever the input, it completes
    with a response whenever the solver does, leaving a problem record
    and the activity "Solution generated"; its only error is the
    generic failure, thrown when the solver fails, and leaves the
    activity "Solution failed". *)
Theorem validation_by_version (request : MathSolutionRequest) (w : World) :
  (exists v outcome w',
     validateMathematicalContent (req_problem request) w = (Normal v, w)
     /\ solveProblem request w = (outcome, w')
     /\ (isValid v = false
         <-> exists why, outcome = Throw why /\ reason v = Some why)
     /\ (isValid v = true <-> exists response, outcome = Normal response)
     /\ (isValid v = false ->
         problems w' = problems w /\ storage w' = storage w
         /\ mathProblems (storage w') = mathProblems (storage w)
         /\ systemActivities (storage w') = systemActivities (storage w)))
  /\ (exists outcome w',
        SolverAgent.solveProblem callPythonSolver request w = (outcome, w')
        /\ SolverVersionOutcome callPythonSolver request w' outcome
        /\ forall message, outcome = Throw message ->
             message <> reasonInappropriate /\ message <> reasonNotMath).
Proof.
  split; [apply solveProblem_validation|].
  destruct (solver_agent_outcome request w) as (outcome & w' & E & H).
  exists outcome, w'. split; [exact E|]. split; [exact H|].
  intros message ->. cbn [SolverVersionOutcome] in H. destruct H as (-> & _).
  split; intro F; apply (f_equal (hd 0)) in F;
    rewrite failureMessage_head in F;
    [rewrite reasonInappropriate_head in F | rewrite reasonNotMath_head in F];
    discriminate.
Qed.

End BothVersions.

Lemma seeds_have_steps {N : Number} {L : MathLib N} :
  Forall (fun e => steps (kb_solution e) <> []) (@MockVectorDB_new N L).
Proof.
  unfold MockVectorDB_new, initializeSampleData, sampleData.
  cbn [fold_left app].
  repeat constructor; cbn [kb_solution]; discriminate.
Qed.

Lemma Demo_store :
  problems Demo.world0 = @MockVectorDB_new Exact.number Exact.mathLib.
Proof. reflexivity. Qed.

Lemma solverAnswering_completes {N : Number} (solution : Solution)
    (p : jsstring) (s e : bool) (w1 w2 : World) (error : jsstring) :
  solverAnswering solution p s e w1 <> (Throw error, w2).
Proof. unfold solverAnswering, ret. discriminate. Qed.

Lemma solverAnswering_result {N : Number} (solution result : Solution)
    (p : jsstring) (s e : bool) (w1 w2 : World) :
  solverAnswering solution p s e w1 = (Normal result, w2) -> result = solution.
Proof. unfold solverAnswering, ret. congruence. Qed.

(** C2 as stated fails for the version that calls the Python solver:
    on the initial store, with a solver that prints the answer "42", the
    response is tagged [knowledge_base] although its solution is the
    solver's and that of no entry of the knowledge store. *)
Lemma solver_version_tag_not_from_store :
  let request := {| req_problem := js "What is 6 times 7?";
                    req_showSteps := true;
                    req_includeExplanations := true |} in
  exists response w',
    @SolverAgent.solveProblem Exact.number (solverAnswering fortyTwo)
      request Demo.world0
    = (Normal response, w')
    /\ res_source response = knowledge_base
    /\ res_solution response = fortyTwo
    /\ ~ (exists e, In e (problems Demo.world0)
            /\ res_solution response = kb_solution e)
    /\ ~ @takenFromStore Exact.number Demo.world0 w' response.
Proof.
  intro request.
  destruct (@solver_agent_outcome Exact.number (solverAnswering fortyTwo)
              request Demo.world0) as ([response|message] & w' & E & H);
    unfold SolverVersionOutcome in H.
  - destruct H as (Tag & (w1 & w2 & Run) & _).
    apply solverAnswering_result in Run.
    assert (No : ~ (exists e, In e (problems Demo.world0)
                      /\ res_solution response = kb_solution e)).
    { intros (e & He & Hs). rewrite Demo_store in He.
      pose proof (@seeds_have_steps Exact.number Exact.mathLib) as F.
      rewrite Forall_forall in F. apply (F e He).
      rewrite <- Hs, Run. reflexivity. }
    exists response, w'. split; [exact E|]. split; [exact Tag|].
    split; [exact Run|]. split; [exact No|].
    unfold takenFromStore. intros ((e & He & Hs & _) & _).
    apply No. exists e. split; [exact He | exact Hs].
  - destruct H as (_ & (error & w1 & w2 & Run) & _).
    exfalso. exact (solverAnswering_completes _ _ _ _ _ _ _ Run).
Qed.

(** C6 as stated fails for the version that calls the Python solver:
    the guard rejects the input "politics", yet with a solver that
    prints an answer the request completes with a response, and a
    problem record for "politics" and an activity have been written. *)
Lemma solver_version_skips_validation :
  let request := {| req_problem := js "politics";
                    req_showSteps := true;
                    req_includeExplanations := true |} in
  fst (@validateMathematicalContent Exact.number (js "politics") Demo.world0)
  = Normal {| isValid := false; reason := Some reasonInappropriate |}
  /\ systemActivities (storage Demo.world0) = []
  /\ exists response w',
       @SolverAgent.solveProblem Exact.number (solverAnswering fortyTwo)
         request Demo.world0
       = (Normal response, w')
       /\ (exists record,
             In record (Map_values (mathProblems (storage w')))
             /\ mp_id record = res_problemId response
             /\ mp_problem record = js "politics")
       /\ (exists a,
             In a (Map_values (systemActivities (storage w')))
             /\ act_action a = js "Solution generated").
Proof.
  intro request.
  assert (V : forall w : @World Exact.number,
            fst (validateMathematicalContent (js "politics") w)
            = Normal {| isValid := false; reason := Some reasonInappropriate |})
    by (intro w; vm_compute; reflexivity).
  split; [apply V|]. split; [reflexivity|].
  destruct (@solver_agent_outcome Exact.number (solverAnswering fortyTwo)
              request Demo.world0) as ([response|message] & w' & E & H);
    unfold SolverVersionOutcome in H.
  - destruct H as (_ & _ & (record & Hin & Hid & Hpr & _) & Act).
    exists response, w'. split; [exact E|]. split; [|exact Act].
    exists record. split; [exact Hin|]. split; [exact Hid | exact Hpr].
  - destruct H as (_ & (error & w1 & w2 & Run) & _).
    exfalso. exact (solverAnswering_completes _ _ _ _ _ _ _ Run).
Qed.

(** ** The comparator of the search in binary64 *)

(** X25.  In binary64 the comparator [(a, b) => b.similarity -
    a.similarity] of the search is positive, asking for [a] after [b],
    exactly when [a]'s score is less than [b]'s, whatever the two
    scores are: a difference never rounds to a zero of the wrong sign,
    a NaN score makes it NaN, and two equal infinities give NaN as
    well.  It never asks for both orders. *)
Theorem bySimilarity_binary64 (a b : @VectorSearchResult Binary64.number) :
  after bySimilarity a b = PrimFloat.ltb (similarity a) (similarity b)
  /\ (after bySimilarity a b = true -> after bySimilarity b a = false).
Proof.
  assert (E : forall x y : @VectorSearchResult Binary64.number,
            after bySimilarity x y = PrimFloat.ltb (similarity x) (similarity y)).
  { intros x y. unfold after, bySimilarity.
    cbn [gtb sub ofZ Binary64.number]. apply Binary64Order.ltb_sub_sign. }
  split; [apply E|]. rewrite !E. apply Binary64Order.ltb_asym.
Qed.

(** ** An embedding against itself, and the routing threshold *)

(** X26.  In binary64 the similarity of an embedding with itself passes
    the test [similarity > this.similarityThreshold] of the agent
    whenever the sum of its squares, as the loop accumulates it, is a
    positive finite number: the three roundings of
    [n / (sqrt n * sqrt n)] leave the score within [2^-50] of 1, above
    the literal 0.7. *)
Theorem self_similarity_above_threshold (a : list float) :
  positiveFinite (@squaredNorm Binary64.number a) ->
  @gtb Binary64.number (@calculateSimilarity Binary64.number a a)
    similarityThreshold = true.
Proof.
  intro H. rewrite calculateSimilarity_same.
  apply Binary64Tolerance.closeToOne_above.
  exact (self_quotient_closeToOne _ H).
Qed.

Lemma self_similarity_above_threshold_witness :
  positiveFinite
    (@squaredNorm Binary64.number
       [@lit_0_7 Binary64.number; @lit_0_1 Binary64.number])
  /\ @gtb Binary64.number
       (@calculateSimilarity Binary64.number
          [@lit_0_7 Binary64.number; @lit_0_1 Binary64.number]
          [@lit_0_7 Binary64.number; @lit_0_1 Binary64.number])
       similarityThreshold = true.
Proof.
  assert (H : positiveFinite
                (@squaredNorm Binary64.number
                   [@lit_0_7 Binary64.number; @lit_0_1 Binary64.number]))
    by (vm_compute; exact I).
  split; [exact H|].
  exact (self_similarity_above_threshold _ H).
Defined.
